(** * Browzie background service worker (background.js)

    A shallow embedding of the extension's background script: the
    per-tab registry of in-flight fetch AbortControllers
    ([activeFetchControllers], [addControllerForTab],
    [removeControllerForTab], [cleanupTab]), the lifecycle notifier
    ([notifyTab]) and the message listener with its two generation
    handlers ([summarize_page], [query_gemini]).

    The script runs on a single-threaded event loop.  Synchronous code is
    modelled in a monad that threads the shared [world], propagates
    exceptions and collects the calls the flow makes; the only suspension
    points are the [await]s on the network, where the calls other flows
    make on the shared registry are interleaved. *)

From Stdlib Require Import ZArith String List SpecFloat.
From stdpp Require Import gmap strings list pretty.

Set Warnings "-register-all".

(** ** JavaScript values *)

(** Values that travel in messages, payloads and replies.  Numbers are
    IEEE 754 doubles, as in JavaScript: a signed zero, an infinity, NaN,
    or a sign, a mantissa and an exponent. *)
Inductive jsval : Type :=
| JUndefined
| JNull
| JBool (b : bool)
| JNum (x : spec_float)
| JStr (s : string)
| JArr (xs : list jsval)
| JObj (fields : list (string * jsval)).

(** An exception value: the [name] and [message] of an Error or
    DOMException object. *)
Record js_error : Type := JsError { err_name : string; err_message : string }.

(** ToBoolean. *)
Definition truthy (v : jsval) : bool :=
  match v with
  | JUndefined | JNull => false
  | JBool b => b
  | JNum (S754_zero _) | JNum S754_nan => false
  | JNum (S754_infinity _) | JNum (S754_finite _ _ _) => true
  | JStr s => negb (String.eqb s "")
  | JArr _ | JObj _ => true
  end.

Fixpoint lookup_field (p : string) (fields : list (string * jsval)) : jsval :=
  match fields with
  | [] => JUndefined
  | (q, v) :: rest => if String.eqb p q then v else lookup_field p rest
  end.

(** [v?.p] for a property [p] that no built-in prototype defines (the
    script only reads [action], [type], [ok], [text], [url], ...):
    [undefined] unless [v] is an object that has the field. *)
Definition js_get (v : jsval) (p : string) : jsval :=
  match v with
  | JObj fields => lookup_field p fields
  | _ => JUndefined
  end.

(** [a || b]. *)
Definition js_or (a b : jsval) : jsval := if truthy a then a else b.

(** [v === 'lit'] for a string literal. *)
Definition is_str (v : jsval) (lit : string) : bool :=
  match v with
  | JStr s => String.eqb s lit
  | _ => false
  end.

(** [String(err)] for an error object (Error.prototype.toString). *)
Definition error_to_string (e : js_error) : string :=
  if String.eqb (err_name e) "" then err_message e
  else if String.eqb (err_message e) "" then err_name e
  else err_name e +:+ ": " +:+ err_message e.

(** ** The shared state *)

(** An AbortController object, identified by its allocation index. *)
Abbreviation ctrl := nat (only parsing).

(** Keys of the [activeFetchControllers] Map: a tab id (Chrome's tab ids
    are integers), or the string ['no-tab'] for callers without a tab.  A
    [tabId] that may be [undefined], such as [sender?.tab?.id], is an
    [option Z]. *)
Inductive origin_key : Type :=
| TabKey (id : Z)
| NoTab.

#[global] Instance origin_key_eq_dec : EqDecision origin_key.
Proof. solve_decision. Defined.

#[global] Instance origin_key_countable : Countable origin_key.
Proof.
  refine (inj_countable'
            (fun k => match k with TabKey i => Some i | NoTab => None end)
            (fun o => match o with Some i => TabKey i | None => NoTab end) _).
  intros []; reflexivity.
Defined.

(** [(typeof tabId !== 'undefined') ? tabId : 'no-tab'] *)
Definition key_of (tabId : option Z) : origin_key :=
  match tabId with
  | Some id => TabKey id
  | None => NoTab
  end.

(** [`${key}`] *)
Definition key_to_string (key : origin_key) : string :=
  match key with
  | TabKey id => pretty id
  | NoTab => "no-tab"
  end.

(** A JavaScript [Set] of controllers: its elements in insertion order,
    which is the order [for ... of] visits them.  [set.add], [set.delete],
    and [set.size] is the length. *)
Definition set_add (c : ctrl) (set : list ctrl) : list ctrl :=
  if decide (c ∈ set) then set else set ++ [c].

Definition set_delete (c : ctrl) (set : list ctrl) : list ctrl :=
  filter (fun x => x ≠ c) set.

(** What a flow does that others can see, in the order it does it: its
    calls of the three registry helpers and of [notifyTab], and its calls
    into the platform ([controller.abort()], [console.log],
    [console.warn], [chrome.tabs.sendMessage], [fetch] and the settlement
    of its promise, [sendResponse]). *)
Inductive call : Type :=
| CallAdd (tabId : option Z) (controller : ctrl)
| CallRemove (tabId : option Z) (controller : ctrl)
| CallCleanup (tabId : option Z)
| Abort (controller : ctrl)
| ConsoleLog (args : list jsval)
| ConsoleWarn (args : list jsval)
| CallNotify (tabId : option Z) (message : jsval)
| TabsSendMessage (tabId : Z) (message : jsval)
| FetchStart (url : string) (payload : jsval) (signal : ctrl)
| FetchResolved (status : Z)
| FetchRejected (e : js_error)
| SendResponse (reply : jsval).

(** The state all flows share: the module-level Map, the controllers
    whose [signal.aborted] is set, and the number of controllers created
    so far. *)
Record world : Type := World {
  activeFetchControllers : gmap origin_key (list ctrl);
  abortedSignals : list ctrl;
  allocated : nat
}.

(** The state right after the script is loaded: [new Map()]. *)
Definition initial_world : world :=
  {| activeFetchControllers := ∅; abortedSignals := []; allocated := 0 |}.

(** The controllers registered under a key ([[]] when the key is absent). *)
Definition handles (w : world) (key : origin_key) : list ctrl :=
  default [] (activeFetchControllers w !! key).

(** ** The monad of synchronous script code *)

Inductive result (A : Type) : Type :=
| Ok (a : A)
| Throw (e : js_error).
Arguments Ok {A} a.
Arguments Throw {A} e.

(** A run of a piece of code from a given world: how it ended, the world
    it left, and the calls it made, in order. *)
Record run (A : Type) : Type := Run {
  outcome : result A;
  final : world;
  calls : list call
}.
Arguments Run {A} outcome final calls.
Arguments outcome {A} r.
Arguments final {A} r.
Arguments calls {A} r.

Definition M (A : Type) : Type := world -> run A.

(** [bind] runs [k] only if [m] returned; an exception skips the rest. *)

Definition ret {A} (a : A) : M A := fun w => Run (Ok a) w [].

Definition bind {A B} (m : M A) (k : A -> M B) : M B :=
  fun w =>
    match m w with
    | Run (Ok a) w' cs =>
        match k a w' with
        | Run o w'' cs' => Run o w'' (cs ++ cs')
        end
    | Run (Throw e) w' cs => Run (Throw e) w' cs
    end.

Definition throw {A} (e : js_error) : M A := fun w => Run (Throw e) w [].

(** [try { body } catch (e) { handler }] *)
Definition try_catch {A} (body : M A) (handler : js_error -> M A) : M A :=
  fun w =>
    match body w with
    | Run (Ok a) w' cs => Run (Ok a) w' cs
    | Run (Throw e) w' cs =>
        match handler e w' with
        | Run o w'' cs' => Run o w'' (cs ++ cs')
        end
    end.

Declare Scope js_scope.
Delimit Scope js_scope with js.
Notation "'let*' x ':=' c 'in' k" := (bind c (fun x => k))
  (at level 10, x name, c at level 100, k at level 200) : js_scope.
Notation "c ';;;' k" := (bind c (fun _ => k))
  (at level 100, k at level 200, right associativity) : js_scope.
Open Scope js_scope.

Definition get_world : M world := fun w => Run (Ok w) w [].

Definition modify_registry
    (f : gmap origin_key (list ctrl) -> gmap origin_key (list ctrl)) : M unit :=
  fun w => Run (Ok tt)
               {| activeFetchControllers := f (activeFetchControllers w);
                  abortedSignals := abortedSignals w;
                  allocated := allocated w |} [].

(** Note a call of this flow. *)
Definition record (c : call) : M unit := fun w => Run (Ok tt) w [c].

Fixpoint for_each {A} (xs : list A) (body : A -> M unit) : M unit :=
  match xs with
  | [] => ret tt
  | x :: rest => body x ;;; for_each rest body
  end.

(** ** Platform operations *)

(** [new AbortController()] *)
Definition new_AbortController : M ctrl :=
  fun w => Run (Ok (allocated w))
               {| activeFetchControllers := activeFetchControllers w;
                  abortedSignals := abortedSignals w;
                  allocated := S (allocated w) |} [].

(** [controller.abort()]: sets [signal.aborted]; aborting twice is
    harmless. *)
Definition controller_abort (controller : ctrl) : M unit :=
  record (Abort controller) ;;;
  fun w => Run (Ok tt)
               {| activeFetchControllers := activeFetchControllers w;
                  abortedSignals := set_add controller (abortedSignals w);
                  allocated := allocated w |} [].

(** [controller.signal.aborted] *)
Definition signal_aborted (controller : ctrl) : M bool :=
  let* w := get_world in ret (bool_decide (controller ∈ abortedSignals w)).

Definition console_log (args : list jsval) : M unit := record (ConsoleLog args).

Definition console_warn (args : list jsval) : M unit := record (ConsoleWarn args).

(** ** The registry helpers *)

(** The Map holds the Set itself, so [set.add] and [set.delete] on the
    Set found under a key update the Map's entry. *)
Definition addControllerForTab (tabId : option Z) (controller : ctrl) : M unit :=
  record (CallAdd tabId controller) ;;;
  let key := key_of tabId in
  let* w := get_world in
  match activeFetchControllers w !! key with
  | None => modify_registry (insert key (set_add controller []))
  | Some set => modify_registry (insert key (set_add controller set))
  end.

Definition removeControllerForTab (tabId : option Z) (controller : ctrl) : M unit :=
  record (CallRemove tabId controller) ;;;
  let key := key_of tabId in
  let* w := get_world in
  match activeFetchControllers w !! key with
  | None => ret tt
  | Some set =>
      let set := set_delete controller set in
      modify_registry (insert key set) ;;;
      if (length set =? 0)%nat then modify_registry (delete key) else ret tt
  end.

Definition cleanupTab (tabId : option Z) : M unit :=
  record (CallCleanup tabId) ;;;
  let key := key_of tabId in
  let* w := get_world in
  match activeFetchControllers w !! key with
  | None => ret tt
  | Some set =>
      let count := length set in
      for_each set (fun controller =>
        try_catch (controller_abort controller) (fun _ => ret tt)) ;;;
      modify_registry (delete key) ;;;
      console_log [JStr ("cleanupTab: aborted " +:+ pretty count +:+
                         " request(s) for tab/key: " +:+ key_to_string key)]
  end.

(** [chrome.tabs.onRemoved] listener. *)
Definition onRemoved (tabId : Z) : M unit :=
  cleanupTab (Some tabId) ;;;
  console_log [JStr ("Tab " +:+ pretty tabId +:+
                     " closed — cleaned up extension resources for that tab.")].

(** ** Calls on the registry *)

(** A call of one of the three registry helpers, with any arguments. *)
Inductive registry_call : Type :=
| Register (tabId : option Z) (controller : ctrl)
| Unregister (tabId : option Z) (controller : ctrl)
| CancelAll (tabId : option Z).

Definition perform (op : registry_call) : M unit :=
  match op with
  | Register tabId controller => addControllerForTab tabId controller
  | Unregister tabId controller => removeControllerForTab tabId controller
  | CancelAll tabId => cleanupTab tabId
  end.

Definition perform_all (ops : list registry_call) : M unit :=
  for_each ops perform.

(** ** Other flows *)

(** What another flow of the event loop does to the shared world in one
    turn: another generation handler starts (it creates its controller
    and registers it), another handler's request settles (it unregisters
    its controller), or a tab is torn down or aborted ([onRemoved],
    [CLOSE_EXTENSION], [abort_requests]: [cleanupTab]). *)
Inductive other_step : Type :=
| OtherStarts (tabId : option Z)
| OtherSettles (tabId : option Z) (controller : ctrl)
| Teardown (tabId : option Z).

Definition run_other (step : other_step) : M unit :=
  match step with
  | OtherStarts tabId =>
      let* controller := new_AbortController in
      addControllerForTab tabId controller
  | OtherSettles tabId controller => removeControllerForTab tabId controller
  | Teardown tabId => cleanupTab tabId
  end.

Definition run_others (steps : list other_step) : M unit :=
  for_each steps run_other.

(** What happens while the flow under study is suspended at an [await]:
    other flows take their turns on the shared world.  Their calls are
    not calls of this flow, and nothing they throw reaches it. *)
Definition interleave (steps : list other_step) : M unit :=
  fun w => Run (Ok tt) (final (run_others steps w)) [].

(** ** The environment of one handler invocation *)

(** What [chrome.tabs.sendMessage] meets at the tab. *)
Inductive delivery : Type :=
| Delivered
| NoReceiver (lastError : string)
| SendThrows (e : js_error).

(** What the proxy does when the request is not aborted. *)
Inductive network_outcome : Type :=
| Responds (status : Z) (text : result string) (json : result jsval)
| NetFails (e : js_error).

(** Everything outside the flow that one handler invocation depends on:
    how the tabs take messages, what other flows do while the flow waits
    for the fetch and for the body, what the network answers, the message
    of the platform's AbortError, and the clock. *)
Record scenario : Type := Scenario {
  surface : Z -> jsval -> delivery;
  during_fetch : list other_step;
  network : network_outcome;
  during_body : list other_step;
  abort_message : string;
  now : spec_float
}.

(** A [Response]: its status, what [text()] and [json()] give, and the
    signal the request was made with. *)
Record Response : Type := {
  status : Z;
  text_result : result string;
  json_result : result jsval;
  signal : ctrl
}.

(** A status in the range 200-299. *)
Definition is_2xx (st : Z) : bool := ((200 <=? st) && (st <=? 299))%Z.

(** [res.ok] *)
Definition res_ok (res : Response) : bool := is_2xx (status res).

Definition AbortError (sc : scenario) : js_error :=
  {| err_name := "AbortError"; err_message := abort_message sc |}.

(** [await fetch(url, { method: 'POST', headers, body: JSON.stringify(payload),
    signal })]: the flow is suspended until the request settles, and other
    flows run meanwhile.  If the signal is aborted by then the promise
    rejects with an AbortError; otherwise the network decides. *)
Definition fetch (sc : scenario) (url : string) (payload : jsval)
    (controller : ctrl) : M Response :=
  record (FetchStart url payload controller) ;;;
  interleave (during_fetch sc) ;;;
  let* aborted := signal_aborted controller in
  if aborted then
    record (FetchRejected (AbortError sc)) ;;; throw (AbortError sc)
  else
    match network sc with
    | Responds st t j =>
        record (FetchResolved st) ;;;
        ret {| status := st; text_result := t; json_result := j;
               signal := controller |}
    | NetFails e => record (FetchRejected e) ;;; throw e
    end.

(** Reading a body is a second suspension; an aborted signal rejects the
    read. *)
Definition read_body {A} (sc : scenario) (res : Response)
    (reader : Response -> result A) : M A :=
  interleave (during_body sc) ;;;
  let* aborted := signal_aborted (signal res) in
  if aborted then throw (AbortError sc)
  else
    match reader res with
    | Ok a => ret a
    | Throw e => throw e
    end.

(** [await res.text()] *)
Definition res_text (sc : scenario) (res : Response) : M string :=
  read_body sc res text_result.

(** [await res.json()] *)
Definition res_json (sc : scenario) (res : Response) : M jsval :=
  read_body sc res json_result.

(** [chrome.tabs.sendMessage(tabId, message, callback)]; the callback
    reads [chrome.runtime.lastError] and does nothing with it. *)
Definition chrome_tabs_sendMessage (sc : scenario) (tabId : Z)
    (message : jsval) : M unit :=
  record (TabsSendMessage tabId message) ;;;
  match surface sc tabId message with
  | SendThrows e => throw e
  | Delivered | NoReceiver _ => ret tt
  end.

Definition sendResponse (reply : jsval) : M unit := record (SendResponse reply).

(** ** The lifecycle notifier *)

Definition notifyTab (sc : scenario) (tabId : option Z) (message : jsval) : M unit :=
  record (CallNotify tabId message) ;;;
  match tabId with
  | None => ret tt
  | Some id =>
      try_catch (chrome_tabs_sendMessage sc id message) (fun _ => ret tt)
  end.

(** ** The generation handlers *)

(** [err && err.name === 'AbortError']; what [fetch] and the body readers
    throw is always an error object. *)
Definition is_abort (err : js_error) : bool :=
  String.eqb (err_name err) "AbortError".

(** [isAbort ? abortText : (err && err.message) || String(err)] *)
Definition error_text (abortText : string) (err : js_error) : string :=
  if is_abort err then abortText
  else if negb (String.eqb (err_message err) "") then err_message err
  else error_to_string err.

(** The body of the [summarize_page] branch of the listener. *)
Definition summarize_page (sc : scenario) (sender_tab_id : option Z)
    (msg : jsval) : M unit :=
  let tabId := sender_tab_id in
  let* controller := new_AbortController in
  addControllerForTab tabId controller ;;;
  try_catch
    (let payload :=
       JObj [("pageContext", js_or (js_get msg "pageContext") JNull);
             ("length", js_or (js_get msg "length") (JStr "medium"))] in
     notifyTab sc tabId
       (JObj [("action", JStr "generation_started"); ("kind", JStr "summary")]) ;;;
     try_catch
       (console_log
          [JStr "Background: summarize_page for";
           js_or (js_get (js_get payload "pageContext") "url") (JStr "(no-url)");
           JStr "length="; js_get payload "length"])
       (fun _ => ret tt) ;;;
     let* res := fetch sc "http://localhost:3000/api/summarize" payload controller in
     removeControllerForTab tabId controller ;;;
     if negb (res_ok res) then
       let* bodyText :=
         try_catch (res_text sc res) (fun _ => ret "<unable to read>") in
       let error := "Server error " +:+ pretty (status res) +:+ ": " +:+ bodyText in
       notifyTab sc tabId
         (JObj [("action", JStr "generation_finished"); ("ok", JBool false);
                ("error", JStr error); ("kind", JStr "summary")]) ;;;
       sendResponse (JObj [("ok", JBool false); ("error", JStr error)])
     else
       let* data := res_json sc res in
       notifyTab sc tabId
         (JObj [("action", JStr "generation_finished"); ("ok", JBool true);
                ("text", js_get data "text"); ("data", data);
                ("kind", JStr "summary")]) ;;;
       sendResponse
         (JObj [("ok", JBool (truthy (js_get data "ok")));
                ("text", js_get data "text"); ("data", data)]))
    (fun err =>
       removeControllerForTab tabId controller ;;;
       let error := error_text "Request aborted" err in
       notifyTab sc tabId
         (JObj [("action", JStr "generation_finished"); ("ok", JBool false);
                ("error", JStr error); ("kind", JStr "summary")]) ;;;
       sendResponse (JObj [("ok", JBool false); ("error", JStr error)])).

(** The body of the [query_gemini] branch of the listener. *)
Definition query_gemini (sc : scenario) (sender_tab_id : option Z)
    (msg : jsval) : M unit :=
  let tabId := sender_tab_id in
  let* controller := new_AbortController in
  addControllerForTab tabId controller ;;;
  try_catch
    (let payload :=
       JObj [("prompt", js_get msg "prompt");
             ("selectedText", js_get msg "selectedText");
             ("mode", js_or (js_get msg "mode") (JStr "general"));
             ("task", js_or (js_get msg "task") JNull);
             ("targetLanguage", js_or (js_get msg "targetLanguage") JNull);
             ("pageContext", js_or (js_get msg "pageContext") JNull)] in
     notifyTab sc tabId
       (JObj [("action", JStr "generation_started"); ("kind", JStr "query")]) ;;;
     try_catch
       (if truthy (js_get payload "pageContext") then
          console_log
            [JStr "Background: forwarding pageContext for";
             js_or (js_get (js_get payload "pageContext") "url")
               (js_or (js_get (js_get payload "pageContext") "title")
                  (JStr "(no url)"))]
        else console_log [JStr "Background: no pageContext provided"])
       (fun e =>
          console_warn [JStr "Background: error logging pageContext";
                        JStr (error_to_string e)]) ;;;
     let* res := fetch sc "http://localhost:3000/api/generate" payload controller in
     removeControllerForTab tabId controller ;;;
     if negb (res_ok res) then
       let* text :=
         try_catch (res_text sc res)
           (fun e => ret ("<failed to read body: " +:+ err_message e +:+ ">")) in
       let error := "Server error " +:+ pretty (status res) +:+ ": " +:+ text in
       notifyTab sc tabId
         (JObj [("action", JStr "generation_finished"); ("ok", JBool false);
                ("error", JStr error); ("kind", JStr "query")]) ;;;
       sendResponse (JObj [("ok", JBool false); ("error", JStr error)])
     else
       let* data := res_json sc res in
       notifyTab sc tabId
         (JObj [("action", JStr "generation_finished"); ("ok", JBool true);
                ("data", data); ("kind", JStr "query")]) ;;;
       sendResponse (JObj [("ok", JBool true); ("data", data)]))
    (fun err =>
       removeControllerForTab tabId controller ;;;
       let error :=
         error_text "Request aborted (tab closed or navigation occurred)." err in
       notifyTab sc tabId
         (JObj [("action", JStr "generation_finished"); ("ok", JBool false);
                ("error", JStr error); ("kind", JStr "query")]) ;;;
       sendResponse (JObj [("ok", JBool false); ("error", JStr error)])).

(** ** The message listener *)

(** [null] and [undefined] have no properties: a plain member access on
    them throws, where it gives [undefined] on every other value that
    lacks the property. *)
Definition nullish (v : jsval) : bool :=
  match v with
  | JUndefined | JNull => true
  | _ => false
  end.

(** The TypeError of [v.p] for a nullish [v], with the engine's message. *)
Definition member_error (v : jsval) (p : string) : js_error :=
  {| err_name := "TypeError";
     err_message :=
       "Cannot read properties of "
       +:+ match v with JNull => "null" | _ => "undefined" end
       +:+ " (reading '" +:+ p +:+ "')" |}.

(** [chrome.runtime.onMessage] listener; [sender_tab_id] is
    [sender?.tab?.id].  The result is the listener's return value; the
    two generation branches return [true] at their first [await] and
    reply later, which is modelled by running them to completion with
    the interleavings of the scenario.  The first thing the listener
    does is read [msg.action], which throws for a message that is [null]
    or [undefined]. *)
Definition onMessage (sc : scenario) (msg : jsval)
    (sender_tab_id : option Z) : M jsval :=
  if nullish msg then throw (member_error msg "action")
  else if is_str (js_get msg "action") "abort_requests" then
    let tabId := sender_tab_id in
    match tabId with
    | Some id =>
        cleanupTab (Some id) ;;;
        sendResponse
          (JObj [("ok", JBool true);
                 ("message", JStr ("aborted for tab " +:+ pretty id))]) ;;;
        ret JUndefined
    | None =>
        cleanupTab None ;;;
        sendResponse
          (JObj [("ok", JBool true);
                 ("message", JStr "aborted non-tab controllers")]) ;;;
        ret JUndefined
    end
  else if is_str (js_get msg "type") "CLOSE_EXTENSION" then
    let tabId := sender_tab_id in
    match tabId with
    | Some id =>
        console_log [JStr ("Received CLOSE_EXTENSION from tab " +:+ pretty id)] ;;;
        cleanupTab (Some id) ;;;
        ret JUndefined
    | None =>
        console_log
          [JStr "Received CLOSE_EXTENSION from non-tab sender — cleaning non-tab controllers"] ;;;
        cleanupTab None ;;;
        ret JUndefined
    end
  else if is_str (js_get msg "action") "summarize_page" then
    summarize_page sc sender_tab_id msg ;;;
    ret (JBool true)
  else if is_str (js_get msg "action") "query_gemini" then
    query_gemini sc sender_tab_id msg ;;;
    ret (JBool true)
  else if is_str (js_get msg "action") "PING" then
    sendResponse (JObj [("ok", JBool true); ("time", JNum (now sc))]) ;;;
    ret JUndefined
  else ret JUndefined.

(** ** Reading the calls of a run *)

(** The replies sent through [sendResponse]. *)
Definition replies (cs : list call) : list jsval :=
  omap (fun c => match c with SendResponse r => Some r | _ => None end) cs.

(** The tab id and message of every call of [notifyTab], in order. *)
Definition notified (cs : list call) : list (option Z * jsval) :=
  omap (fun c => match c with CallNotify t m => Some (t, m) | _ => None end) cs.

(** The tab and message of every [chrome.tabs.sendMessage], in order. *)
Definition sent (cs : list call) : list (Z * jsval) :=
  omap (fun c => match c with TabsSendMessage t m => Some (t, m) | _ => None end) cs.

Definition is_started (c : call) : bool :=
  match c with
  | CallNotify _ m => is_str (js_get m "action") "generation_started"
  | _ => false
  end.

Definition is_finished (c : call) : bool :=
  match c with
  | CallNotify _ m => is_str (js_get m "action") "generation_finished"
  | _ => false
  end.

Definition is_fetch_start (c : call) : bool :=
  match c with FetchStart _ _ _ => true | _ => false end.

Definition is_settled (c : call) : bool :=
  match c with FetchResolved _ | FetchRejected _ => true | _ => false end.

Definition is_reply (c : call) : bool :=
  match c with SendResponse _ => true | _ => false end.

Definition is_unregister (tabId : option Z) (controller : ctrl) (c : call) : bool :=
  match c with
  | CallRemove t x => bool_decide (t = tabId) && bool_decide (x = controller)
  | _ => false
  end.

Definition count (p : call -> bool) (cs : list call) : nat :=
  length (List.filter p cs).

(** Every call satisfying [q] has a call satisfying [p] somewhere before
    it ([seen] tells whether a [p] call came before the list). *)
Fixpoint preceded_by (p q : call -> bool) (seen : bool) (cs : list call) : bool :=
  match cs with
  | [] => true
  | c :: rest =>
      (if q c then seen else true) && preceded_by p q (seen || p c) rest
  end.

(** ** The phases of one handler invocation *)

Inductive kind : Type := Summary | Query.

Definition handler (k : kind) : scenario -> option Z -> jsval -> M unit :=
  match k with
  | Summary => summarize_page
  | Query => query_gemini
  end.

(** The world once the flow has created and registered its controller,
    which is [allocated w]. *)
Definition in_flight (tabId : option Z) (w : world) : world :=
  final (addControllerForTab tabId (allocated w) (final (new_AbortController w))).

(** The world when the fetch promise settles. *)
Definition at_settle (sc : scenario) (tabId : option Z) (w : world) : world :=
  final (interleave (during_fetch sc) (in_flight tabId w)).

(** The controller's signal is aborted by the time the request settles:
    the cancellation token fired while the request was in flight. *)
Definition cancelled (sc : scenario) (tabId : option Z) (w : world) : bool :=
  bool_decide (allocated w ∈ abortedSignals (at_settle sc tabId w)).

(** The world after the flow has called [removeControllerForTab]. *)
Definition unregistered (tabId : option Z) (controller : ctrl) (w : world) : world :=
  final (removeControllerForTab tabId controller w).

(** The world when the body of a response has been read. *)
Definition at_body (sc : scenario) (tabId : option Z) (w : world) : world :=
  final (interleave (during_body sc)
           (unregistered tabId (allocated w) (at_settle sc tabId w))).

(** The states the shared world can be in when a message arrives: the
    script was loaded and other flows have taken turns. *)
Definition reached (before : list other_step) : world :=
  final (run_others before initial_world).

(** ** The registry invariant *)

(** No key of the Map holds an empty Set. *)
Definition no_dangling (m : gmap origin_key (list ctrl)) : Prop :=
  forall key set, m !! key = Some set -> set ≠ [].

(** [signal.aborted] flags after aborting the controllers of [set] in order. *)
Definition abort_all (set : list ctrl) (flags : list ctrl) : list ctrl :=
  fold_left (fun acc c => set_add c acc) set flags.

(** The Map after [removeControllerForTab]. *)
Definition registry_without (key : origin_key) (c : ctrl)
    (m : gmap origin_key (list ctrl)) : gmap origin_key (list ctrl) :=
  match m !! key with
  | None => m
  | Some set =>
      if (length (set_delete c set) =? 0)%nat
      then delete key (<[key := set_delete c set]> m)
      else <[key := set_delete c set]> m
  end.

(** The line [cleanupTab] writes to the console. *)
Definition cleanup_log (count : nat) (key : origin_key) : call :=
  ConsoleLog [JStr ("cleanupTab: aborted " +:+ pretty count +:+
                    " request(s) for tab/key: " +:+ key_to_string key)].

(** ** What other flows can and cannot do to a controller *)

(** Every controller the world knows of was created before: its index is
    below the allocation counter. *)
Definition well_allocated (w : world) : Prop :=
  (forall key c, c ∈ handles w key -> c < allocated w)
  /\ (forall c, c ∈ abortedSignals w -> c < allocated w).

(** Controller [c] exists and is registered under no key but, possibly,
    [key]. *)
Definition confined (key : origin_key) (c : ctrl) (w : world) : Prop :=
  c < allocated w /\ (forall k, k ≠ key -> c ∉ handles w k).

(** Controller [c] exists, is registered nowhere and is not aborted. *)
Definition released (c : ctrl) (w : world) : Prop :=
  c < allocated w /\ (forall k, c ∉ handles w k) /\ c ∉ abortedSignals w.

(** ** How a handler invocation unfolds *)

(** The two handlers have the same shape.  The definitions below name the
    pieces of a run (the objects a handler of each kind builds, the way
    its request can end, the calls it makes before and after); the lemma
    [handler_eq] proves that this is how [summarize_page] and
    [query_gemini] run. *)

(** The calls [notifyTab] makes. *)
Definition sends (tabId : option Z) (message : jsval) : list call :=
  match tabId with
  | Some id => [TabsSendMessage id message]
  | None => []
  end.

Definition notify (tabId : option Z) (message : jsval) : list call :=
  CallNotify tabId message :: sends tabId message.

Definition kind_name (k : kind) : string :=
  match k with Summary => "summary" | Query => "query" end.

Definition endpoint (k : kind) : string :=
  match k with
  | Summary => "http://localhost:3000/api/summarize"
  | Query => "http://localhost:3000/api/generate"
  end.

Definition payload_of (k : kind) (msg : jsval) : jsval :=
  match k with
  | Summary =>
      JObj [("pageContext", js_or (js_get msg "pageContext") JNull);
            ("length", js_or (js_get msg "length") (JStr "medium"))]
  | Query =>
      JObj [("prompt", js_get msg "prompt");
            ("selectedText", js_get msg "selectedText");
            ("mode", js_or (js_get msg "mode") (JStr "general"));
            ("task", js_or (js_get msg "task") JNull);
            ("targetLanguage", js_or (js_get msg "targetLanguage") JNull);
            ("pageContext", js_or (js_get msg "pageContext") JNull)]
  end.

Definition debug_log (k : kind) (msg : jsval) : call :=
  let pageContext := js_get (payload_of k msg) "pageContext" in
  match k with
  | Summary =>
      ConsoleLog [JStr "Background: summarize_page for";
                  js_or (js_get pageContext "url") (JStr "(no-url)");
                  JStr "length="; js_get (payload_of k msg) "length"]
  | Query =>
      if truthy pageContext then
        ConsoleLog [JStr "Background: forwarding pageContext for";
                    js_or (js_get pageContext "url")
                      (js_or (js_get pageContext "title") (JStr "(no url)"))]
      else ConsoleLog [JStr "Background: no pageContext provided"]
  end.

Definition abort_text (k : kind) : string :=
  match k with
  | Summary => "Request aborted"
  | Query => "Request aborted (tab closed or navigation occurred)."
  end.

Definition unreadable (k : kind) (e : js_error) : string :=
  match k with
  | Summary => "<unable to read>"
  | Query => "<failed to read body: " +:+ err_message e +:+ ">"
  end.

Definition started_event (k : kind) : jsval :=
  JObj [("action", JStr "generation_started"); ("kind", JStr (kind_name k))].

Definition failure_event (k : kind) (error : string) : jsval :=
  JObj [("action", JStr "generation_finished"); ("ok", JBool false);
        ("error", JStr error); ("kind", JStr (kind_name k))].

Definition failure_reply (error : string) : jsval :=
  JObj [("ok", JBool false); ("error", JStr error)].

Definition success_event (k : kind) (data : jsval) : jsval :=
  match k with
  | Summary =>
      JObj [("action", JStr "generation_finished"); ("ok", JBool true);
            ("text", js_get data "text"); ("data", data);
            ("kind", JStr "summary")]
  | Query =>
      JObj [("action", JStr "generation_finished"); ("ok", JBool true);
            ("data", data); ("kind", JStr "query")]
  end.

Definition success_reply (k : kind) (data : jsval) : jsval :=
  match k with
  | Summary =>
      JObj [("ok", JBool (truthy (js_get data "ok")));
            ("text", js_get data "text"); ("data", data)]
  | Query => JObj [("ok", JBool true); ("data", data)]
  end.

Definition server_error (st : Z) (body : string) : string :=
  "Server error " +:+ pretty st +:+ ": " +:+ body.

(** How the request of an invocation ended. *)
Inductive settlement : Type :=
| Rejected (e : js_error)
| NotOk (st : Z) (body : string)
| Parsed (st : Z) (data : jsval)
| BodyFailed (st : Z) (e : js_error).

(** What reading the body gives: an aborted signal rejects the read. *)
Definition body_read {A} (sc : scenario) (tabId : option Z) (w : world)
    (r : result A) : result A :=
  if bool_decide (allocated w ∈ abortedSignals (at_body sc tabId w))
  then Throw (AbortError sc) else r.

Definition settle (k : kind) (sc : scenario) (tabId : option Z) (w : world)
    : settlement :=
  if cancelled sc tabId w then Rejected (AbortError sc)
  else
    match network sc with
    | NetFails e => Rejected e
    | Responds st t j =>
        if negb (is_2xx st) then
          NotOk st match body_read sc tabId w t with
                   | Ok body => body
                   | Throw e => unreadable k e
                   end
        else
          match body_read sc tabId w j with
          | Ok data => Parsed st data
          | Throw e => BodyFailed st e
          end
    end.

(** The calls up to and including the start of the fetch. *)
Definition opening (k : kind) (tabId : option Z) (msg : jsval) (c : ctrl)
    : list call :=
  CallAdd tabId c :: notify tabId (started_event k)
  ++ [debug_log k msg; FetchStart (endpoint k) (payload_of k msg) c].

(** The calls from the settlement on. *)
Definition closing (k : kind) (tabId : option Z) (c : ctrl) (s : settlement)
    : list call :=
  match s with
  | Rejected e =>
      [FetchRejected e; CallRemove tabId c]
      ++ notify tabId (failure_event k (error_text (abort_text k) e))
      ++ [SendResponse (failure_reply (error_text (abort_text k) e))]
  | NotOk st body =>
      [FetchResolved st; CallRemove tabId c]
      ++ notify tabId (failure_event k (server_error st body))
      ++ [SendResponse (failure_reply (server_error st body))]
  | Parsed st data =>
      [FetchResolved st; CallRemove tabId c]
      ++ notify tabId (success_event k data)
      ++ [SendResponse (success_reply k data)]
  | BodyFailed st e =>
      [FetchResolved st; CallRemove tabId c; CallRemove tabId c]
      ++ notify tabId (failure_event k (error_text (abort_text k) e))
      ++ [SendResponse (failure_reply (error_text (abort_text k) e))]
  end.

(** The world the invocation leaves. *)
Definition world_after (sc : scenario) (tabId : option Z) (w : world)
    (s : settlement) : world :=
  match s with
  | Rejected _ => unregistered tabId (allocated w) (at_settle sc tabId w)
  | NotOk _ _ | Parsed _ _ => at_body sc tabId w
  | BodyFailed _ _ => unregistered tabId (allocated w) (at_body sc tabId w)
  end.

(** ** Concrete scenarios *)

(** The double-quote character, for writing JSON text. *)
Definition dq : string := String (Ascii.ascii_of_nat 34) EmptyString.

(** A scenario in which nothing else happens: every notification is
    delivered, no other flow runs, the proxy answers 200 with
    [{ok: true, text: "hello"}]. *)
Definition quiet : scenario :=
  {| surface := fun _ _ => Delivered;
     during_fetch := [];
     network :=
       Responds 200
         (Ok ("{" +:+ dq +:+ "ok" +:+ dq +:+ ":true," +:+ dq +:+ "text" +:+ dq
              +:+ ":" +:+ dq +:+ "hello" +:+ dq +:+ "}"))
         (Ok (JObj [("ok", JBool true); ("text", JStr "hello")]));
     during_body := [];
     abort_message := "signal is aborted without reason";
     now := S754_zero false |}.

(** The same scenario with another delivery behaviour at the tabs. *)
Definition with_surface (s : Z -> jsval -> delivery) (sc : scenario) : scenario :=
  {| surface := s;
     during_fetch := during_fetch sc;
     network := network sc;
     during_body := during_body sc;
     abort_message := abort_message sc;
     now := now sc |}.

(** The same scenario with other flows running during the fetch. *)
Definition with_during_fetch (steps : list other_step) (sc : scenario) : scenario :=
  {| surface := surface sc;
     during_fetch := steps;
     network := network sc;
     during_body := during_body sc;
     abort_message := abort_message sc;
     now := now sc |}.

(** The same scenario with another answer from the network. *)
Definition with_network (n : network_outcome) (sc : scenario) : scenario :=
  {| surface := surface sc;
     during_fetch := during_fetch sc;
     network := n;
     during_body := during_body sc;
     abort_message := abort_message sc;
     now := now sc |}.

(** The proxy answers 200 with a body that is not JSON. *)
Definition garbled : scenario :=
  with_network
    (Responds 200 (Ok "<html>")
       (Throw {| err_name := "SyntaxError";
                 err_message := "Unexpected token '<'" |}))
    quiet.

(** The proxy answers 500 with the body [oops]. *)
Definition failing : scenario :=
  with_network
    (Responds 500 (Ok "oops")
       (Throw {| err_name := "SyntaxError";
                 err_message := "Unexpected token 'o'" |}))
    quiet.

(** Tab 7 is torn down while the request is in flight. *)
Definition torn_down : scenario :=
  with_during_fetch [Teardown (Some 7%Z)] quiet.

(** The reply of the [abort_requests] branch. *)
Definition abort_reply (tabId : option Z) : jsval :=
  JObj [("ok", JBool true);
        ("message",
         JStr match tabId with
              | Some id => "aborted for tab " +:+ pretty id
              | None => "aborted non-tab controllers"
              end)].

(** ** More scenarios and readers *)

(** The same scenario with other flows running while the body is read. *)
Definition with_during_body (steps : list other_step) (sc : scenario) : scenario :=
  {| surface := surface sc;
     during_fetch := during_fetch sc;
     network := network sc;
     during_body := steps;
     abort_message := abort_message sc;
     now := now sc |}.

(** The key a registry call works on. *)
Definition op_key (op : registry_call) : origin_key :=
  match op with
  | Register tabId _ | Unregister tabId _ | CancelAll tabId => key_of tabId
  end.

(** The reply a handler sends for each way its request can end. *)
Definition reply_of (k : kind) (s : settlement) : jsval :=
  match s with
  | Rejected e | BodyFailed _ e => failure_reply (error_text (abort_text k) e)
  | NotOk st body => failure_reply (server_error st body)
  | Parsed _ data => success_reply k data
  end.

(** ** The content script: what it shows for a reply *)

(** The conversions of the page's JavaScript engine that the callbacks
    use: [String(v)] for a value that is not a string, and
    [JSON.stringify]. *)
Record conversions : Type := Conversions {
  string_of_other : jsval -> string;
  JSON_stringify : jsval -> jsval
}.

(** ['literal' + v] and [`${v}`]: a string converts to itself. *)
Definition to_string (cv : conversions) (v : jsval) : string :=
  match v with
  | JStr s => s
  | _ => string_of_other cv v
  end.

(** The callback of the prompt box ([createPromptBox]): the value it
    assigns to [result.innerText] for the response [resp] ([undefined]
    when messaging failed). *)
Definition prompt_box_shows (cv : conversions) (resp : jsval) : jsval :=
  if negb (truthy resp) then JStr "No response (messaging error)"
  else if negb (truthy (js_get resp "ok")) then
    JStr ("Error: " +:+
          to_string cv (js_or (js_get resp "error") (JStr "unknown error")))
  else
    js_or (js_get (js_get (js_get resp "data") "data") "text")
      (js_or (js_get (js_get resp "data") "text")
         match js_get resp "data" with
         | JStr s => JStr s
         | data => JSON_stringify cv data
         end).

(** The callback of the side chat ([openRightChatBox]): the text of the
    message it appends. *)
Definition chat_shows (cv : conversions) (resp : jsval) : jsval :=
  if negb (truthy resp) then JStr "No response (messaging error)"
  else if negb (truthy (js_get resp "ok")) then
    JStr ("Error: " +:+
          to_string cv (js_or (js_get resp "error") (JStr "unknown")))
  else
    js_or (js_get (js_get resp "data") "text")
      (js_or (js_get (js_get (js_get resp "data") "data") "text")
         (JSON_stringify cv (js_get resp "data"))).

(** The callback of the summary panel ([openSummaryPanel]): the value it
    assigns to [resArea.textContent]. *)
Definition summary_panel_shows (cv : conversions) (resp : jsval) : jsval :=
  if negb (truthy resp) then JStr "No response (messaging error)"
  else if negb (truthy (js_get resp "ok")) then
    JStr ("Error: " +:+
          to_string cv (js_or (js_get resp "error") (JStr "unknown")))
  else
    js_or (js_get resp "text")
      (js_or (js_get (js_get resp "data") "text")
         (JSON_stringify cv (js_get resp "data"))).

(** ** The content script: text utilities *)

From Stdlib Require Import Ascii.

(** JavaScript strings are kept as their UTF-8 text.  The utilities below
    only look for ASCII characters and for whole white-space or
    line-terminator characters, and UTF-8 never hides those inside
    another character, so working on the bytes is working on the
    characters. *)

(** The replacement [escapeHtml] makes for one character. *)
Definition escape_char (c : Ascii.ascii) : string :=
  if Ascii.eqb c "&"%char then "&amp;"
  else if Ascii.eqb c "<"%char then "&lt;"
  else if Ascii.eqb c ">"%char then "&gt;"
  else if Ascii.eqb c (Ascii.ascii_of_nat 34) then "&quot;"
  else if Ascii.eqb c "'"%char then "&#39;"
  else String c EmptyString.

(** [s.replace(/[...]/g, c => table[c])], where the class holds the
    ampersand, the two angle brackets and the two quote characters. *)
Fixpoint escape_all (s : string) : string :=
  match s with
  | EmptyString => EmptyString
  | String c rest => escape_char c +:+ escape_all rest
  end.

(** [escapeHtml(s)] for a string or a missing argument ([None]:
    [undefined] or [null], for which [(s || '')] is the empty string).
    Truthy values that are not strings have no [replace] and are not
    arguments of this function. *)
Definition escapeHtml (s : option string) : string :=
  match s with
  | Some text => escape_all text
  | None => EmptyString
  end.

(** The characters of a string. *)
Fixpoint chars (s : string) : list Ascii.ascii :=
  match s with
  | EmptyString => []
  | String c rest => c :: chars rest
  end.

(** [Some rest] if [s] is [p] followed by [rest], comparing characters
    with [same]. *)
Fixpoint strip_prefix (same : ascii -> ascii -> bool) (p s : string)
    : option string :=
  match p with
  | EmptyString => Some s
  | String a p' =>
      match s with
      | String b s' => if same a b then strip_prefix same p' s' else None
      | EmptyString => None
      end
  end.

(** Reading entities back, to show that escaping loses nothing. *)
Fixpoint unescape_all (fuel : nat) (s : string) : string :=
  match fuel with
  | O => s
  | S fuel =>
      match s with
      | EmptyString => EmptyString
      | String c rest =>
          match strip_prefix Ascii.eqb "&amp;" s with
          | Some r => String "&"%char (unescape_all fuel r)
          | None =>
          match strip_prefix Ascii.eqb "&lt;" s with
          | Some r => String "<"%char (unescape_all fuel r)
          | None =>
          match strip_prefix Ascii.eqb "&gt;" s with
          | Some r => String ">"%char (unescape_all fuel r)
          | None =>
          match strip_prefix Ascii.eqb "&quot;" s with
          | Some r => String (Ascii.ascii_of_nat 34) (unescape_all fuel r)
          | None =>
          match strip_prefix Ascii.eqb "&#39;" s with
          | Some r => String "'"%char (unescape_all fuel r)
          | None => String c (unescape_all fuel rest)
          end end end end end
      end
  end.

(** A newline, for writing the prompts. *)
Definition nl : string := String (Ascii.ascii_of_nat 10) EmptyString.

(** White space as [String.prototype.trim] sees it (WhiteSpace and
    LineTerminator of the language standard), by its UTF-8 bytes: U+0009
    to U+000D and U+0020; U+00A0; U+1680, U+2000 to U+200A, U+2028,
    U+2029, U+202F, U+205F, U+3000 and U+FEFF. *)
Definition is_ws1 (c : ascii) : bool :=
  let n := nat_of_ascii c in
  ((9 <=? n) && (n <=? 13) || (n =? 32))%nat.

Definition is_ws2 (c1 c2 : ascii) : bool :=
  ((nat_of_ascii c1 =? 194) && (nat_of_ascii c2 =? 160))%nat.

Definition is_ws3 (c1 c2 c3 : ascii) : bool :=
  let n1 := nat_of_ascii c1 in
  let n2 := nat_of_ascii c2 in
  let n3 := nat_of_ascii c3 in
  ((n1 =? 225) && (n2 =? 154) && (n3 =? 128)
   || (n1 =? 226) && (n2 =? 128)
      && ((128 <=? n3) && (n3 <=? 138) || (n3 =? 168) || (n3 =? 169) || (n3 =? 175))
   || (n1 =? 226) && (n2 =? 129) && (n3 =? 159)
   || (n1 =? 227) && (n2 =? 128) && (n3 =? 128)
   || (n1 =? 239) && (n2 =? 187) && (n3 =? 191))%nat.

(** The text after its first character, if that is white space; with
    [backwards] the bytes are read from the end of the string. *)
Definition ws_head (backwards : bool) (l : list ascii) : option (list ascii) :=
  match l with
  | c1 :: r1 =>
      if is_ws1 c1 then Some r1
      else
        match r1 with
        | c2 :: r2 =>
            if (if backwards then is_ws2 c2 c1 else is_ws2 c1 c2) then Some r2
            else
              match r2 with
              | c3 :: r3 =>
                  if (if backwards then is_ws3 c3 c2 c1 else is_ws3 c1 c2 c3)
                  then Some r3 else None
              | [] => None
              end
        | [] => None
        end
  | [] => None
  end.

(** Drop white space from the head of the text. *)
Fixpoint drop_ws (backwards : bool) (l : list ascii) : list ascii :=
  match l with
  | c1 :: r1 =>
      if is_ws1 c1 then drop_ws backwards r1
      else
        match r1 with
        | c2 :: r2 =>
            if (if backwards then is_ws2 c2 c1 else is_ws2 c1 c2)
            then drop_ws backwards r2
            else
              match r2 with
              | c3 :: r3 =>
                  if (if backwards then is_ws3 c3 c2 c1 else is_ws3 c1 c2 c3)
                  then drop_ws backwards r3 else l
              | [] => l
              end
        | [] => l
        end
  | [] => l
  end.

(** [s.trim()] *)
Definition trim_chars (l : list ascii) : list ascii :=
  drop_ws false (rev (drop_ws true (rev l))).

Definition js_trim (s : string) : string :=
  string_of_list_ascii (trim_chars (chars s)).

(** A line terminator (LF, CR, U+2028, U+2029) occurs in the text: the
    characters the [.] of a regular expression does not match. *)
Fixpoint has_line_terminator (l : list ascii) : bool :=
  match l with
  | [] => false
  | c1 :: r1 =>
      ((nat_of_ascii c1 =? 10) || (nat_of_ascii c1 =? 13))%nat
      || match r1 with
         | c2 :: c3 :: _ =>
             ((nat_of_ascii c1 =? 226) && (nat_of_ascii c2 =? 128)
              && ((nat_of_ascii c3 =? 168) || (nat_of_ascii c3 =? 169)))%nat
         | _ => false
         end
      || has_line_terminator r1
  end.

(** [(.+)$] matches the whole rest: it is not empty and fits one line. *)
Definition matches_to_end (rest : string) : bool :=
  negb (String.eqb rest "") && negb (has_line_terminator (chars rest)).

(** Comparing a pattern character with a text character under the [i]
    flag: the patterns here are lower-case ASCII, and only the ASCII
    capitals fold to them. *)
Definition to_lower (c : ascii) : ascii :=
  let n := nat_of_ascii c in
  if ((65 <=? n) && (n <=? 90))%nat then ascii_of_nat (n + 32) else c.

Definition same_ci (p c : ascii) : bool := Ascii.eqb p (to_lower c).

(** The capture of [/translate (?:to )?(.+)$/i] when the match starts at
    the head of [s]: the optional group is tried first, then given up. *)
Definition capture_here (s : string) : option string :=
  match strip_prefix same_ci "translate " s with
  | None => None
  | Some rest =>
      match strip_prefix same_ci "to " rest with
      | Some rest' =>
          if matches_to_end rest' then Some rest'
          else if matches_to_end rest then Some rest else None
      | None => if matches_to_end rest then Some rest else None
      end
  end.

(** [s.match(...)]: the leftmost start position that matches wins. *)
Fixpoint first_capture (s : string) : option string :=
  match capture_here s with
  | Some g => Some g
  | None =>
      match s with
      | String _ rest => first_capture rest
      | EmptyString => None
      end
  end.

(** [parseTargetLanguage(s)] for a string; [None] is [null]. *)
Definition parseTargetLanguage (s : string) : option string :=
  if String.eqb s "" then None
  else
    match first_capture s with
    | Some g => Some (js_trim g)
    | None => None
    end.

(** A value of [parseTargetLanguage] used as a condition. *)
Definition language_given (tl : option string) : bool :=
  match tl with
  | Some l => negb (String.eqb l "")
  | None => false
  end.

(** [`${tl}`] where [tl] is known to be truthy. *)
Definition language_text (tl : option string) : string :=
  match tl with
  | Some l => l
  | None => EmptyString
  end.

(** The prompt the prompt box sends for the text typed into it and the
    text selected on the page (the click handler of its send button). *)
Definition prompt_box_prompt (input selected : string) : string :=
  let txt := js_trim input in
  let tl := parseTargetLanguage txt in
  if String.eqb txt "" then
    if negb (String.eqb selected "")
    then "Explain this text:" +:+ nl +:+ nl +:+ dq +:+ selected +:+ dq
    else "Provide a short summary of the selection or page."
  else if language_given tl && negb (String.eqb selected "") then
    "Translate the following text to " +:+ language_text tl +:+ ":" +:+ nl +:+ nl
    +:+ dq +:+ selected +:+ dq
  else if language_given tl && String.eqb selected "" then
    "Translate to " +:+ language_text tl +:+ ":"
  else if negb (String.eqb selected "")
  then txt +:+ nl +:+ nl +:+ dq +:+ selected +:+ dq
  else txt.

(** The prompt the side chat sends; [None] when it sends nothing (the
    handler returns at once on blank input). *)
Definition chat_prompt (input selected : string) : option string :=
  let txt := js_trim input in
  if String.eqb txt "" then None
  else
    let tl := parseTargetLanguage txt in
    if language_given tl && negb (String.eqb selected "") then
      Some ("Translate the following text to " +:+ language_text tl +:+ ":" +:+ nl
            +:+ nl +:+ dq +:+ selected +:+ dq)
    else if language_given tl && String.eqb selected "" then
      Some ("Translate to " +:+ language_text tl +:+ ":")
    else Some txt.

(** The message both surfaces send to the background script. *)
Definition query_message (prompt selected : string) (pageContext : jsval) : jsval :=
  JObj [("action", JStr "query_gemini"); ("prompt", JStr prompt);
        ("selectedText", JStr selected); ("pageContext", pageContext)].

(** [getHeadings(limit)] over the [innerText] of the page's [h1], [h2] and
    [h3] elements in document order ([None] where it is missing); [limit]
    is a count, as the callers pass it. *)
Definition getHeadings (limit : nat) (innerTexts : list (option string))
    : list string :=
  fold_left
    (fun heads h =>
       if (length heads <? limit)%nat then
         let t := js_trim (match h with Some text => text | None => EmptyString end) in
         if negb (String.eqb t "") then heads ++ [t] else heads
       else heads)
    innerTexts [].

(** An [a[href]] element as [getTopLinks] reads it: its resolved [href]
    and its [innerText]. *)
Record anchor : Type := Anchor {
  a_href : string;
  a_innerText : option string
}.

(** An entry of the list it returns. *)
Record link : Type := Link {
  link_text : string;
  link_href : string
}.

(** The callback of [some] over the anchors left, with the [seen] set and
    the [links] collected so far; [some] stops at the first [true].
    [slice60] is [s.slice(0, 60)], which counts UTF-16 code units. *)
Fixpoint top_links_from (slice60 : string -> string) (limit : nat)
    (anchors : list anchor) (seen : list string) (links : list link)
    : list link :=
  match anchors with
  | [] => links
  | a :: rest =>
      let href := a_href a in
      if String.eqb href "" || bool_decide (href ∈ seen)
      then top_links_from slice60 limit rest seen links
      else
        let seen' := seen ++ [href] in
        let links' :=
          links ++ [Link (slice60 (js_trim (match a_innerText a with
                                            | Some text => text
                                            | None => EmptyString
                                            end))) href] in
        if (limit <=? length links')%nat then links'
        else top_links_from slice60 limit rest seen' links'
  end.

(** [getTopLinks(limit)] over the page's anchors in document order. *)
Definition getTopLinks (slice60 : string -> string) (limit : nat)
    (anchors : list anchor) : list link :=
  top_links_from slice60 limit anchors [] [].

(** ** The proxy server *)

(** The server is modelled on the requests the extension sends: a page
    context has the fields and types [getPageContext] gives it.  Console
    output is left out. *)

(** [s.length] and [s.slice(0, n)], which count UTF-16 code units. *)
Record text_ops : Type := TextOps {
  js_length : string -> N;
  js_slice : N -> string -> string
}.

Record page_context : Type := PageContext {
  pc_title : string;
  pc_url : string;
  pc_metaDescription : string;
  pc_publishedDate : string;
  pc_headings : list string;
  pc_topLinks : list link;
  pc_wordCount : N;
  pc_mainTextSnippet : string;
  pc_selectedText : string
}.

Definition MAX_SNIPPET_CHARS : N := 25000.
Definition MAX_PROMPT_CHARS : N := 40000.

(** [parts.join(sep)] *)
Fixpoint join (sep : string) (parts : list string) : string :=
  match parts with
  | [] => EmptyString
  | [p] => p
  | p :: rest => p +:+ sep +:+ join sep rest
  end.

(** [if (v) parts.push(label + v)] for a string [v]. *)
Definition labelled (label v : string) : list string :=
  if negb (String.eqb v "") then [label +:+ v] else [].

(** [buildContextBlock(pageContext)]; [None] is a missing or [null]
    context. *)
Definition buildContextBlock (ops : text_ops) (pageContext : option page_context)
    : string :=
  match pageContext with
  | None => EmptyString
  | Some pc =>
      let parts :=
        labelled "Page title: " (pc_title pc)
        ++ labelled "URL: " (pc_url pc)
        ++ labelled "Description: " (pc_metaDescription pc)
        ++ labelled "Published: " (pc_publishedDate pc)
        ++ (if negb (Nat.eqb (length (pc_headings pc)) 0)
            then ["Headings: " +:+ join " | " (firstn 6 (pc_headings pc))]
            else [])
        ++ (if negb (Nat.eqb (length (pc_topLinks pc)) 0)
            then ["Top links: "
                  +:+ join " ; "
                        (map (fun l => js_slice ops 30 (link_text l) +:+ " -> "
                                       +:+ link_href l)
                           (firstn 4 (pc_topLinks pc)))]
            else [])
        ++ ["Approx. word count: " +:+ pretty (pc_wordCount pc)] in
      let block :=
        join nl parts
        +:+ (if negb (Nat.eqb (length parts) 0) then nl +:+ nl else EmptyString) in
      let block :=
        if negb (String.eqb (pc_mainTextSnippet pc) "") then
          let snippet := pc_mainTextSnippet pc in
          let snippet :=
            if (MAX_SNIPPET_CHARS <? js_length ops snippet)%N
            then js_slice ops MAX_SNIPPET_CHARS snippet +:+ nl +:+ nl +:+ "...[truncated]"
            else snippet in
          block +:+ "Page snippet:" +:+ nl +:+ snippet +:+ nl +:+ nl
        else block in
      if negb (String.eqb (pc_selectedText pc) "") then
        block +:+ "Selected text:" +:+ nl
        +:+ js_slice ops 1000 (pc_selectedText pc) +:+ nl +:+ nl
      else block
  end.

(** The body of a request to [/api/generate]; the route reads nothing
    else from it. *)
Record generate_request : Type := GenerateRequest {
  g_prompt : option string;
  g_selectedText : option string;
  g_pageContext : option page_context
}.

(** [(prompt && String(prompt).trim()) || (selectedText ? ... : ...)] *)
Definition userRequest (req : generate_request) : string :=
  let asked :=
    match g_prompt req with
    | Some prompt => js_trim prompt
    | None => EmptyString
    end in
  if negb (String.eqb asked "") then asked
  else
    match g_selectedText req with
    | Some selectedText =>
        if negb (String.eqb selectedText "")
        then "Explain: " +:+ dq +:+ selectedText +:+ dq
        else "Please help with the page content."
    | None => "Please help with the page content."
    end.

(** The prompt [/api/generate] sends upstream. *)
Definition generate_prompt (ops : text_ops) (req : generate_request) : string :=
  let finalPrompt :=
    "You are a helpful assistant. Use the page context below to answer the user's request. Prefer information present in the context and avoid inventing facts beyond it unless the user asks you to infer."
    +:+ nl +:+ nl +:+ buildContextBlock ops (g_pageContext req) +:+ nl
    +:+ "User request: " +:+ userRequest req in
  if (MAX_PROMPT_CHARS <? js_length ops finalPrompt)%N
  then js_slice ops MAX_PROMPT_CHARS finalPrompt +:+ nl +:+ nl
       +:+ "...[final prompt truncated due to size]"
  else finalPrompt.

(** The [length] of a request to [/api/summarize]: one of the keys of
    [lengthMap], or a value for which the map has nothing (also a missing
    one, which defaults to medium). *)
Inductive summary_length : Type := Short | Medium | Long | Unlisted.

Record summarize_request : Type := SummarizeRequest {
  s_pageContext : option page_context;
  s_length : summary_length
}.

(** [lengthMap[length] || lengthMap['medium']] *)
Definition target (length : summary_length) : string :=
  match length with
  | Short => "about 50-80 words"
  | Long => "about 300-500 words"
  | Medium | Unlisted => "about 120-180 words"
  end.

(** The prompt [/api/summarize] sends upstream. *)
Definition summarize_prompt (ops : text_ops) (req : summarize_request) : string :=
  let finalPrompt :=
    "You are a helpful assistant. Produce a clear human-readable summary of the webpage described below. Keep the summary to "
    +:+ target (s_length req)
    +:+ ". Focus on key points, exact product names, prices, and any numerical details found on the page. Format the summary in plain text (no HTML). If the page contains multiple sections, include short bullet points for each major section."
    +:+ nl +:+ nl +:+ buildContextBlock ops (s_pageContext req) +:+ nl
    +:+ "Summary:" in
  if (MAX_PROMPT_CHARS <? js_length ops finalPrompt)%N
  then js_slice ops MAX_PROMPT_CHARS finalPrompt +:+ nl +:+ nl +:+ "...[truncated]"
  else finalPrompt.

(** [v?.[0]]: the first element of an array.  The first character of a
    string is a string as well; only properties it does not have are
    read from it here. *)
Definition js_first (v : jsval) : jsval :=
  match v with
  | JArr (x :: _) => x
  | JStr (String c _) => JStr (String c EmptyString)
  | _ => JUndefined
  end.

(** [data?.[field]?.[0]?.content?.parts?.[0]?.text] *)
Definition first_part_text (data : jsval) (field : string) : jsval :=
  js_get (js_first (js_get (js_get (js_first (js_get data field)) "content") "parts"))
    "text".

(** What a route did: the request it made upstream, if any (the API key
    and the prompt), and the response it sent. *)
Record route_result : Type := RouteResult {
  upstream_request : option (string * string);
  reply_status : Z;
  reply_body : jsval
}.

(** The API key the server runs with: [None] when [!GEMINI_API_KEY]
    (the variable is unset or empty). *)
Definition configured (GEMINI_API_KEY : option string) : option string :=
  match GEMINI_API_KEY with
  | Some key => if String.eqb key "" then None else Some key
  | None => None
  end.

(** [err.message || String(err)] *)
Definition message_or_string (err : js_error) : string :=
  if negb (String.eqb (err_message err) "") then err_message err
  else error_to_string err.

(** The handler of [POST /api/generate], given how the upstream API
    answers. *)
Definition api_generate (ops : text_ops) (cv : conversions)
    (GEMINI_API_KEY : option string) (upstream : network_outcome)
    (req : generate_request) : route_result :=
  let finalPrompt := generate_prompt ops req in
  match configured GEMINI_API_KEY with
  | None =>
    RouteResult None 500
      (JObj [("ok", JBool false);
             ("error", JStr "GEMINI_API_KEY not configured on server.")])
  | Some key =>
    let sent := Some (key, finalPrompt) in
    match upstream with
    | NetFails err =>
        RouteResult sent 500
          (JObj [("ok", JBool false); ("error", JStr (message_or_string err))])
    | Responds st t j =>
        if negb (is_2xx st) then
          let bodyText :=
            match t with
            | Ok body => body
            | Throw _ => "<unable to read body>"
            end in
          RouteResult sent 502
            (JObj [("ok", JBool false);
                   ("error", JStr ("Upstream Gemini API error " +:+ pretty st));
                   ("details", JStr bodyText)])
        else
          let data :=
            match j with
            | Ok data => data
            | Throw _ => JNull
            end in
          let text :=
            js_or (first_part_text data "candidates")
              (js_or (first_part_text data "output")
                 (js_or (js_get data "text")
                    (if truthy data then JSON_stringify cv data
                     else JStr EmptyString))) in
          RouteResult sent 200
            (JObj [("ok", JBool true); ("text", text); ("raw", data)])
    end
  end.

(** The handler of [POST /api/summarize]. *)
Definition api_summarize (ops : text_ops) (cv : conversions)
    (GEMINI_API_KEY : option string) (upstream : network_outcome)
    (req : summarize_request) : route_result :=
  let promptToSend := summarize_prompt ops req in
  match configured GEMINI_API_KEY with
  | None =>
    RouteResult None 500
      (JObj [("ok", JBool false); ("error", JStr "GEMINI_API_KEY not configured")])
  | Some key =>
    let sent := Some (key, promptToSend) in
    match upstream with
    | NetFails err =>
        RouteResult sent 500
          (JObj [("ok", JBool false); ("error", JStr (message_or_string err))])
    | Responds st t j =>
        if negb (is_2xx st) then
          let bodyText :=
            match t with
            | Ok body => body
            | Throw _ => "<unable to read>"
            end in
          RouteResult sent 502
            (JObj [("ok", JBool false); ("error", JStr "Upstream Gemini error");
                   ("details", JStr bodyText)])
        else
          match j with
          | Throw err =>
              RouteResult sent 500
                (JObj [("ok", JBool false);
                       ("error", JStr (message_or_string err))])
          | Ok data =>
              let text :=
                js_or (first_part_text data "candidates")
                  (js_or (first_part_text data "output")
                     (js_or (js_get data "text") (JSON_stringify cv data))) in
              RouteResult sent 200
                (JObj [("ok", JBool true); ("text", text); ("raw", data)])
          end
    end
  end.

(** What the extension's [fetch] meets when the proxy sends this
    response: the status, the body as JSON text ([serialize] is what
    [res.json] of the server writes), and the body parsed again. *)
Definition proxy_answer (serialize : jsval -> string) (r : route_result)
    : network_outcome :=
  Responds (reply_status r) (Ok (serialize (reply_body r))) (Ok (reply_body r)).

(** Text operations for texts of ASCII characters, where a code unit is a
    character. *)
Definition ascii_ops : text_ops :=
  {| js_length := fun s => N.of_nat (String.length s);
     js_slice := fun n s => substring 0 (N.to_nat n) s |}.

(** An answer of the upstream API with one candidate. *)
Definition candidate_answer (text : jsval) : jsval :=
  JObj [("candidates",
         JArr [JObj [("content", JObj [("parts", JArr [JObj [("text", text)]])])]])].

(** * Lemmas *)

Section SetLemmas.
Implicit Types (c x : ctrl) (set : list ctrl).

Lemma elem_of_set_add x c set : x ∈ set_add c set <-> x = c \/ x ∈ set.
Proof.
  unfold set_add. destruct (decide (c ∈ set)) as [Hin|Hout].
  - split; [auto | intros [-> | H]; assumption].
  - rewrite elem_of_app, list_elem_of_singleton. tauto.
Qed.

Lemma set_add_nonempty c set : set_add c set ≠ [].
Proof.
  intros E. assert (H : c ∈ set_add c set) by (apply elem_of_set_add; auto).
  rewrite E in H. inversion H.
Qed.

Lemma elem_of_set_delete x c set : x ∈ set_delete c set <-> x ≠ c /\ x ∈ set.
Proof. unfold set_delete. rewrite list_elem_of_filter. reflexivity. Qed.

Lemma set_delete_absent c set : c ∉ set -> set_delete c set = set.
Proof.
  unfold set_delete. induction set as [|y set IH]; intros Hc; [reflexivity|].
  rewrite not_elem_of_cons in Hc. destruct Hc as [Hne Hc].
  rewrite filter_cons_True by congruence. f_equal. auto.
Qed.

Lemma elem_of_abort_all x set flags :
  x ∈ abort_all set flags <-> x ∈ set \/ x ∈ flags.
Proof.
  unfold abort_all. revert flags.
  induction set as [|y set IH]; intros flags; simpl.
  - split; [auto | intros [H|H]; [inversion H | assumption]].
  - rewrite IH, elem_of_set_add, elem_of_cons. tauto.
Qed.
End SetLemmas.

(** What each helper does, as one equation. *)
Section HelperEquations.
Implicit Types (w : world) (tabId : option Z) (c : ctrl).

Lemma addControllerForTab_eq tabId c w :
  addControllerForTab tabId c w =
  Run (Ok tt)
    {| activeFetchControllers :=
         <[key_of tabId := set_add c (handles w (key_of tabId))]>
           (activeFetchControllers w);
       abortedSignals := abortedSignals w;
       allocated := allocated w |}
    [CallAdd tabId c].
Proof.
  unfold addControllerForTab, handles, bind, record, get_world; simpl.
  destruct (activeFetchControllers w !! key_of tabId); reflexivity.
Qed.

Lemma removeControllerForTab_eq tabId c w :
  removeControllerForTab tabId c w =
  Run (Ok tt)
    {| activeFetchControllers :=
         registry_without (key_of tabId) c (activeFetchControllers w);
       abortedSignals := abortedSignals w;
       allocated := allocated w |}
    [CallRemove tabId c].
Proof.
  unfold removeControllerForTab, registry_without, bind, record, get_world; simpl.
  destruct (activeFetchControllers w !! key_of tabId) as [set|];
    [|destruct w; reflexivity].
  unfold modify_registry; simpl.
  destruct (length (set_delete c set) =? 0)%nat; reflexivity.
Qed.

Lemma abort_each_eq (set : list ctrl) w :
  for_each set (fun controller =>
    try_catch (controller_abort controller) (fun _ => ret tt)) w =
  Run (Ok tt)
    {| activeFetchControllers := activeFetchControllers w;
       abortedSignals := abort_all set (abortedSignals w);
       allocated := allocated w |}
    (map Abort set).
Proof.
  revert w. induction set as [|c set IH]; intros w.
  - destruct w; reflexivity.
  - simpl. unfold bind at 1. simpl. rewrite IH. reflexivity.
Qed.

Lemma cleanupTab_eq tabId w :
  cleanupTab tabId w =
  match activeFetchControllers w !! key_of tabId with
  | None => Run (Ok tt) w [CallCleanup tabId]
  | Some set =>
      Run (Ok tt)
        {| activeFetchControllers :=
             delete (key_of tabId) (activeFetchControllers w);
           abortedSignals := abort_all set (abortedSignals w);
           allocated := allocated w |}
        (CallCleanup tabId :: map Abort set
         ++ [cleanup_log (length set) (key_of tabId)])
  end.
Proof.
  unfold cleanupTab, cleanup_log. unfold bind at 1. cbn [record].
  unfold bind at 1. cbn [get_world].
  destruct (activeFetchControllers w !! key_of tabId) as [set|]; [|reflexivity].
  unfold bind at 1. rewrite abort_each_eq. reflexivity.
Qed.
End HelperEquations.

Section InvariantLemmas.
Implicit Types (m : gmap origin_key (list ctrl)) (w : world).

Lemma no_dangling_empty : no_dangling ∅.
Proof. intros key set H. rewrite lookup_empty in H. discriminate. Qed.

Lemma no_dangling_insert m key set :
  no_dangling m -> set ≠ [] -> no_dangling (<[key := set]> m).
Proof.
  intros Hm Hset k s. rewrite lookup_insert. case_decide.
  - intros [= <-]. assumption.
  - apply Hm.
Qed.

Lemma no_dangling_delete m key : no_dangling m -> no_dangling (delete key m).
Proof.
  intros Hm k s. rewrite lookup_delete. case_decide; [discriminate | apply Hm].
Qed.

Lemma no_dangling_without m key c :
  no_dangling m -> no_dangling (registry_without key c m).
Proof.
  intros Hm. unfold registry_without.
  destruct (m !! key) as [set|]; [|assumption].
  destruct (Nat.eqb_spec (length (set_delete c set)) 0) as [E|E].
  - rewrite delete_insert_eq. apply no_dangling_delete, Hm.
  - apply no_dangling_insert; [assumption|].
    intros Hnil. rewrite Hnil in E. apply E. reflexivity.
Qed.

Lemma perform_preserves op w :
  no_dangling (activeFetchControllers w) ->
  no_dangling (activeFetchControllers (final (perform op w))).
Proof.
  intros Hw. destruct op as [tabId c|tabId c|tabId]; simpl.
  - rewrite addControllerForTab_eq. simpl.
    apply no_dangling_insert; [assumption | apply set_add_nonempty].
  - rewrite removeControllerForTab_eq. simpl.
    apply no_dangling_without, Hw.
  - rewrite cleanupTab_eq.
    destruct (activeFetchControllers w !! key_of tabId); simpl;
      [apply no_dangling_delete|]; assumption.
Qed.

Lemma perform_returns op w : outcome (perform op w) = Ok tt.
Proof.
  destruct op as [tabId c|tabId c|tabId]; simpl;
    [rewrite addControllerForTab_eq | rewrite removeControllerForTab_eq
    | rewrite cleanupTab_eq]; try reflexivity.
  destruct (activeFetchControllers w !! key_of tabId); reflexivity.
Qed.

Lemma perform_all_cons op ops w :
  final (perform_all (op :: ops) w) = final (perform_all ops (final (perform op w))).
Proof.
  unfold perform_all. simpl. unfold bind.
  pose proof (perform_returns op w) as H.
  destruct (perform op w) as [r w' cs]. simpl in *. subst r.
  destruct (for_each ops perform w'). reflexivity.
Qed.

Lemma perform_all_preserves ops w :
  no_dangling (activeFetchControllers w) ->
  no_dangling (activeFetchControllers (final (perform_all ops w))).
Proof.
  revert w. induction ops as [|op ops IH]; intros w Hw; [assumption|].
  rewrite perform_all_cons. apply IH, perform_preserves, Hw.
Qed.

Lemma registry_without_absent m key c :
  no_dangling m ->
  c ∉ default [] (m !! key) ->
  registry_without key c m = m.
Proof.
  intros Hm Hc. unfold registry_without.
  destruct (m !! key) as [set|] eqn:E; [|reflexivity]. simpl in Hc.
  rewrite (set_delete_absent _ _ Hc).
  destruct (Nat.eqb_spec (length set) 0) as [E0|E0].
  - exfalso. apply (Hm key set E). destruct set; [reflexivity | discriminate].
  - apply insert_id, E.
Qed.
End InvariantLemmas.

(** * The registry claims *)

(** C1.  Starting from the freshly loaded script, after any sequence of
    [addControllerForTab], [removeControllerForTab] and [cleanupTab]
    calls, a key is present in [activeFetchControllers] exactly when its
    set of controllers is non-empty; no key is ever bound to an empty
    set. *)
Theorem registry_key_present_iff_nonempty
    (ops : list registry_call) (key : origin_key) :
  let w := final (perform_all ops initial_world) in
  (is_Some (activeFetchControllers w !! key) <-> handles w key ≠ [])
  /\ (forall set, activeFetchControllers w !! key = Some set -> set ≠ []).
Proof.
  intros w.
  assert (Hinv : no_dangling (activeFetchControllers w))
    by (apply perform_all_preserves, no_dangling_empty).
  split; [|apply Hinv].
  unfold handles. split.
  - intros [set Hset]. rewrite Hset. simpl. apply (Hinv key set Hset).
  - destruct (activeFetchControllers w !! key) as [set|]; simpl.
    + intros _. eexists; reflexivity.
    + intros H. exfalso. apply H. reflexivity.
Qed.

(** C8.  In any state the registry can reach, [removeControllerForTab]
    called with a controller that is not registered under the key (the
    key itself may be absent) returns normally and leaves the world (the
    Map and the abort flags) exactly as it was. *)
Theorem unregister_absent_is_noop
    (ops : list registry_call) (tabId : option Z) (controller : ctrl) :
  controller ∉ handles (final (perform_all ops initial_world)) (key_of tabId) ->
  outcome (removeControllerForTab tabId controller
             (final (perform_all ops initial_world))) = Ok tt
  /\ final (removeControllerForTab tabId controller
              (final (perform_all ops initial_world)))
     = final (perform_all ops initial_world).
Proof.
  intros Hc. rewrite removeControllerForTab_eq. simpl.
  split; [reflexivity|].
  rewrite registry_without_absent; [|apply perform_all_preserves, no_dangling_empty|exact Hc].
  destruct (final (perform_all ops initial_world)); reflexivity.
Qed.

(** C8 on a concrete history: tab 7 holds controller 0, and controller 1
    is removed from tab 7. *)
Lemma unregister_absent_is_noop_witness :
  outcome (removeControllerForTab (Some 7%Z) 1
             (final (perform_all [Register (Some 7%Z) 0] initial_world))) = Ok tt
  /\ final (removeControllerForTab (Some 7%Z) 1
              (final (perform_all [Register (Some 7%Z) 0] initial_world)))
     = final (perform_all [Register (Some 7%Z) 0] initial_world).
Proof.
  apply (unregister_absent_is_noop [Register (Some 7%Z) 0] (Some 7%Z) 1).
  apply (bool_decide_unpack _). vm_compute. reflexivity.
Defined.

(** C2, as the script has it.  [cleanupTab] returns normally and returns
    no value.  It calls [abort()] on every controller registered under
    the key, in insertion order (controllers aborted before stay
    aborted), deletes the key, and writes the number of controllers to
    the console.  When the key is absent it changes nothing and logs
    nothing.  The [abort_requests] message runs [cleanupTab] and replies
    at once with [{ok: true, message}]; the message names the tab, not a
    count. *)
Theorem cleanupTab_aborts_all_and_removes
    (sc : scenario) (tabId : option Z) (w : world)
    (other_fields : list (string * jsval)) :
  let key := key_of tabId in
  let r := cleanupTab tabId w in
  let m := onMessage sc (JObj (("action", JStr "abort_requests") :: other_fields))
             tabId w in
  outcome r = Ok tt
  /\ Forall (fun c => c ∈ abortedSignals (final r)) (handles w key)
  /\ Forall (fun c => c ∈ abortedSignals (final r)) (abortedSignals w)
  /\ activeFetchControllers (final r) = delete key (activeFetchControllers w)
  /\ match activeFetchControllers w !! key with
     | Some set =>
         calls r = CallCleanup tabId :: map Abort set ++ [cleanup_log (length set) key]
     | None => final r = w /\ calls r = [CallCleanup tabId]
     end
  /\ outcome m = Ok JUndefined
  /\ final m = final r
  /\ calls m = calls r ++ [SendResponse (abort_reply tabId)].
Proof.
  intros key r m.
  assert (Hm : m = Run (Ok JUndefined) (final r)
                     (calls r ++ [SendResponse (abort_reply tabId)])).
  { subst m. unfold onMessage. simpl.
    destruct tabId as [id|]; unfold bind; fold r;
      destruct r as [o wr cs] eqn:Er;
      assert (Ho : o = Ok tt)
        by (subst r; rewrite cleanupTab_eq in Er;
            destruct (activeFetchControllers w !! _); inversion Er; reflexivity);
      subst o; reflexivity. }
  rewrite Hm. subst r. rewrite cleanupTab_eq. unfold handles. subst key.
  destruct (activeFetchControllers w !! key_of tabId) as [set|] eqn:E; simpl.
  - split; [reflexivity|].
    split; [apply Forall_forall; intros c Hc; apply elem_of_abort_all; auto|].
    split; [apply Forall_forall; intros c Hc; apply elem_of_abort_all; auto|].
    repeat split; reflexivity.
  - split; [reflexivity|].
    split; [apply Forall_nil; exact I|].
    split; [apply Forall_forall; auto|].
    split; [symmetry; apply delete_id, E|].
    repeat split; reflexivity.
Qed.

(** C2 as stated fails: with controllers 0 and 1 registered for tab 7,
    [abort_requests] cancels two requests, yet its reply is the very
    object it sends when nothing was registered; the reply has no count. *)
Lemma abort_requests_reply_carries_no_count :
  let msg := JObj [("action", JStr "abort_requests")] in
  let w2 := final (perform_all [Register (Some 7%Z) 0; Register (Some 7%Z) 1]
                     initial_world) in
  handles w2 (TabKey 7) = [0; 1]
  /\ abortedSignals (final (onMessage quiet msg (Some 7%Z) w2)) = [0; 1]
  /\ replies (calls (onMessage quiet msg (Some 7%Z) w2))
     = [JObj [("ok", JBool true); ("message", JStr "aborted for tab 7")]]
  /\ replies (calls (onMessage quiet msg (Some 7%Z) initial_world))
     = [JObj [("ok", JBool true); ("message", JStr "aborted for tab 7")]]
  /\ outcome (cleanupTab (Some 7%Z) w2) = Ok tt.
Proof. vm_compute. repeat split; reflexivity. Qed.

(** * Symbolic execution of the handlers *)

Lemma bind_eq {A B} (m : M A) (k : A -> M B) w :
  bind m k w =
  match m w with
  | Run (Ok a) w' cs =>
      match k a w' with
      | Run o w'' cs' => Run o w'' (cs ++ cs')
      end
  | Run (Throw e) w' cs => Run (Throw e) w' cs
  end.
Proof. reflexivity. Qed.

Lemma try_catch_eq {A} (body : M A) (handler : js_error -> M A) w :
  try_catch body handler w =
  match body w with
  | Run (Ok a) w' cs => Run (Ok a) w' cs
  | Run (Throw e) w' cs =>
      match handler e w' with
      | Run o w'' cs' => Run o w'' (cs ++ cs')
      end
  end.
Proof. reflexivity. Qed.

Lemma notifyTab_eq sc tabId message w :
  notifyTab sc tabId message w = Run (Ok tt) w (notify tabId message).
Proof.
  unfold notifyTab, notify, sends, bind, record. destruct tabId as [id|]; [|reflexivity].
  unfold try_catch, chrome_tabs_sendMessage, bind, record.
  destruct (surface sc id message); reflexivity.
Qed.

Lemma fetch_eq sc url payload c w :
  fetch sc url payload c w =
  if bool_decide (c ∈ abortedSignals (final (interleave (during_fetch sc) w)))
  then Run (Throw (AbortError sc)) (final (interleave (during_fetch sc) w))
         [FetchStart url payload c; FetchRejected (AbortError sc)]
  else
    match network sc with
    | Responds st t j =>
        Run (Ok {| status := st; text_result := t; json_result := j; signal := c |})
          (final (interleave (during_fetch sc) w))
          [FetchStart url payload c; FetchResolved st]
    | NetFails e =>
        Run (Throw e) (final (interleave (during_fetch sc) w))
          [FetchStart url payload c; FetchRejected e]
    end.
Proof.
  cbv [fetch bind record interleave signal_aborted get_world ret throw final].
  destruct (bool_decide _); [reflexivity|].
  destruct (network sc); reflexivity.
Qed.

Lemma read_body_eq {A} sc res (reader : Response -> result A) w :
  read_body sc res reader w =
  if bool_decide (signal res ∈ abortedSignals (final (interleave (during_body sc) w)))
  then Run (Throw (AbortError sc)) (final (interleave (during_body sc) w)) []
  else
    match reader res with
    | Ok a => Run (Ok a) (final (interleave (during_body sc) w)) []
    | Throw e => Run (Throw e) (final (interleave (during_body sc) w)) []
    end.
Proof.
  cbv [read_body bind interleave signal_aborted get_world ret throw final].
  destruct (bool_decide _); [reflexivity|].
  destruct (reader res); reflexivity.
Qed.

Lemma in_flight_eq tabId w :
  in_flight tabId w =
  {| activeFetchControllers :=
       <[key_of tabId := set_add (allocated w) (handles w (key_of tabId))]>
         (activeFetchControllers w);
     abortedSignals := abortedSignals w;
     allocated := S (allocated w) |}.
Proof. unfold in_flight. rewrite addControllerForTab_eq. reflexivity. Qed.

Lemma addControllerForTab_run tabId c w :
  addControllerForTab tabId c w =
  Run (Ok tt) (final (addControllerForTab tabId c w)) [CallAdd tabId c].
Proof. rewrite addControllerForTab_eq. reflexivity. Qed.

Lemma removeControllerForTab_run tabId c w :
  removeControllerForTab tabId c w =
  Run (Ok tt) (unregistered tabId c w) [CallRemove tabId c].
Proof. unfold unregistered. rewrite removeControllerForTab_eq. reflexivity. Qed.

Ltac mstep :=
  match goal with
  | |- context [bind (addControllerForTab ?t ?c) ?k ?w] =>
      rewrite (bind_eq (addControllerForTab t c) k w),
              (addControllerForTab_run t c w)
  | |- context [bind (removeControllerForTab ?t ?c) ?k ?w] =>
      rewrite (bind_eq (removeControllerForTab t c) k w),
              (removeControllerForTab_run t c w)
  | |- context [notifyTab ?sc ?t ?m ?w] => rewrite (notifyTab_eq sc t m w)
  | |- context [fetch ?sc ?u ?p ?c ?w] => rewrite (fetch_eq sc u p c w)
  | |- context [read_body ?sc ?r ?f ?w] => rewrite (read_body_eq sc r f w)
  end.

Ltac mred :=
  cbv beta iota delta [ret throw record get_world console_log console_warn
                       sendResponse new_AbortController res_text res_json
                       res_ok status signal text_result json_result].

Ltac mfold sc tabId w :=
  change (final (addControllerForTab tabId (allocated w) _))
    with (in_flight tabId w);
  change (final (interleave (during_fetch sc) (in_flight tabId w)))
    with (at_settle sc tabId w);
  change (bool_decide (allocated w ∈ abortedSignals (at_settle sc tabId w)))
    with (cancelled sc tabId w);
  change (final (interleave (during_body sc)
                   (unregistered tabId (allocated w) (at_settle sc tabId w))))
    with (at_body sc tabId w).

Ltac mrun sc tabId w :=
  repeat (first [mstep | rewrite bind_eq | rewrite try_catch_eq];
          mred; mfold sc tabId w).

Ltac munfold :=
  cbv beta iota zeta delta
    [opening closing notify kind_name endpoint payload_of debug_log abort_text
     unreadable started_event failure_event failure_reply success_event
     success_reply server_error].

Ltac mdone :=
  f_equal; munfold;
  repeat first [rewrite <- app_assoc | progress (cbn [app])];
  reflexivity.

Ltac handler_cases sc tabId w st t j :=
  mrun sc tabId w;
  destruct (cancelled sc tabId w);
  [ mrun sc tabId w; mdone |];
  destruct (network sc) as [st t j|?];
  [| mrun sc tabId w; mdone ];
  mrun sc tabId w;
  destruct (is_2xx st); cbv beta iota delta [negb]; mrun sc tabId w;
  (destruct (bool_decide (allocated w ∈ abortedSignals (at_body sc tabId w)));
   [ mrun sc tabId w; mdone |]);
  [ destruct j | destruct t ]; mrun sc tabId w; mdone.

Lemma handler_eq k sc tabId msg w :
  handler k sc tabId msg w =
  Run (Ok tt)
    (world_after sc tabId w (settle k sc tabId w))
    (opening k tabId msg (allocated w)
     ++ closing k tabId (allocated w) (settle k sc tabId w)).
Proof.
  unfold settle, world_after, body_read.
  destruct k; unfold handler, summarize_page, query_gemini.
  - handler_cases sc tabId w st t j.
  - mrun sc tabId w. munfold.
    match goal with
    | |- context [if truthy ?x then _ else _] => destruct (truthy x)
    end; handler_cases sc tabId w st t j.
Qed.

(** * Other flows and the controller of this flow *)

Section HandlesLemmas.
Implicit Types (w : world) (tabId : option Z) (c x : ctrl) (k : origin_key).

Lemma elem_handles_add tabId c w k x :
  x ∈ handles (final (addControllerForTab tabId c w)) k
  <-> x ∈ handles w k \/ (k = key_of tabId /\ x = c).
Proof.
  rewrite addControllerForTab_eq. unfold handles. simpl.
  rewrite lookup_insert. case_decide as Hk.
  - subst k. simpl. rewrite elem_of_set_add. tauto.
  - assert (k ≠ key_of tabId) by congruence. tauto.
Qed.

Lemma elem_handles_remove tabId c w k x :
  x ∈ handles (unregistered tabId c w) k
  <-> x ∈ handles w k /\ ~ (k = key_of tabId /\ x = c).
Proof.
  unfold unregistered. rewrite removeControllerForTab_eq.
  unfold handles, registry_without. simpl.
  destruct (decide (k = key_of tabId)) as [->|Hk].
  - destruct (activeFetchControllers w !! key_of tabId) as [set|] eqn:E.
    + destruct (Nat.eqb_spec (length (set_delete c set)) 0) as [E0|E0].
      * rewrite lookup_delete_eq. simpl.
        assert (Hnil : set_delete c set = []) by (destruct (set_delete c set); [reflexivity|discriminate]).
        pose proof (elem_of_set_delete x c set) as Hx. rewrite Hnil in Hx.
        split; [intros H; inversion H|].
        intros [Hin Hne]. apply Hx. split; [|assumption].
        intros ->. apply Hne. split; reflexivity.
      * rewrite lookup_insert_eq. simpl. rewrite elem_of_set_delete.
        split; [intros [Hne Hin]; split; [assumption | intros [_ ->]; apply Hne; reflexivity]|].
        intros [Hin Hne]. split; [|assumption].
        intros ->. apply Hne. split; reflexivity.
    + rewrite E. simpl. split; [intros H; inversion H | intros [H _]; inversion H].
  - assert (Hsame : registry_without (key_of tabId) c (activeFetchControllers w) !! k
                    = activeFetchControllers w !! k).
    { unfold registry_without.
      destruct (activeFetchControllers w !! key_of tabId) as [set|]; [|reflexivity].
      destruct (length (set_delete c set) =? 0)%nat.
      - rewrite lookup_delete_ne by congruence. rewrite lookup_insert_ne by congruence.
        reflexivity.
      - rewrite lookup_insert_ne by congruence. reflexivity. }
    unfold registry_without in Hsame. rewrite Hsame. tauto.
Qed.

Lemma elem_handles_cleanup tabId w k x :
  x ∈ handles (final (cleanupTab tabId w)) k
  <-> x ∈ handles w k /\ k ≠ key_of tabId.
Proof.
  rewrite cleanupTab_eq. unfold handles.
  destruct (activeFetchControllers w !! key_of tabId) as [set|] eqn:E; simpl.
  - rewrite lookup_delete. case_decide as Hk.
    + subst k. simpl. split; [intros H; inversion H | intros [_ H]; congruence].
    + assert (k ≠ key_of tabId) by congruence. tauto.
  - destruct (decide (k = key_of tabId)) as [->|Hk].
    + rewrite E. simpl. split; [intros H; inversion H | intros [_ H]; congruence].
    + tauto.
Qed.

Lemma elem_aborted_cleanup tabId w x :
  x ∈ abortedSignals (final (cleanupTab tabId w))
  <-> x ∈ abortedSignals w \/ x ∈ handles w (key_of tabId).
Proof.
  rewrite cleanupTab_eq. unfold handles.
  destruct (activeFetchControllers w !! key_of tabId) as [set|]; simpl.
  - rewrite elem_of_abort_all. tauto.
  - split; [auto | intros [H|H]; [assumption | inversion H]].
Qed.

Lemma allocated_cleanup tabId w : allocated (final (cleanupTab tabId w)) = allocated w.
Proof.
  rewrite cleanupTab_eq.
  destruct (activeFetchControllers w !! key_of tabId); reflexivity.
Qed.

Lemma aborted_unregistered tabId c w :
  abortedSignals (unregistered tabId c w) = abortedSignals w.
Proof. unfold unregistered. rewrite removeControllerForTab_eq. reflexivity. Qed.

Lemma allocated_unregistered tabId c w :
  allocated (unregistered tabId c w) = allocated w.
Proof. unfold unregistered. rewrite removeControllerForTab_eq. reflexivity. Qed.

Lemma elem_handles_in_flight tabId w k x :
  x ∈ handles (in_flight tabId w) k
  <-> x ∈ handles w k \/ (k = key_of tabId /\ x = allocated w).
Proof. unfold in_flight. rewrite elem_handles_add. reflexivity. Qed.

Lemma aborted_in_flight tabId w : abortedSignals (in_flight tabId w) = abortedSignals w.
Proof. rewrite in_flight_eq. reflexivity. Qed.

Lemma allocated_in_flight tabId w : allocated (in_flight tabId w) = S (allocated w).
Proof. rewrite in_flight_eq. reflexivity. Qed.
End HandlesLemmas.

Section OtherFlows.
Implicit Types (w : world) (tabId : option Z) (c x : ctrl) (k : origin_key).

Lemma run_other_eq step w :
  run_other step w =
  Run (Ok tt)
    match step with
    | OtherStarts tabId => in_flight tabId w
    | OtherSettles tabId c => unregistered tabId c w
    | Teardown tabId => final (cleanupTab tabId w)
    end
    (calls (run_other step w)).
Proof.
  destruct step as [tabId|tabId c|tabId]; simpl.
  - rewrite bind_eq. cbv beta iota delta [new_AbortController].
    unfold in_flight. cbv beta iota delta [new_AbortController final].
    rewrite addControllerForTab_eq. reflexivity.
  - unfold unregistered. rewrite removeControllerForTab_eq. reflexivity.
  - rewrite cleanupTab_eq.
    destruct (activeFetchControllers w !! key_of tabId); reflexivity.
Qed.

Lemma run_others_cons step steps w :
  final (run_others (step :: steps) w)
  = final (run_others steps (final (run_other step w))).
Proof.
  unfold run_others. simpl. rewrite bind_eq, run_other_eq. simpl.
  destruct (for_each steps run_other _). reflexivity.
Qed.

(** A property of the world that every turn of another flow preserves is
    preserved across a suspension. *)
Lemma run_others_preserves (P : world -> Prop) :
  (forall step w, P w -> P (final (run_other step w))) ->
  forall steps w, P w -> P (final (run_others steps w)).
Proof.
  intros Hstep steps. induction steps as [|step steps IH]; intros w Hw.
  - exact Hw.
  - rewrite run_others_cons. apply IH, Hstep, Hw.
Qed.

Lemma run_other_well_allocated step w :
  well_allocated w -> well_allocated (final (run_other step w)).
Proof.
  intros [Hreg Hab]. rewrite run_other_eq. simpl.
  destruct step as [tabId|tabId c|tabId]; split.
  - intros k x. rewrite elem_handles_in_flight, allocated_in_flight.
    intros [H|[_ ->]]; [apply Hreg in H|]; lia.
  - intros x. rewrite aborted_in_flight, allocated_in_flight.
    intros H. apply Hab in H. lia.
  - intros k x. rewrite elem_handles_remove, allocated_unregistered.
    intros [H _]. apply (Hreg k x H).
  - intros x. rewrite aborted_unregistered, allocated_unregistered. apply Hab.
  - intros k x. rewrite elem_handles_cleanup, allocated_cleanup.
    intros [H _]. apply (Hreg k x H).
  - intros x. rewrite elem_aborted_cleanup, allocated_cleanup.
    intros [H|H]; [apply Hab | apply (Hreg _ _ H)]; assumption.
Qed.

Lemma reached_well_allocated before : well_allocated (reached before).
Proof.
  unfold reached. apply run_others_preserves; [apply run_other_well_allocated|].
  split; [intros k x | intros x]; unfold handles; simpl.
  - rewrite lookup_empty. simpl. intros H. inversion H.
  - intros H. inversion H.
Qed.

Lemma run_other_confined key c step w :
  confined key c w -> confined key c (final (run_other step w)).
Proof.
  intros [Hlt Hout]. rewrite run_other_eq. simpl.
  destruct step as [tabId|tabId c'|tabId]; split.
  - rewrite allocated_in_flight. lia.
  - intros k Hk. rewrite elem_handles_in_flight.
    intros [H|[_ ->]]; [apply (Hout k Hk H) | lia].
  - rewrite allocated_unregistered. assumption.
  - intros k Hk. rewrite elem_handles_remove. intros [H _]. apply (Hout k Hk H).
  - rewrite allocated_cleanup. assumption.
  - intros k Hk. rewrite elem_handles_cleanup. intros [H _]. apply (Hout k Hk H).
Qed.

Lemma run_other_released c step w :
  released c w -> released c (final (run_other step w)).
Proof.
  intros (Hlt & Hout & Hab). rewrite run_other_eq. simpl.
  destruct step as [tabId|tabId c'|tabId]; repeat split.
  - rewrite allocated_in_flight. lia.
  - intros k. rewrite elem_handles_in_flight.
    intros [H|[_ ->]]; [apply (Hout k H) | lia].
  - rewrite aborted_in_flight. assumption.
  - rewrite allocated_unregistered. assumption.
  - intros k. rewrite elem_handles_remove. intros [H _]. apply (Hout k H).
  - rewrite aborted_unregistered. assumption.
  - rewrite allocated_cleanup. assumption.
  - intros k. rewrite elem_handles_cleanup. intros [H _]. apply (Hout k H).
  - rewrite elem_aborted_cleanup. intros [H|H]; [apply Hab, H | apply (Hout _ H)].
Qed.
End OtherFlows.

Section ThisFlow.
Implicit Types (w : world) (tabId : option Z) (k : kind) (sc : scenario).

Lemma interleave_final steps w :
  final (interleave steps w) = final (run_others steps w).
Proof. reflexivity. Qed.

Lemma confined_at_settle sc tabId w :
  well_allocated w ->
  confined (key_of tabId) (allocated w) (at_settle sc tabId w).
Proof.
  intros [Hreg _]. unfold at_settle. rewrite interleave_final.
  apply run_others_preserves; [apply run_other_confined|].
  split.
  - rewrite allocated_in_flight. lia.
  - intros key Hkey. rewrite elem_handles_in_flight.
    intros [H|[H _]]; [apply Hreg in H; lia | congruence].
Qed.

Lemma released_after_settle sc tabId w :
  well_allocated w ->
  cancelled sc tabId w = false ->
  released (allocated w) (unregistered tabId (allocated w) (at_settle sc tabId w)).
Proof.
  intros Hw Hc. destruct (confined_at_settle sc tabId w Hw) as [Hlt Hout].
  repeat split.
  - rewrite allocated_unregistered. assumption.
  - intros key. rewrite elem_handles_remove. intros [Hin Hne].
    destruct (decide (key = key_of tabId)) as [->|Hkey].
    + apply Hne. split; reflexivity.
    + apply (Hout key Hkey Hin).
  - rewrite aborted_unregistered. unfold cancelled in Hc.
    apply bool_decide_eq_false in Hc. exact Hc.
Qed.

Lemma released_at_body sc tabId w :
  well_allocated w ->
  cancelled sc tabId w = false ->
  released (allocated w) (at_body sc tabId w).
Proof.
  intros Hw Hc. unfold at_body. rewrite interleave_final.
  apply run_others_preserves; [apply run_other_released|].
  apply released_after_settle; assumption.
Qed.

(** Once the fetch has resolved, the flow's controller is out of the
    registry, so no other flow can abort it while the body is read. *)
Lemma body_read_uncancelled {A} sc tabId w (r : result A) :
  well_allocated w ->
  cancelled sc tabId w = false ->
  body_read sc tabId w r = r.
Proof.
  intros Hw Hc. unfold body_read.
  destruct (released_at_body sc tabId w Hw Hc) as (_ & _ & Hab).
  rewrite bool_decide_eq_false_2 by exact Hab. reflexivity.
Qed.

Lemma absent_after_unregistered tabId w' c key :
  confined (key_of tabId) c w' ->
  c ∉ handles (unregistered tabId c w') key.
Proof.
  intros [_ Hout]. rewrite elem_handles_remove. intros [Hin Hne].
  destruct (decide (key = key_of tabId)) as [->|Hkey].
  - apply Hne. split; reflexivity.
  - apply (Hout key Hkey Hin).
Qed.

Lemma absent_after_handler k sc tabId w key :
  well_allocated w ->
  allocated w ∉ handles (world_after sc tabId w (settle k sc tabId w)) key.
Proof.
  intros Hw. unfold settle.
  destruct (cancelled sc tabId w) eqn:Hc.
  { simpl. apply absent_after_unregistered, confined_at_settle, Hw. }
  destruct (released_at_body sc tabId w Hw Hc) as (Hlt & Hout & Hab).
  destruct (network sc) as [st t j|e].
  2:{ simpl. apply absent_after_unregistered, confined_at_settle, Hw. }
  rewrite !body_read_uncancelled by assumption.
  destruct (negb (is_2xx st)); simpl; [apply Hout|].
  destruct j as [data|e]; simpl; [apply Hout|].
  rewrite elem_handles_remove. intros [Hin _]. apply (Hout key Hin).
Qed.
End ThisFlow.

(** * How the token fires *)

Section Cancellation.
Implicit Types (w : world) (tabId : option Z) (c : ctrl) (sc : scenario).

Lemma key_of_inj tabId tabId' : key_of tabId = key_of tabId' -> tabId = tabId'.
Proof. destruct tabId, tabId'; simpl; congruence. Qed.

Lemma run_others_app pre post w :
  final (run_others (pre ++ post) w) = final (run_others post (final (run_others pre w))).
Proof.
  revert w. induction pre as [|step pre IH]; intros w; [reflexivity|].
  rewrite <- app_comm_cons, !run_others_cons. apply IH.
Qed.

Lemma run_other_keeps_aborted c step w :
  c ∈ abortedSignals w -> c ∈ abortedSignals (final (run_other step w)).
Proof.
  intros H. rewrite run_other_eq. simpl. destruct step as [t|t c'|t].
  - rewrite aborted_in_flight. assumption.
  - rewrite aborted_unregistered. assumption.
  - rewrite elem_aborted_cleanup. auto.
Qed.

(** A registered controller stays registered or becomes aborted, as long
    as nobody unregisters it. *)
Lemma run_other_registered_or_aborted tabId c step w :
  step ≠ OtherSettles tabId c ->
  c ∈ handles w (key_of tabId) \/ c ∈ abortedSignals w ->
  c ∈ handles (final (run_other step w)) (key_of tabId)
  \/ c ∈ abortedSignals (final (run_other step w)).
Proof.
  intros Hstep [Hin|Hab]; [|right; apply run_other_keeps_aborted, Hab].
  rewrite run_other_eq. simpl. destruct step as [t|t c'|t].
  - left. rewrite elem_handles_in_flight. auto.
  - left. rewrite elem_handles_remove. split; [assumption|].
    intros [Hk ->]. apply key_of_inj in Hk. subst t. apply Hstep. reflexivity.
  - destruct (decide (key_of tabId = key_of t)) as [Hk|Hk].
    + right. rewrite elem_aborted_cleanup. right. rewrite <- Hk. assumption.
    + left. rewrite elem_handles_cleanup. auto.
Qed.

Lemma run_others_registered_or_aborted tabId c steps w :
  Forall (fun step => step ≠ OtherSettles tabId c) steps ->
  c ∈ handles w (key_of tabId) \/ c ∈ abortedSignals w ->
  c ∈ handles (final (run_others steps w)) (key_of tabId)
  \/ c ∈ abortedSignals (final (run_others steps w)).
Proof.
  intros Hsteps. revert w. induction Hsteps as [|step steps Hstep _ IH]; intros w H.
  - exact H.
  - rewrite run_others_cons. apply IH.
    apply run_other_registered_or_aborted; assumption.
Qed.

(** Tearing the sender's tab down (tab closed, [CLOSE_EXTENSION] or
    [abort_requests]) while the request is in flight fires the token. *)
Lemma teardown_in_flight_cancels sc tabId w pre post :
  during_fetch sc = pre ++ Teardown tabId :: post ->
  Forall (fun step => step ≠ OtherSettles tabId (allocated w)) pre ->
  cancelled sc tabId w = true.
Proof.
  intros Hsteps Hpre. unfold cancelled, at_settle.
  rewrite interleave_final, Hsteps, run_others_app, run_others_cons.
  apply bool_decide_eq_true_2.
  apply (run_others_preserves (fun w' => allocated w ∈ abortedSignals w'));
    [intros step w'; apply run_other_keeps_aborted|].
  rewrite (run_other_eq (Teardown tabId)). simpl.
  rewrite elem_aborted_cleanup.
  destruct (run_others_registered_or_aborted tabId (allocated w) pre
              (in_flight tabId w) Hpre) as [H|H]; auto.
  left. rewrite elem_handles_in_flight. auto.
Qed.
End Cancellation.

(** * The handler claims *)

Lemma debug_log_is_log k msg : exists args, debug_log k msg = ConsoleLog args.
Proof.
  destruct k; unfold debug_log; [eexists; reflexivity|].
  destruct (truthy _); eexists; reflexivity.
Qed.

Lemma is_abort_AbortError sc : is_abort (AbortError sc) = true.
Proof. reflexivity. Qed.

(** C9.  [notifyTab] never throws and never changes the world, whatever
    [chrome.tabs.sendMessage] meets at the tab (delivery, a missing
    receiver reported through [lastError], or a synchronous exception);
    it makes one send attempt for a sender with a tab and none for a
    sender without, and writes nothing to the console.  A handler never
    throws, and its run (the world it leaves, its calls, its reply to the
    caller) is the same under any delivery behaviour. *)
Theorem notifier_swallows_delivery_failures
    (sc : scenario) (tabId : option Z) (message : jsval) (w : world)
    (k : kind) (msg : jsval) (surface' : Z -> jsval -> delivery) :
  outcome (notifyTab sc tabId message w) = Ok tt
  /\ final (notifyTab sc tabId message w) = w
  /\ calls (notifyTab sc tabId message w)
     = CallNotify tabId message
       :: match tabId with
          | Some id => [TabsSendMessage id message]
          | None => []
          end
  /\ outcome (handler k sc tabId msg w) = Ok tt
  /\ handler k (with_surface surface' sc) tabId msg w = handler k sc tabId msg w
  /\ replies (calls (handler k (with_surface surface' sc) tabId msg w))
     = replies (calls (handler k sc tabId msg w)).
Proof.
  rewrite !notifyTab_eq, !handler_eq. repeat split; reflexivity.
Qed.

(** C4.  When the controller's signal is aborted before the fetch
    settles, the fetch promise rejects with an AbortError, and the
    handler replies, and notifies the tab, with the fixed
    "Request aborted" text of its kind and not with the error's message.
    The handler tells a cancellation from a transport failure by the
    [name] of the error it caught and by nothing else: when the request
    was not cancelled and the fetch rejects with an error [e], the reply
    and the notification carry the fixed text if [e] is named
    AbortError, whatever its message, and otherwise the message of [e]
    (or [String(e)] when it has none), even if that message is the very
    text of a cancellation. *)
Theorem cancelled_request_is_reported_as_aborted
    (k : kind) (sc : scenario) (tabId : option Z) (msg : jsval) (w : world) :
  cancelled sc tabId w = true ->
  replies (calls (handler k sc tabId msg w))
  = [JObj [("ok", JBool false); ("error", JStr (abort_text k))]]
  /\ List.filter is_settled (calls (handler k sc tabId msg w))
     = [FetchRejected {| err_name := "AbortError";
                         err_message := abort_message sc |}]
  /\ List.filter is_finished (calls (handler k sc tabId msg w))
     = [CallNotify tabId
          (JObj [("action", JStr "generation_finished"); ("ok", JBool false);
                 ("error", JStr (abort_text k)); ("kind", JStr (kind_name k))])]
  /\ (forall (sc' : scenario) (e : js_error),
        cancelled sc' tabId w = false ->
        network sc' = NetFails e ->
        let reported :=
          if String.eqb (err_name e) "AbortError" then abort_text k
          else if String.eqb (err_message e) "" then error_to_string e
          else err_message e in
        replies (calls (handler k sc' tabId msg w))
        = [JObj [("ok", JBool false); ("error", JStr reported)]]
        /\ List.filter is_settled (calls (handler k sc' tabId msg w))
           = [FetchRejected e]
        /\ List.filter is_finished (calls (handler k sc' tabId msg w))
           = [CallNotify tabId
                (JObj [("action", JStr "generation_finished"); ("ok", JBool false);
                       ("error", JStr reported); ("kind", JStr (kind_name k))])]).
Proof.
  intros Hc. split; [|split; [|split]].
  4:{ intros sc' e Hc' Hnet reported. subst reported.
      rewrite handler_eq. unfold settle. rewrite Hc', Hnet.
      unfold opening, closing, notify.
      destruct (debug_log_is_log k msg) as [args ->].
      unfold error_text, is_abort.
      destruct (String.eqb (err_name e) "AbortError");
        destruct (String.eqb (err_message e) ""); cbn [negb];
        repeat split; destruct k, tabId; reflexivity. }
  all: rewrite handler_eq; unfold settle; rewrite Hc;
    unfold opening, closing, notify;
    destruct (debug_log_is_log k msg) as [args ->];
    unfold error_text; rewrite is_abort_AbortError;
    destruct k, tabId; reflexivity.
Qed.

(** C4 on concrete runs: tab 7 is torn down while its summary request is
    in flight; and, with no teardown, the connection fails with an error
    that is not named AbortError although its message speaks of an
    abort. *)
Lemma cancelled_request_is_reported_as_aborted_witness :
  cancelled torn_down (Some 7%Z) initial_world = true
  /\ replies (calls (handler Summary torn_down (Some 7%Z) (JObj []) initial_world))
     = [JObj [("ok", JBool false); ("error", JStr "Request aborted")]]
  /\ replies
       (calls (handler Summary
                 (with_network
                    (NetFails {| err_name := "TypeError";
                                 err_message := "The user aborted a request." |})
                    quiet)
                 (Some 7%Z) (JObj []) initial_world))
     = [JObj [("ok", JBool false); ("error", JStr "The user aborted a request.")]].
Proof.
  split; [vm_compute; reflexivity|].
  destruct (cancelled_request_is_reported_as_aborted
              Summary torn_down (Some 7%Z) (JObj []) initial_world)
    as (Hr & _ & _ & Hother); [vm_compute; reflexivity|].
  split; [exact Hr|].
  destruct (Hother
              (with_network
                 (NetFails {| err_name := "TypeError";
                              err_message := "The user aborted a request." |})
                 quiet)
              {| err_name := "TypeError";
                 err_message := "The user aborted a request." |})
    as (Hr' & _); [vm_compute; reflexivity | reflexivity | exact Hr'].
Defined.

(** C6.  When the fetch resolves with a status outside 200-299, the
    handler replies [{ok: false, error}] where [error] is
    "Server error <status>: <body>", with the body as [res.text()] gave
    it, or the placeholder of the handler's kind when the body cannot be
    read; the tab is notified with the same error.  The request is made
    once (no retry), the handler does not throw, and its controller is
    registered nowhere afterwards. *)
Theorem non_2xx_response_is_reported_with_status_and_body
    (k : kind) (before : list other_step) (sc : scenario) (tabId : option Z)
    (msg : jsval) (st : Z) (t : result string) (j : result jsval) :
  network sc = Responds st t j ->
  is_2xx st = false ->
  cancelled sc tabId (reached before) = false ->
  replies (calls (handler k sc tabId msg (reached before)))
  = [JObj [("ok", JBool false);
           ("error",
            JStr ("Server error " +:+ pretty st +:+ ": " +:+
                  match t with
                  | Ok body => body
                  | Throw e =>
                      match k with
                      | Summary => "<unable to read>"
                      | Query => "<failed to read body: " +:+ err_message e +:+ ">"
                      end
                  end))]]
  /\ map snd (notified (calls (handler k sc tabId msg (reached before))))
     = [JObj [("action", JStr "generation_started"); ("kind", JStr (kind_name k))];
        JObj [("action", JStr "generation_finished"); ("ok", JBool false);
              ("error",
               JStr ("Server error " +:+ pretty st +:+ ": " +:+
                     match t with
                     | Ok body => body
                     | Throw e =>
                         match k with
                         | Summary => "<unable to read>"
                         | Query => "<failed to read body: " +:+ err_message e +:+ ">"
                         end
                     end));
              ("kind", JStr (kind_name k))]]
  /\ count is_fetch_start (calls (handler k sc tabId msg (reached before))) = 1
  /\ outcome (handler k sc tabId msg (reached before)) = Ok tt
  /\ (forall key,
        allocated (reached before)
        ∉ handles (final (handler k sc tabId msg (reached before))) key).
Proof.
  intros Hnet Hst Hc.
  pose proof (reached_well_allocated before) as Hw.
  rewrite handler_eq.
  split; [|split; [|split; [|split; [reflexivity|]]]];
    [| | |intros key; apply absent_after_handler, Hw].
  all: unfold settle; rewrite Hc, Hnet, Hst; simpl negb; cbv iota;
    rewrite body_read_uncancelled by assumption;
    unfold opening, closing, notify, server_error, unreadable;
    destruct (debug_log_is_log k msg) as [args ->];
    destruct k, tabId, t; reflexivity.
Qed.

(** C6 on the mocked proxy that answers 500 with body [oops]. *)
Lemma non_2xx_response_is_reported_with_status_and_body_witness :
  network failing
  = Responds 500 (Ok "oops")
      (Throw {| err_name := "SyntaxError"; err_message := "Unexpected token 'o'" |})
  /\ is_2xx 500 = false
  /\ cancelled failing (Some 7%Z) (reached []) = false
  /\ replies (calls (handler Query failing (Some 7%Z) (JObj []) (reached [])))
     = [JObj [("ok", JBool false); ("error", JStr "Server error 500: oops")]].
Proof.
  split; [reflexivity|]. split; [reflexivity|]. split; [vm_compute; reflexivity|].
  apply (non_2xx_response_is_reported_with_status_and_body
           Query [] failing (Some 7%Z) (JObj []) 500 (Ok "oops")
           (Throw {| err_name := "SyntaxError";
                     err_message := "Unexpected token 'o'" |}));
    vm_compute; reflexivity.
Defined.

(** C7.  When the fetch resolves with status 200 and the body parses to
    [{ok: true, text: "hello"}], the reply to the caller is a success
    carrying the text "hello" ([text] in a summary reply, [data.text] in
    a query reply), and [notifyTab] is called exactly twice for the
    sender's tab id, with [generation_started] and then the successful
    [generation_finished]; for a sender with a tab exactly these two
    messages are sent to that tab, for a sender without a tab nothing is
    sent. *)
Theorem ok_response_yields_success_and_two_notifications
    (k : kind) (before : list other_step) (sc : scenario) (tabId : option Z)
    (msg : jsval) (t : result string) :
  network sc
  = Responds 200 t (Ok (JObj [("ok", JBool true); ("text", JStr "hello")])) ->
  cancelled sc tabId (reached before) = false ->
  let data := JObj [("ok", JBool true); ("text", JStr "hello")] in
  let started :=
    JObj [("action", JStr "generation_started"); ("kind", JStr (kind_name k))] in
  let finished :=
    match k with
    | Summary =>
        JObj [("action", JStr "generation_finished"); ("ok", JBool true);
              ("text", JStr "hello"); ("data", data); ("kind", JStr "summary")]
    | Query =>
        JObj [("action", JStr "generation_finished"); ("ok", JBool true);
              ("data", data); ("kind", JStr "query")]
    end in
  replies (calls (handler k sc tabId msg (reached before)))
  = [match k with
     | Summary => JObj [("ok", JBool true); ("text", JStr "hello"); ("data", data)]
     | Query => JObj [("ok", JBool true); ("data", data)]
     end]
  /\ notified (calls (handler k sc tabId msg (reached before)))
     = [(tabId, started); (tabId, finished)]
  /\ sent (calls (handler k sc tabId msg (reached before)))
     = match tabId with
       | Some id => [(id, started); (id, finished)]
       | None => []
       end.
Proof.
  intros Hnet Hc data started finished.
  pose proof (reached_well_allocated before) as Hw.
  rewrite handler_eq. unfold settle. rewrite Hc, Hnet.
  change (is_2xx 200) with true. simpl negb. cbv iota.
  rewrite body_read_uncancelled by assumption.
  unfold opening, closing, notify.
  destruct (debug_log_is_log k msg) as [args ->].
  repeat split; destruct k, tabId; reflexivity.
Qed.

(** C7 on a concrete run: a summary requested from tab 7 in the quiet
    scenario. *)
Lemma ok_response_yields_success_and_two_notifications_witness :
  network quiet
  = Responds 200
      (Ok ("{" +:+ dq +:+ "ok" +:+ dq +:+ ":true," +:+ dq +:+ "text" +:+ dq
           +:+ ":" +:+ dq +:+ "hello" +:+ dq +:+ "}"))
      (Ok (JObj [("ok", JBool true); ("text", JStr "hello")]))
  /\ cancelled quiet (Some 7%Z) (reached []) = false
  /\ replies (calls (handler Summary quiet (Some 7%Z) (JObj []) (reached [])))
     = [JObj [("ok", JBool true); ("text", JStr "hello");
              ("data", JObj [("ok", JBool true); ("text", JStr "hello")])]]
  /\ length (notified
               (calls (handler Summary quiet (Some 7%Z) (JObj []) (reached []))))
     = 2.
Proof.
  split; [reflexivity|]. split; [vm_compute; reflexivity|].
  split; [|vm_compute; reflexivity].
  apply (ok_response_yields_success_and_two_notifications
           Summary [] quiet (Some 7%Z) (JObj [])
           (Ok ("{" +:+ dq +:+ "ok" +:+ dq +:+ ":true," +:+ dq +:+ "text" +:+ dq
                +:+ ":" +:+ dq +:+ "hello" +:+ dq +:+ "}")));
    vm_compute; reflexivity.
Defined.

(** C10.  When the fetch resolves with a 2xx status and the body parses,
    [query_gemini] replies with [ok: true] whatever the body says, while
    [summarize_page] replies with [ok] set to the truthiness of the
    body's own [ok] field. *)
Theorem reply_ok_field_of_each_handler
    (before : list other_step) (sc : scenario) (tabId : option Z)
    (msg : jsval) (st : Z) (t : result string) (data : jsval) :
  network sc = Responds st t (Ok data) ->
  is_2xx st = true ->
  cancelled sc tabId (reached before) = false ->
  replies (calls (query_gemini sc tabId msg (reached before)))
  = [JObj [("ok", JBool true); ("data", data)]]
  /\ replies (calls (summarize_page sc tabId msg (reached before)))
     = [JObj [("ok", JBool (truthy (js_get data "ok")));
              ("text", js_get data "text"); ("data", data)]].
Proof.
  intros Hnet Hst Hc.
  pose proof (reached_well_allocated before) as Hw.
  change (query_gemini sc tabId msg) with (handler Query sc tabId msg).
  change (summarize_page sc tabId msg) with (handler Summary sc tabId msg).
  rewrite !handler_eq. unfold settle. rewrite Hc, Hnet, Hst. simpl negb. cbv iota.
  rewrite !body_read_uncancelled by assumption.
  unfold opening, closing, notify.
  destruct (debug_log_is_log Query msg) as [args ->].
  destruct (debug_log_is_log Summary msg) as [args' ->].
  split; destruct tabId; reflexivity.
Qed.

(** C10 on a body whose [ok] field is false. *)
Lemma reply_ok_field_of_each_handler_witness :
  network (with_network
             (Responds 200 (Ok "") (Ok (JObj [("ok", JBool false)]))) quiet)
  = Responds 200 (Ok "") (Ok (JObj [("ok", JBool false)]))
  /\ is_2xx 200 = true
  /\ cancelled (with_network
                  (Responds 200 (Ok "") (Ok (JObj [("ok", JBool false)]))) quiet)
       None (reached []) = false
  /\ replies (calls (query_gemini
                       (with_network
                          (Responds 200 (Ok "") (Ok (JObj [("ok", JBool false)])))
                          quiet)
                       None (JObj []) (reached [])))
     = [JObj [("ok", JBool true); ("data", JObj [("ok", JBool false)])]]
  /\ replies (calls (summarize_page
                       (with_network
                          (Responds 200 (Ok "") (Ok (JObj [("ok", JBool false)])))
                          quiet)
                       None (JObj []) (reached [])))
     = [JObj [("ok", JBool false); ("text", JUndefined);
              ("data", JObj [("ok", JBool false)])]].
Proof.
  split; [reflexivity|]. split; [reflexivity|]. split; [vm_compute; reflexivity|].
  apply (reply_ok_field_of_each_handler
           [] (with_network
                 (Responds 200 (Ok "") (Ok (JObj [("ok", JBool false)]))) quiet)
           None (JObj []) 200 (Ok "") (JObj [("ok", JBool false)]));
    vm_compute; reflexivity.
Defined.

Section Counting.
Implicit Types (w : world) (tabId : option Z) (k : kind) (sc : scenario).

Lemma count_app p (xs ys : list call) : count p (xs ++ ys) = count p xs + count p ys.
Proof. unfold count. rewrite List.filter_app, length_app. reflexivity. Qed.

Lemma is_unregister_same tabId c : is_unregister tabId c (CallRemove tabId c) = true.
Proof. unfold is_unregister. rewrite !bool_decide_eq_true_2 by reflexivity. reflexivity. Qed.

Lemma count_unregister_opening k tabId msg c :
  count (is_unregister tabId c) (opening k tabId msg c) = 0.
Proof.
  unfold opening, notify. destruct (debug_log_is_log k msg) as [args ->].
  destruct tabId; reflexivity.
Qed.

Lemma count_unregister_closing k tabId c s :
  count (is_unregister tabId c) (closing k tabId c s)
  = match s with BodyFailed _ _ => 2 | _ => 1 end.
Proof.
  pose proof (is_unregister_same tabId c) as H.
  destruct s; unfold closing, notify, count;
    cbn [app List.filter]; rewrite ?H; cbn [List.filter];
    destruct tabId; reflexivity.
Qed.

Lemma run_other_no_dangling step w :
  no_dangling (activeFetchControllers w) ->
  no_dangling (activeFetchControllers (final (run_other step w))).
Proof.
  intros Hw. rewrite run_other_eq. simpl.
  destruct step as [tabId|tabId c|tabId].
  - apply (perform_preserves (Register tabId (allocated w))
             (final (new_AbortController w))), Hw.
  - apply (perform_preserves (Unregister tabId c) w), Hw.
  - apply (perform_preserves (CancelAll tabId) w), Hw.
Qed.

Lemma no_dangling_at_body sc tabId w :
  no_dangling (activeFetchControllers w) ->
  no_dangling (activeFetchControllers (at_body sc tabId w)).
Proof.
  intros Hw. unfold at_body, at_settle. rewrite !interleave_final.
  apply (run_others_preserves (fun w => no_dangling (activeFetchControllers w)));
    [apply run_other_no_dangling|].
  apply (perform_preserves (Unregister tabId (allocated w))).
  apply (run_others_preserves (fun w => no_dangling (activeFetchControllers w)));
    [apply run_other_no_dangling|].
  apply (perform_preserves (Register tabId (allocated w))
           (final (new_AbortController w))), Hw.
Qed.

Lemma reached_no_dangling before :
  no_dangling (activeFetchControllers (reached before)).
Proof.
  unfold reached.
  apply (run_others_preserves (fun w => no_dangling (activeFetchControllers w)));
    [apply run_other_no_dangling | apply no_dangling_empty].
Qed.

Lemma unregistered_absent tabId c w :
  no_dangling (activeFetchControllers w) ->
  c ∉ handles w (key_of tabId) ->
  unregistered tabId c w = w.
Proof.
  intros Hw Hc. unfold unregistered. rewrite removeControllerForTab_eq. simpl.
  rewrite registry_without_absent by assumption. destruct w; reflexivity.
Qed.
End Counting.

(** C3, as the script has it.  Whatever the outcome, the handler returns
    normally and calls [removeControllerForTab] with its own controller
    once; it calls it a second time exactly when the fetch resolved with
    a 2xx status and reading the body as JSON then failed (the call after
    the fetch and the call in the catch block both run), and that second
    call leaves the world as it was.  After the handler has finished its
    controller is registered under no key. *)
Theorem unregister_once_or_twice_and_controller_gone
    (k : kind) (before : list other_step) (sc : scenario) (tabId : option Z)
    (msg : jsval) :
  let w := reached before in
  let r := handler k sc tabId msg w in
  let n := count (is_unregister tabId (allocated w)) (calls r) in
  outcome r = Ok tt
  /\ (n = 1 \/ n = 2)
  /\ match network sc with
     | Responds st _ (Throw _) =>
         if negb (cancelled sc tabId w) && is_2xx st
         then n = 2 /\ final r = at_body sc tabId w
         else n = 1
     | _ => n = 1
     end
  /\ (forall key, allocated w ∉ handles (final r) key).
Proof.
  intros w r n.
  pose proof (reached_well_allocated before) as Hw. fold w in Hw.
  assert (Hn : n = match settle k sc tabId w with BodyFailed _ _ => 2 | _ => 1 end).
  { subst n r. rewrite handler_eq. cbn [calls].
    rewrite count_app, count_unregister_opening, count_unregister_closing.
    reflexivity. }
  assert (Hr : r = Run (Ok tt) (world_after sc tabId w (settle k sc tabId w))
                     (calls r))
    by (subst r; rewrite handler_eq; reflexivity).
  split; [rewrite Hr; reflexivity|].
  split; [rewrite Hn; destruct (settle k sc tabId w); auto|].
  split; [|intros key; rewrite Hr; apply absent_after_handler, Hw].
  rewrite Hn, Hr. cbn [final]. unfold settle.
  destruct (cancelled sc tabId w) eqn:Hc.
  { destruct (network sc) as [st t [data|e]|e]; reflexivity. }
  destruct (network sc) as [st t j|e]; [|reflexivity].
  rewrite !body_read_uncancelled by assumption.
  destruct (is_2xx st); simpl.
  - destruct j as [data|e]; [reflexivity|]. split; [reflexivity|].
    apply unregistered_absent.
    + apply no_dangling_at_body, reached_no_dangling.
    + apply (released_at_body sc tabId w Hw Hc).
  - destruct j; reflexivity.
Qed.

(** C3 as stated fails: the proxy answers 200 with a body that is not
    JSON; [query_gemini] calls [removeControllerForTab] with its
    controller twice. *)
Lemma unparseable_body_unregisters_twice :
  count (is_unregister None 0)
    (calls (query_gemini garbled None (JObj []) initial_world)) = 2
  /\ List.filter is_settled
       (calls (query_gemini garbled None (JObj []) initial_world))
     = [FetchResolved 200]
  /\ replies (calls (query_gemini garbled None (JObj []) initial_world))
     = [JObj [("ok", JBool false); ("error", JStr "Unexpected token '<'")]].
Proof. vm_compute. repeat split; reflexivity. Qed.

(** C5, as the script has it.  In every run of a handler the start
    notification comes before the fetch is started, the fetch settles
    after it was started, the finish notification and the reply come
    after the settlement, and the controller is unregistered before the
    finish notification.  The start notification, the fetch, its
    settlement, the finish notification and the reply each occur exactly
    once; [removeControllerForTab] is called once or twice. *)
Theorem lifecycle_calls_are_ordered
    (k : kind) (sc : scenario) (tabId : option Z) (msg : jsval) (w : world) :
  let cs := calls (handler k sc tabId msg w) in
  let unregister := is_unregister tabId (allocated w) in
  preceded_by is_started is_fetch_start false cs = true
  /\ preceded_by is_fetch_start is_settled false cs = true
  /\ preceded_by is_settled is_finished false cs = true
  /\ preceded_by is_settled is_reply false cs = true
  /\ preceded_by unregister is_finished false cs = true
  /\ count is_started cs = 1
  /\ count is_fetch_start cs = 1
  /\ count is_settled cs = 1
  /\ count is_finished cs = 1
  /\ count is_reply cs = 1
  /\ (count unregister cs = 1 \/ count unregister cs = 2).
Proof.
  intros cs unregister. subst cs unregister. rewrite handler_eq. cbn [calls].
  pose proof (is_unregister_same tabId (allocated w)) as H.
  unfold opening, notify. destruct (debug_log_is_log k msg) as [args ->].
  destruct (settle k sc tabId w); unfold closing, notify, count;
    destruct k, tabId;
    cbn [app preceded_by List.filter length is_started is_finished
         is_fetch_start is_settled is_reply sends started_event failure_event
         success_event kind_name js_get lookup_field is_str String.eqb
         Ascii.eqb Bool.eqb andb orb];
    rewrite ?H;
    cbn [app preceded_by List.filter length andb orb];
    repeat split; auto.
Qed.

(** C5 as stated fails: the proxy answers tab 7 with 200 and a body that
    is not JSON; [summarize_page] notifies the finish once but calls
    [removeControllerForTab] with its controller twice. *)
Lemma unparseable_body_unregisters_twice_notifies_once :
  count (is_unregister (Some 7%Z) 0)
    (calls (summarize_page garbled (Some 7%Z) (JObj []) initial_world)) = 2
  /\ count is_finished
       (calls (summarize_page garbled (Some 7%Z) (JObj []) initial_world)) = 1.
Proof. vm_compute. split; reflexivity. Qed.

(** * Further properties of the registry *)

Section RegistryMore.
Implicit Types (w : world) (tabId : option Z) (c x : ctrl) (k : origin_key).

Lemma world_eta w :
  {| activeFetchControllers := activeFetchControllers w;
     abortedSignals := abortedSignals w;
     allocated := allocated w |} = w.
Proof. destruct w; reflexivity. Qed.

Lemma set_delete_added c set : c ∉ set -> set_delete c (set_add c set) = set.
Proof.
  intros Hc. unfold set_add. rewrite decide_False by exact Hc.
  unfold set_delete. rewrite filter_app, filter_cons_False, filter_nil, app_nil_r
    by (intros H; apply H; reflexivity).
  apply set_delete_absent, Hc.
Qed.

Lemma registry_without_added key c (m : gmap origin_key (list ctrl)) :
  no_dangling m ->
  c ∉ default [] (m !! key) ->
  registry_without key c (<[key := set_add c (default [] (m !! key))]> m) = m.
Proof.
  intros Hm Hc. unfold registry_without. rewrite lookup_insert_eq.
  rewrite set_delete_added by exact Hc.
  destruct (m !! key) as [set|] eqn:E; simpl.
  - destruct (Nat.eqb_spec (length set) 0) as [E0|E0].
    + exfalso. apply (Hm key set E). destruct set; [reflexivity|discriminate].
    + rewrite insert_insert_eq. apply insert_id, E.
  - rewrite insert_insert_eq, delete_insert_eq. apply delete_id, E.
Qed.
End RegistryMore.

(** X1.  Round trip.  In any state the registry can reach, registering a
    controller that is not yet in the key's set and unregistering it again
    gives back the very same world: the set in its old order, or no entry
    at all if there was none. *)
Theorem register_then_unregister_restores
    (ops : list registry_call) (tabId : option Z) (controller : ctrl) :
  controller ∉ handles (final (perform_all ops initial_world)) (key_of tabId) ->
  final (removeControllerForTab tabId controller
           (final (addControllerForTab tabId controller
                     (final (perform_all ops initial_world)))))
  = final (perform_all ops initial_world).
Proof.
  intros Hc. rewrite addControllerForTab_eq, removeControllerForTab_eq. simpl.
  unfold handles in *.
  rewrite registry_without_added;
    [apply world_eta | apply perform_all_preserves, no_dangling_empty | exact Hc].
Qed.

Lemma register_then_unregister_restores_witness :
  final (removeControllerForTab (Some 7%Z) 1
           (final (addControllerForTab (Some 7%Z) 1
                     (final (perform_all [Register (Some 7%Z) 0] initial_world)))))
  = final (perform_all [Register (Some 7%Z) 0] initial_world).
Proof.
  apply (register_then_unregister_restores [Register (Some 7%Z) 0] (Some 7%Z) 1).
  apply (bool_decide_unpack _). vm_compute. reflexivity.
Defined.

(** X2.  Set semantics.  Registering the same controller a second time
    changes nothing, and one [removeControllerForTab] then removes it
    completely. *)
Theorem register_twice_is_once (tabId : option Z) (controller : ctrl) (w : world) :
  final (addControllerForTab tabId controller
           (final (addControllerForTab tabId controller w)))
  = final (addControllerForTab tabId controller w)
  /\ controller
     ∉ handles
         (final (removeControllerForTab tabId controller
                   (final (addControllerForTab tabId controller
                             (final (addControllerForTab tabId controller w))))))
         (key_of tabId).
Proof.
  split.
  - rewrite !addControllerForTab_eq. unfold handles. simpl.
    rewrite lookup_insert_eq. simpl. rewrite insert_insert_eq.
    f_equal. f_equal. unfold set_add at 1.
    rewrite decide_True; [reflexivity|]. apply elem_of_set_add. auto.
  - change (final (removeControllerForTab tabId controller ?w'))
      with (unregistered tabId controller w').
    rewrite elem_handles_remove. intros [_ H]. apply H. split; reflexivity.
Qed.

(** X3.  A registry helper touches the entry of its own key only: the set
    stored under any other key is the same afterwards. *)
Theorem registry_call_leaves_other_keys (op : registry_call) (w : world)
    (key : origin_key) :
  key ≠ op_key op ->
  activeFetchControllers (final (perform op w)) !! key
  = activeFetchControllers w !! key.
Proof.
  intros Hk. destruct op as [tabId c|tabId c|tabId]; simpl in *.
  - rewrite addControllerForTab_eq. simpl. apply lookup_insert_ne. congruence.
  - rewrite removeControllerForTab_eq. simpl. unfold registry_without.
    destruct (activeFetchControllers w !! key_of tabId) as [set|]; [|reflexivity].
    destruct (length (set_delete c set) =? 0)%nat.
    + rewrite lookup_delete_ne, lookup_insert_ne by congruence. reflexivity.
    + rewrite lookup_insert_ne by congruence. reflexivity.
  - rewrite cleanupTab_eq.
    destruct (activeFetchControllers w !! key_of tabId); simpl; [|reflexivity].
    apply lookup_delete_ne. congruence.
Qed.

Lemma registry_call_leaves_other_keys_witness :
  activeFetchControllers
    (final (perform (CancelAll (Some 7%Z))
              (final (perform_all [Register (Some 7%Z) 0; Register None 1]
                        initial_world)))) !! NoTab
  = activeFetchControllers
      (final (perform_all [Register (Some 7%Z) 0; Register None 1]
                initial_world)) !! NoTab.
Proof.
  apply (registry_call_leaves_other_keys (CancelAll (Some 7%Z))).
  simpl. discriminate.
Defined.

(** X4.  Cancelling twice.  A second [cleanupTab] for the same tab right
    after the first finds no entry: it aborts nothing, logs nothing and
    leaves the world as it is. *)
Theorem cleanupTab_again_does_nothing (tabId : option Z) (w : world) :
  cleanupTab tabId (final (cleanupTab tabId w))
  = Run (Ok tt) (final (cleanupTab tabId w)) [CallCleanup tabId].
Proof.
  rewrite (cleanupTab_eq tabId (final (cleanupTab tabId w))).
  assert (H : activeFetchControllers (final (cleanupTab tabId w)) !! key_of tabId
              = None).
  { rewrite cleanupTab_eq.
    destruct (activeFetchControllers w !! key_of tabId) eqn:E; simpl;
      [apply lookup_delete_eq | exact E]. }
  rewrite H. reflexivity.
Qed.

(** X5.  Only [cleanupTab] aborts, and only the controllers registered
    under its own key: after any registry call a controller is aborted
    exactly if it was aborted before or the call was a [cleanupTab] of the
    key it was registered under.  Abort flags are never cleared. *)
Theorem aborted_after_registry_call (op : registry_call) (w : world) (x : ctrl) :
  x ∈ abortedSignals (final (perform op w))
  <-> x ∈ abortedSignals w
      \/ (exists tabId, op = CancelAll tabId /\ x ∈ handles w (key_of tabId)).
Proof.
  destruct op as [tabId c|tabId c|tabId]; simpl.
  - rewrite addControllerForTab_eq. simpl.
    split; [auto | intros [H|(t & H & _)]; [exact H | discriminate]].
  - rewrite removeControllerForTab_eq. simpl.
    split; [auto | intros [H|(t & H & _)]; [exact H | discriminate]].
  - rewrite elem_aborted_cleanup. split.
    + intros [H|H]; [auto | right; exists tabId; auto].
    + intros [H|(t & [= <-] & H)]; auto.
Qed.

(** X6.  Membership after a registration or a removal.  After
    [addControllerForTab] the sets hold what they held plus the controller
    under its key; after [removeControllerForTab] they hold what they held
    minus that one controller under that one key: other controllers of the
    tab, and equal controllers under other keys, stay registered. *)
Theorem handles_after_register_and_unregister
    (tabId : option Z) (controller : ctrl) (w : world) (key : origin_key) (x : ctrl) :
  (x ∈ handles (final (addControllerForTab tabId controller w)) key
   <-> x ∈ handles w key \/ (key = key_of tabId /\ x = controller))
  /\ (x ∈ handles (final (removeControllerForTab tabId controller w)) key
      <-> x ∈ handles w key /\ ~ (key = key_of tabId /\ x = controller)).
Proof.
  split; [apply elem_handles_add | apply elem_handles_remove].
Qed.

(** * Further properties of the handlers and the listener *)

Section HandlerMore.
Implicit Types (w : world) (tabId : option Z) (k : kind) (sc : scenario).

Lemma replies_app (xs ys : list call) : replies (xs ++ ys) = replies xs ++ replies ys.
Proof. unfold replies. apply omap_app. Qed.

Lemma replies_handler k sc tabId msg w :
  replies (calls (handler k sc tabId msg w)) = [reply_of k (settle k sc tabId w)].
Proof.
  rewrite handler_eq. cbn [calls]. unfold opening, notify.
  destruct (debug_log_is_log k msg) as [args ->].
  destruct (settle k sc tabId w); unfold closing, notify;
    destruct tabId; reflexivity.
Qed.

Lemma fetch_once k sc tabId msg w :
  count is_fetch_start (calls (handler k sc tabId msg w)) = 1.
Proof.
  rewrite handler_eq. cbn [calls]. unfold opening, notify.
  destruct (debug_log_is_log k msg) as [args ->].
  destruct (settle k sc tabId w); unfold closing, notify;
    destruct k, tabId; reflexivity.
Qed.

Lemma settle_well_allocated k sc tabId w :
  well_allocated w ->
  settle k sc tabId w =
  if cancelled sc tabId w then Rejected (AbortError sc)
  else
    match network sc with
    | NetFails e => Rejected e
    | Responds st t j =>
        if negb (is_2xx st) then
          NotOk st match t with Ok body => body | Throw e => unreadable k e end
        else
          match j with
          | Ok data => Parsed st data
          | Throw e => BodyFailed st e
          end
    end.
Proof.
  intros Hw. unfold settle. destruct (cancelled sc tabId w) eqn:Hc; [reflexivity|].
  destruct (network sc) as [st t j|e]; [|reflexivity].
  rewrite !body_read_uncancelled by assumption. reflexivity.
Qed.

Lemma calls_handler k sc tabId msg w :
  calls (handler k sc tabId msg w)
  = opening k tabId msg (allocated w)
    ++ closing k tabId (allocated w) (settle k sc tabId w).
Proof. rewrite handler_eq. reflexivity. Qed.

Lemma fresh_not_aborted w : well_allocated w -> allocated w ∉ abortedSignals w.
Proof. intros [_ H] Hin. apply H in Hin. lia. Qed.

Lemma fresh_not_registered w key : well_allocated w -> allocated w ∉ handles w key.
Proof. intros [H _] Hin. apply H in Hin. lia. Qed.

Lemma unregistered_in_flight tabId w :
  no_dangling (activeFetchControllers w) ->
  well_allocated w ->
  unregistered tabId (allocated w) (in_flight tabId w)
  = {| activeFetchControllers := activeFetchControllers w;
       abortedSignals := abortedSignals w;
       allocated := S (allocated w) |}.
Proof.
  intros Hnd Hw. unfold unregistered.
  rewrite in_flight_eq, removeControllerForTab_eq. simpl. unfold handles.
  rewrite registry_without_added; [reflexivity | exact Hnd |].
  apply (fresh_not_registered w (key_of tabId) Hw).
Qed.

(** While nobody tears the sender's tab down, the flow's controller stays
    unaborted and registered under no other key. *)
Lemma run_other_untouched tabId c step w :
  step ≠ Teardown tabId ->
  confined (key_of tabId) c w /\ c ∉ abortedSignals w ->
  confined (key_of tabId) c (final (run_other step w))
  /\ c ∉ abortedSignals (final (run_other step w)).
Proof.
  intros Hstep [Hconf Hab]. split; [apply run_other_confined, Hconf|].
  destruct Hconf as [_ Hout]. rewrite run_other_eq. simpl.
  destruct step as [t|t c'|t].
  - rewrite aborted_in_flight. exact Hab.
  - rewrite aborted_unregistered. exact Hab.
  - rewrite elem_aborted_cleanup. intros [H|H]; [exact (Hab H)|].
    apply (Hout (key_of t)); [|exact H].
    intros Hk. apply key_of_inj in Hk. subst t. apply Hstep. reflexivity.
Qed.

Lemma not_cancelled_without_teardown sc tabId w :
  well_allocated w ->
  Forall (fun step => step ≠ Teardown tabId) (during_fetch sc) ->
  cancelled sc tabId w = false.
Proof.
  intros Hw Hsteps. unfold cancelled, at_settle. rewrite interleave_final.
  apply bool_decide_eq_false_2.
  assert (Hstart : confined (key_of tabId) (allocated w) (in_flight tabId w)
                   /\ allocated w ∉ abortedSignals (in_flight tabId w)).
  { split.
    - split.
      + rewrite allocated_in_flight. lia.
      + intros key Hkey. rewrite elem_handles_in_flight.
        intros [H|[H _]]; [apply (fresh_not_registered w key Hw H) | congruence].
    - rewrite aborted_in_flight. apply fresh_not_aborted, Hw. }
  revert Hstart. generalize (in_flight tabId w) as w'.
  induction Hsteps as [|step steps Hstep _ IH]; intros w' Hw'.
  - apply Hw'.
  - rewrite run_others_cons. apply IH.
    apply run_other_untouched; assumption.
Qed.
Lemma aborts_are_silent (set : list ctrl) :
  replies (map Abort set) = [] /\ count is_fetch_start (map Abort set) = 0.
Proof. induction set as [|c set [IH1 IH2]]; split; auto. Qed.

Lemma cleanupTab_run tabId w :
  exists cs,
    cleanupTab tabId w = Run (Ok tt) (final (cleanupTab tabId w)) cs
    /\ replies cs = [] /\ count is_fetch_start cs = 0.
Proof.
  rewrite cleanupTab_eq.
  destruct (activeFetchControllers w !! key_of tabId) as [set|].
  - eexists. split; [reflexivity|].
    destruct (aborts_are_silent set) as [Hr Hf].
    split.
    + change (CallCleanup tabId :: ?l) with ([CallCleanup tabId] ++ l).
      rewrite !replies_app, Hr. reflexivity.
    + change (CallCleanup tabId :: ?l) with ([CallCleanup tabId] ++ l).
      rewrite !count_app, Hf. reflexivity.
  - eexists. repeat split; reflexivity.
Qed.
End HandlerMore.

(** X7.  The teardown paths.  A [CLOSE_EXTENSION] message (whatever else
    it carries, unless its action is [abort_requests]) and the
    [chrome.tabs.onRemoved] event do to the world exactly what
    [cleanupTab] does for the tab: the tab's entry is gone.  The listener
    returns [undefined], starts no request and sends no reply. *)
Theorem teardown_paths_clean_up
    (sc : scenario) (msg : jsval) (tabId : option Z) (id : Z) (w : world) :
  is_str (js_get msg "action") "abort_requests" = false ->
  is_str (js_get msg "type") "CLOSE_EXTENSION" = true ->
  outcome (onMessage sc msg tabId w) = Ok JUndefined
  /\ final (onMessage sc msg tabId w) = final (cleanupTab tabId w)
  /\ handles (final (onMessage sc msg tabId w)) (key_of tabId) = []
  /\ replies (calls (onMessage sc msg tabId w)) = []
  /\ count is_fetch_start (calls (onMessage sc msg tabId w)) = 0
  /\ outcome (onRemoved id w) = Ok tt
  /\ final (onRemoved id w) = final (cleanupTab (Some id) w)
  /\ handles (final (onRemoved id w)) (TabKey id) = [].
Proof.
  intros Ha Ht.
  assert (Hgone : forall t, handles (final (cleanupTab t w)) (key_of t) = []).
  { intros t. rewrite cleanupTab_eq. unfold handles.
    destruct (activeFetchControllers w !! key_of t) eqn:E; simpl.
    - rewrite lookup_delete_eq. reflexivity.
    - rewrite E. reflexivity. }
  assert (Hm : exists cs,
             onMessage sc msg tabId w
             = Run (Ok JUndefined) (final (cleanupTab tabId w)) cs
             /\ replies cs = [] /\ count is_fetch_start cs = 0).
  { unfold onMessage.
    assert (Hobj : nullish msg = false) by (destruct msg; first [reflexivity | discriminate Ht]).
    rewrite Hobj, Ha, Ht.
    destruct (cleanupTab_run tabId w) as (cs & Hrun & Hr & Hf).
    destruct tabId as [t|]; rewrite bind_eq; cbv beta iota delta [console_log record];
      rewrite bind_eq, Hrun; cbv beta iota delta [ret];
      eexists; (split; [reflexivity|]);
      rewrite app_nil_r; cbn [app]; (split; [exact Hr | exact Hf]). }
  destruct Hm as (cs & -> & Hr & Hf). cbn [outcome final calls].
  assert (Hrem : onRemoved id w
                 = Run (Ok tt) (final (cleanupTab (Some id) w))
                     (calls (onRemoved id w))).
  { unfold onRemoved. rewrite bind_eq, cleanupTab_eq.
    destruct (activeFetchControllers w !! _); reflexivity. }
  rewrite Hrem. cbn [outcome final].
  repeat split; try assumption; try reflexivity; apply Hgone.
Qed.

(** X7 on the message the content script sends from [beforeunload]. *)
Lemma teardown_paths_clean_up_witness :
  is_str (js_get (JObj [("type", JStr "CLOSE_EXTENSION")]) "action")
    "abort_requests" = false
  /\ is_str (js_get (JObj [("type", JStr "CLOSE_EXTENSION")]) "type")
       "CLOSE_EXTENSION" = true
  /\ replies (calls (onMessage quiet (JObj [("type", JStr "CLOSE_EXTENSION")])
                       (Some 7%Z)
                       (final (perform_all [Register (Some 7%Z) 0] initial_world))))
     = [].
Proof.
  split; [reflexivity|]. split; [reflexivity|].
  apply (teardown_paths_clean_up quiet (JObj [("type", JStr "CLOSE_EXTENSION")])
           (Some 7%Z) 7%Z
           (final (perform_all [Register (Some 7%Z) 0] initial_world)));
    reflexivity.
Defined.

(** X8.  Reply discipline of the listener.  The listener throws only for
    a message that is [null] or [undefined], on reading its [action]: a
    TypeError, before anything is done.  For every other message it
    returns normally.  When it returns [true] (keeping the reply channel
    open) it has started exactly one request and sends exactly one reply,
    whatever the outcome; when it returns [undefined] it has started no
    request and has replied at most once, synchronously. *)
Theorem listener_reply_discipline
    (sc : scenario) (msg : jsval) (tabId : option Z) (w : world) :
  (nullish msg = true
   /\ onMessage sc msg tabId w = Run (Throw (member_error msg "action")) w [])
  \/ (nullish msg = false
      /\ outcome (onMessage sc msg tabId w) = Ok (JBool true)
      /\ length (replies (calls (onMessage sc msg tabId w))) = 1
      /\ count is_fetch_start (calls (onMessage sc msg tabId w)) = 1)
  \/ (nullish msg = false
      /\ outcome (onMessage sc msg tabId w) = Ok JUndefined
      /\ length (replies (calls (onMessage sc msg tabId w))) <= 1
      /\ count is_fetch_start (calls (onMessage sc msg tabId w)) = 0).
Proof.
  assert (Hgen : forall k,
             exists cs, handler k sc tabId msg w
                        = Run (Ok tt) (final (handler k sc tabId msg w)) cs
                        /\ length (replies cs) = 1
                        /\ count is_fetch_start cs = 1).
  { intros k. exists (calls (handler k sc tabId msg w)).
    split; [rewrite handler_eq; reflexivity|].
    rewrite replies_handler, fetch_once. split; reflexivity. }
  destruct (cleanupTab_run tabId w) as (cs & Hrun & Hr & Hf).
  unfold onMessage.
  destruct (nullish msg); [left; split; reflexivity | right].
  destruct (is_str (js_get msg "action") "abort_requests").
  { right. split; [reflexivity|].
    destruct tabId as [t|]; rewrite bind_eq, Hrun;
      cbv beta iota delta [sendResponse record ret bind];
      cbn [outcome calls]; rewrite replies_app, count_app, Hr, Hf;
      repeat split; simpl; lia. }
  destruct (is_str (js_get msg "type") "CLOSE_EXTENSION").
  { right. split; [reflexivity|].
    destruct tabId as [t|]; rewrite bind_eq;
      cbv beta iota delta [console_log record]; rewrite bind_eq, Hrun;
      cbv beta iota delta [ret]; cbn [outcome calls];
      rewrite !replies_app, !count_app, Hr, Hf; repeat split; simpl; lia. }
  destruct (is_str (js_get msg "action") "summarize_page").
  { left. split; [reflexivity|].
    destruct (Hgen Summary) as (cs' & Hh & Hr' & Hf').
    change (handler Summary sc tabId msg w)
      with (summarize_page sc tabId msg w) in Hh.
    rewrite bind_eq, Hh. cbv beta iota delta [ret]. cbn [outcome calls].
    rewrite app_nil_r. auto. }
  destruct (is_str (js_get msg "action") "query_gemini").
  { left. split; [reflexivity|].
    destruct (Hgen Query) as (cs' & Hh & Hr' & Hf').
    change (handler Query sc tabId msg w)
      with (query_gemini sc tabId msg w) in Hh.
    rewrite bind_eq, Hh. cbv beta iota delta [ret]. cbn [outcome calls].
    rewrite app_nil_r. auto. }
  destruct (is_str (js_get msg "action") "PING"); right;
    (split; [reflexivity|]); repeat split; simpl; lia.
Qed.

(** X9.  Transport failure.  When the fetch promise rejects with an error
    that is not named AbortError (no cancellation in flight), the handler
    replies [{ok: false, error}] with the error's message, or, when the
    message is empty, with [String(err)], which is then the error's name;
    the tab is notified with the same text, the body is never read and
    the controller is unregistered once. *)
Theorem transport_failure_is_reported_with_its_message
    (k : kind) (sc : scenario) (tabId : option Z) (msg : jsval) (w : world)
    (e : js_error) :
  network sc = NetFails e ->
  cancelled sc tabId w = false ->
  is_abort e = false ->
  replies (calls (handler k sc tabId msg w))
  = [JObj [("ok", JBool false);
           ("error",
            JStr (if String.eqb (err_message e) "" then err_name e
                  else err_message e))]]
  /\ map snd (notified (calls (handler k sc tabId msg w)))
     = [JObj [("action", JStr "generation_started"); ("kind", JStr (kind_name k))];
        JObj [("action", JStr "generation_finished"); ("ok", JBool false);
              ("error",
               JStr (if String.eqb (err_message e) "" then err_name e
                     else err_message e));
              ("kind", JStr (kind_name k))]]
  /\ List.filter is_settled (calls (handler k sc tabId msg w)) = [FetchRejected e]
  /\ count (is_unregister tabId (allocated w)) (calls (handler k sc tabId msg w)) = 1.
Proof.
  intros Hnet Hc He.
  assert (Htext : forall a, error_text a e
                  = if String.eqb (err_message e) "" then err_name e
                    else err_message e).
  { intros a. unfold error_text, error_to_string. rewrite He.
    destruct (String.eqb_spec (err_message e) "") as [Hm|Hm]; simpl; [|reflexivity].
    destruct (String.eqb_spec (err_name e) "") as [Hn|Hn]; congruence. }
  assert (Hs : settle k sc tabId w = Rejected e)
    by (unfold settle; rewrite Hc, Hnet; reflexivity).
  rewrite calls_handler, Hs.
  split; [|split; [|split]].
  4:{ rewrite count_app, count_unregister_opening, count_unregister_closing.
      reflexivity. }
  all: unfold opening, closing, notify; rewrite Htext;
    destruct (debug_log_is_log k msg) as [args ->];
    destruct k, tabId; reflexivity.
Qed.

(** X9 on a connection that is refused. *)
Lemma transport_failure_is_reported_with_its_message_witness :
  network (with_network
             (NetFails {| err_name := "TypeError"; err_message := "Failed to fetch" |})
             quiet)
  = NetFails {| err_name := "TypeError"; err_message := "Failed to fetch" |}
  /\ cancelled (with_network
                  (NetFails {| err_name := "TypeError";
                               err_message := "Failed to fetch" |}) quiet)
       None initial_world = false
  /\ replies (calls (handler Query
                       (with_network
                          (NetFails {| err_name := "TypeError";
                                       err_message := "Failed to fetch" |}) quiet)
                       None (JObj []) initial_world))
     = [JObj [("ok", JBool false); ("error", JStr "Failed to fetch")]].
Proof.
  split; [reflexivity|]. split; [vm_compute; reflexivity|].
  apply (transport_failure_is_reported_with_its_message Query
           (with_network
              (NetFails {| err_name := "TypeError"; err_message := "Failed to fetch" |})
              quiet)
           None (JObj []) initial_world
           {| err_name := "TypeError"; err_message := "Failed to fetch" |});
    vm_compute; reflexivity.
Defined.

(** X10.  A 2xx answer is not yet a success.  When the fetch resolves with
    a 2xx status but [res.json()] rejects (the body is not JSON), the
    handler reports a failure: it replies [{ok: false, error}] with the
    parser's message (its name if the message is empty) and notifies the
    tab with [ok: false]. *)
Theorem unparseable_body_is_reported_as_failure
    (k : kind) (before : list other_step) (sc : scenario) (tabId : option Z)
    (msg : jsval) (st : Z) (t : result string) (e : js_error) :
  network sc = Responds st t (Throw e) ->
  is_2xx st = true ->
  cancelled sc tabId (reached before) = false ->
  is_abort e = false ->
  replies (calls (handler k sc tabId msg (reached before)))
  = [JObj [("ok", JBool false);
           ("error",
            JStr (if String.eqb (err_message e) "" then err_name e
                  else err_message e))]]
  /\ map snd (notified (calls (handler k sc tabId msg (reached before))))
     = [JObj [("action", JStr "generation_started"); ("kind", JStr (kind_name k))];
        JObj [("action", JStr "generation_finished"); ("ok", JBool false);
              ("error",
               JStr (if String.eqb (err_message e) "" then err_name e
                     else err_message e));
              ("kind", JStr (kind_name k))]].
Proof.
  intros Hnet Hst Hc He.
  assert (Htext : forall a, error_text a e
                  = if String.eqb (err_message e) "" then err_name e
                    else err_message e).
  { intros a. unfold error_text, error_to_string. rewrite He.
    destruct (String.eqb_spec (err_message e) "") as [Hm|Hm]; simpl; [|reflexivity].
    destruct (String.eqb_spec (err_name e) "") as [Hn|Hn]; congruence. }
  assert (Hs : settle k sc tabId (reached before) = BodyFailed st e).
  { rewrite settle_well_allocated by apply reached_well_allocated.
    rewrite Hc, Hnet, Hst. reflexivity. }
  rewrite calls_handler, Hs.
  split; unfold opening, closing, notify; rewrite Htext;
    destruct (debug_log_is_log k msg) as [args ->];
    destruct k, tabId; reflexivity.
Qed.

(** X10 on the proxy that answers 200 with an HTML page. *)
Lemma unparseable_body_is_reported_as_failure_witness :
  network garbled
  = Responds 200 (Ok "<html>")
      (Throw {| err_name := "SyntaxError"; err_message := "Unexpected token '<'" |})
  /\ is_2xx 200 = true
  /\ cancelled garbled (Some 7%Z) (reached []) = false
  /\ replies (calls (handler Summary garbled (Some 7%Z) (JObj []) (reached [])))
     = [JObj [("ok", JBool false); ("error", JStr "Unexpected token '<'")]].
Proof.
  split; [reflexivity|]. split; [reflexivity|]. split; [vm_compute; reflexivity|].
  apply (unparseable_body_is_reported_as_failure Summary [] garbled (Some 7%Z)
           (JObj []) 200 (Ok "<html>")
           {| err_name := "SyntaxError"; err_message := "Unexpected token '<'" |});
    vm_compute; reflexivity.
Defined.

(** X11.  A run that nobody interleaves restores the registry.  If no
    other flow runs while the handler waits, the handler leaves the Map
    and the abort flags exactly as it found them, whatever the outcome;
    all that remains is that one more controller has been created. *)
Theorem uninterleaved_run_restores_the_world
    (k : kind) (before : list other_step) (sc : scenario) (tabId : option Z)
    (msg : jsval) :
  during_fetch sc = [] ->
  during_body sc = [] ->
  final (handler k sc tabId msg (reached before))
  = {| activeFetchControllers := activeFetchControllers (reached before);
       abortedSignals := abortedSignals (reached before);
       allocated := S (allocated (reached before)) |}.
Proof.
  intros Hf Hb.
  pose proof (reached_well_allocated before) as Hw.
  pose proof (reached_no_dangling before) as Hnd.
  set (w := reached before) in *.
  assert (Hsettle : at_settle sc tabId w = in_flight tabId w)
    by (unfold at_settle; rewrite Hf; reflexivity).
  assert (Hun : unregistered tabId (allocated w) (at_settle sc tabId w)
                = {| activeFetchControllers := activeFetchControllers w;
                     abortedSignals := abortedSignals w;
                     allocated := S (allocated w) |})
    by (rewrite Hsettle; apply unregistered_in_flight; assumption).
  assert (Hbody : at_body sc tabId w
                  = {| activeFetchControllers := activeFetchControllers w;
                       abortedSignals := abortedSignals w;
                       allocated := S (allocated w) |})
    by (unfold at_body; rewrite Hb, Hun; reflexivity).
  rewrite handler_eq. cbn [final].
  destruct (settle k sc tabId w); cbn [world_after]; try assumption.
  rewrite Hbody. apply unregistered_absent; [exact Hnd|].
  apply (fresh_not_registered w (key_of tabId) Hw).
Qed.

Lemma uninterleaved_run_restores_the_world_witness :
  during_fetch failing = []
  /\ during_body failing = []
  /\ final (handler Query failing (Some 7%Z) (JObj []) (reached [OtherStarts (Some 7%Z)]))
     = {| activeFetchControllers :=
            activeFetchControllers (reached [OtherStarts (Some 7%Z)]);
          abortedSignals := abortedSignals (reached [OtherStarts (Some 7%Z)]);
          allocated := S (allocated (reached [OtherStarts (Some 7%Z)])) |}.
Proof.
  split; [reflexivity|]. split; [reflexivity|].
  apply (uninterleaved_run_restores_the_world Query [OtherStarts (Some 7%Z)] failing
           (Some 7%Z) (JObj [])); reflexivity.
Defined.

(** X12.  Cancellation is per tab.  As long as no other flow tears the
    sender's own tab down while the request is in flight, the request is
    not cancelled, whatever else happens: teardowns of other tabs, other
    handlers starting and settling.  The handler then makes the calls it
    would have made, had nothing happened in between. *)
Theorem teardown_of_other_tabs_does_not_cancel
    (k : kind) (before : list other_step) (sc : scenario) (tabId : option Z)
    (msg : jsval) :
  Forall (fun step => step ≠ Teardown tabId) (during_fetch sc) ->
  cancelled sc tabId (reached before) = false
  /\ calls (handler k sc tabId msg (reached before))
     = calls (handler k (with_during_fetch [] sc) tabId msg (reached before)).
Proof.
  intros Hsteps.
  pose proof (reached_well_allocated before) as Hw.
  assert (Hc : cancelled sc tabId (reached before) = false)
    by (apply not_cancelled_without_teardown; assumption).
  assert (Hc' : cancelled (with_during_fetch [] sc) tabId (reached before) = false)
    by (apply not_cancelled_without_teardown; [assumption | constructor]).
  split; [exact Hc|].
  rewrite !calls_handler, !settle_well_allocated by assumption.
  rewrite Hc, Hc'. reflexivity.
Qed.

Lemma teardown_of_other_tabs_does_not_cancel_witness :
  Forall (fun step => step ≠ Teardown (Some 7%Z))
    (during_fetch (with_during_fetch [Teardown (Some 8%Z); Teardown None] quiet))
  /\ cancelled (with_during_fetch [Teardown (Some 8%Z); Teardown None] quiet)
       (Some 7%Z) (reached [OtherStarts (Some 8%Z)]) = false.
Proof.
  assert (H : Forall (fun step => step ≠ Teardown (Some 7%Z))
                (during_fetch
                   (with_during_fetch [Teardown (Some 8%Z); Teardown None] quiet))).
  { repeat constructor; discriminate. }
  split; [exact H|].
  apply (teardown_of_other_tabs_does_not_cancel Summary [OtherStarts (Some 8%Z)]
           (with_during_fetch [Teardown (Some 8%Z); Teardown None] quiet)
           (Some 7%Z) (JObj []) H).
Defined.

(** X13.  Tearing the sender's tab down in flight.  If, while the request
    is in flight, [cleanupTab] runs for the sender's tab (tab closed, page
    unloaded, [abort_requests]) and nobody has unregistered the flow's
    controller before, the handler replies with the fixed "Request
    aborted" text of its kind, whatever the network would have
    answered. *)
Theorem teardown_in_flight_yields_aborted_reply
    (k : kind) (sc : scenario) (tabId : option Z) (msg : jsval) (w : world)
    (pre post : list other_step) :
  during_fetch sc = pre ++ Teardown tabId :: post ->
  Forall (fun step => step ≠ OtherSettles tabId (allocated w)) pre ->
  replies (calls (handler k sc tabId msg w))
  = [JObj [("ok", JBool false); ("error", JStr (abort_text k))]].
Proof.
  intros Hsteps Hpre.
  rewrite replies_handler. unfold settle.
  rewrite (teardown_in_flight_cancels sc tabId w pre post Hsteps Hpre).
  reflexivity.
Qed.

Lemma teardown_in_flight_yields_aborted_reply_witness :
  during_fetch (with_during_fetch
                  [OtherStarts (Some 7%Z); Teardown (Some 7%Z); OtherStarts None]
                  quiet)
  = [OtherStarts (Some 7%Z)] ++ Teardown (Some 7%Z) :: [OtherStarts None]
  /\ replies (calls (handler Query
                       (with_during_fetch
                          [OtherStarts (Some 7%Z); Teardown (Some 7%Z);
                           OtherStarts None] quiet)
                       (Some 7%Z) (JObj []) initial_world))
     = [JObj [("ok", JBool false);
              ("error", JStr "Request aborted (tab closed or navigation occurred).")]].
Proof.
  split; [reflexivity|].
  apply (teardown_in_flight_yields_aborted_reply Query
           (with_during_fetch
              [OtherStarts (Some 7%Z); Teardown (Some 7%Z); OtherStarts None] quiet)
           (Some 7%Z) (JObj []) initial_world
           [OtherStarts (Some 7%Z)] [OtherStarts None]).
  - reflexivity.
  - repeat constructor. discriminate.
Defined.

(** X14.  Too late to cancel.  Once the fetch has resolved the handler has
    taken its controller out of the registry, so nothing other flows do
    while the body is read (not even a teardown of the sender's tab) can
    abort the read or change what the handler does: its calls, and so its
    reply, are the same for every interleaving of the body phase. *)
Theorem body_phase_cannot_change_the_run
    (k : kind) (before : list other_step) (sc : scenario) (tabId : option Z)
    (msg : jsval) (steps : list other_step) :
  calls (handler k (with_during_body steps sc) tabId msg (reached before))
  = calls (handler k sc tabId msg (reached before)).
Proof.
  pose proof (reached_well_allocated before) as Hw.
  rewrite !calls_handler, !settle_well_allocated by assumption.
  reflexivity.
Qed.

(** * From the handler's reply to what the page shows *)

(** X15.  A cancelled request on the page.  When the request was
    cancelled in flight, the summary panel shows "Error: Request aborted",
    and the prompt box and the side chat show "Error: Request aborted (tab
    closed or navigation occurred)." *)
Theorem cancelled_request_as_shown
    (cv : conversions) (sc : scenario) (tabId : option Z) (msg : jsval) (w : world) :
  cancelled sc tabId w = true ->
  map (summary_panel_shows cv) (replies (calls (summarize_page sc tabId msg w)))
  = [JStr "Error: Request aborted"]
  /\ map (prompt_box_shows cv) (replies (calls (query_gemini sc tabId msg w)))
     = [JStr "Error: Request aborted (tab closed or navigation occurred)."]
  /\ map (chat_shows cv) (replies (calls (query_gemini sc tabId msg w)))
     = [JStr "Error: Request aborted (tab closed or navigation occurred)."].
Proof.
  intros Hc.
  change (summarize_page sc tabId msg w) with (handler Summary sc tabId msg w).
  change (query_gemini sc tabId msg w) with (handler Query sc tabId msg w).
  rewrite !replies_handler. unfold settle. rewrite Hc.
  repeat split; reflexivity.
Qed.

Lemma cancelled_request_as_shown_witness :
  cancelled torn_down (Some 7%Z) initial_world = true
  /\ map (summary_panel_shows
            {| string_of_other := fun _ => ""; JSON_stringify := fun _ => JUndefined |})
       (replies (calls (summarize_page torn_down (Some 7%Z) (JObj []) initial_world)))
     = [JStr "Error: Request aborted"].
Proof.
  split; [vm_compute; reflexivity|].
  apply (cancelled_request_as_shown
           {| string_of_other := fun _ => ""; JSON_stringify := fun _ => JUndefined |}
           torn_down (Some 7%Z) (JObj []) initial_world).
  vm_compute. reflexivity.
Defined.

(** X16.  A proxy error on the page.  When the proxy answers with a status
    outside 200-299, all three surfaces show "Error: Server error
    <status>: <body>"; the fallback text "unknown" is never used for
    it. *)
Theorem server_error_as_shown
    (cv : conversions) (before : list other_step) (sc : scenario)
    (tabId : option Z) (msg : jsval) (st : Z) (body : string) (j : result jsval) :
  network sc = Responds st (Ok body) j ->
  is_2xx st = false ->
  cancelled sc tabId (reached before) = false ->
  map (summary_panel_shows cv)
    (replies (calls (summarize_page sc tabId msg (reached before))))
  = [JStr ("Error: Server error " +:+ pretty st +:+ ": " +:+ body)]
  /\ map (prompt_box_shows cv)
       (replies (calls (query_gemini sc tabId msg (reached before))))
     = [JStr ("Error: Server error " +:+ pretty st +:+ ": " +:+ body)]
  /\ map (chat_shows cv)
       (replies (calls (query_gemini sc tabId msg (reached before))))
     = [JStr ("Error: Server error " +:+ pretty st +:+ ": " +:+ body)].
Proof.
  intros Hnet Hst Hc.
  change (summarize_page sc tabId msg) with (handler Summary sc tabId msg).
  change (query_gemini sc tabId msg) with (handler Query sc tabId msg).
  rewrite !replies_handler, !settle_well_allocated by apply reached_well_allocated.
  rewrite Hc, Hnet, Hst. repeat split; reflexivity.
Qed.

Lemma server_error_as_shown_witness :
  network failing
  = Responds 500 (Ok "oops")
      (Throw {| err_name := "SyntaxError"; err_message := "Unexpected token 'o'" |})
  /\ is_2xx 500 = false
  /\ cancelled failing (Some 7%Z) (reached []) = false
  /\ map (chat_shows
            {| string_of_other := fun _ => ""; JSON_stringify := fun _ => JUndefined |})
       (replies (calls (query_gemini failing (Some 7%Z) (JObj []) (reached []))))
     = [JStr "Error: Server error 500: oops"].
Proof.
  split; [reflexivity|]. split; [reflexivity|]. split; [vm_compute; reflexivity|].
  apply (server_error_as_shown
           {| string_of_other := fun _ => ""; JSON_stringify := fun _ => JUndefined |}
           [] failing (Some 7%Z) (JObj []) 500 "oops"
           (Throw {| err_name := "SyntaxError";
                     err_message := "Unexpected token 'o'" |}));
    vm_compute; reflexivity.
Defined.

(** X17.  The proxy's success on the page.  When the proxy answers 2xx
    with the body it builds, [{ok: true, text, raw}], every surface shows
    [text]; if [text] is the empty string, every surface shows
    [JSON.stringify] of the whole body instead. *)
Theorem proxy_success_as_shown
    (cv : conversions) (before : list other_step) (sc : scenario)
    (tabId : option Z) (msg : jsval) (st : Z) (t : result string)
    (text : string) (raw : jsval) :
  network sc
  = Responds st t
      (Ok (JObj [("ok", JBool true); ("text", JStr text); ("raw", raw)])) ->
  is_2xx st = true ->
  cancelled sc tabId (reached before) = false ->
  let shown :=
    if String.eqb text "" then
      JSON_stringify cv (JObj [("ok", JBool true); ("text", JStr text); ("raw", raw)])
    else JStr text in
  map (summary_panel_shows cv)
    (replies (calls (summarize_page sc tabId msg (reached before))))
  = [shown]
  /\ map (prompt_box_shows cv)
       (replies (calls (query_gemini sc tabId msg (reached before))))
     = [shown]
  /\ map (chat_shows cv)
       (replies (calls (query_gemini sc tabId msg (reached before))))
     = [shown].
Proof.
  intros Hnet Hst Hc shown. subst shown.
  change (summarize_page sc tabId msg) with (handler Summary sc tabId msg).
  change (query_gemini sc tabId msg) with (handler Query sc tabId msg).
  rewrite !replies_handler, !settle_well_allocated by apply reached_well_allocated.
  rewrite Hc, Hnet, Hst.
  cbn [negb reply_of map success_reply].
  unfold summary_panel_shows, prompt_box_shows, chat_shows, js_or.
  cbn [truthy js_get lookup_field String.eqb Ascii.eqb Bool.eqb negb].
  destruct (String.eqb text ""); repeat split; reflexivity.
Qed.

Lemma proxy_success_as_shown_witness :
  network (with_network
             (Responds 200 (Ok "")
                (Ok (JObj [("ok", JBool true); ("text", JStr "hello");
                           ("raw", JNull)]))) quiet)
  = Responds 200 (Ok "")
      (Ok (JObj [("ok", JBool true); ("text", JStr "hello"); ("raw", JNull)]))
  /\ is_2xx 200 = true
  /\ cancelled (with_network
                  (Responds 200 (Ok "")
                     (Ok (JObj [("ok", JBool true); ("text", JStr "hello");
                                ("raw", JNull)]))) quiet)
       (Some 7%Z) (reached []) = false
  /\ map (prompt_box_shows
            {| string_of_other := fun _ => ""; JSON_stringify := fun _ => JUndefined |})
       (replies (calls (query_gemini
                          (with_network
                             (Responds 200 (Ok "")
                                (Ok (JObj [("ok", JBool true); ("text", JStr "hello");
                                           ("raw", JNull)]))) quiet)
                          (Some 7%Z) (JObj []) (reached []))))
     = [JStr "hello"].
Proof.
  split; [reflexivity|]. split; [reflexivity|]. split; [vm_compute; reflexivity|].
  apply (proxy_success_as_shown
           {| string_of_other := fun _ => ""; JSON_stringify := fun _ => JUndefined |}
           [] (with_network
                 (Responds 200 (Ok "")
                    (Ok (JObj [("ok", JBool true); ("text", JStr "hello");
                               ("raw", JNull)]))) quiet)
           (Some 7%Z) (JObj []) 200 (Ok "") "hello" JNull);
    vm_compute; reflexivity.
Defined.

(** X18.  A 2xx body without a truthy [ok].  When the proxy answers 2xx
    with a body whose [ok] field is missing or falsy, the summary panel
    shows "Error: unknown" even if the body carries a text, because
    [summarize_page] copies the body's [ok] into its reply and adds no
    [error]; the prompt box, fed by [query_gemini] from the same body,
    shows the body's text. *)
Theorem body_without_ok_as_shown
    (cv : conversions) (before : list other_step) (sc : scenario)
    (tabId : option Z) (msg : jsval) (st : Z) (t : result string) (data : jsval)
    (text : string) :
  network sc = Responds st t (Ok data) ->
  is_2xx st = true ->
  cancelled sc tabId (reached before) = false ->
  truthy (js_get data "ok") = false ->
  js_get data "text" = JStr text ->
  text ≠ "" ->
  js_get data "data" = JUndefined ->
  map (summary_panel_shows cv)
    (replies (calls (summarize_page sc tabId msg (reached before))))
  = [JStr "Error: unknown"]
  /\ map (prompt_box_shows cv)
       (replies (calls (query_gemini sc tabId msg (reached before))))
     = [JStr text].
Proof.
  intros Hnet Hst Hc Hok Htext Hne Hdata.
  change (summarize_page sc tabId msg) with (handler Summary sc tabId msg).
  change (query_gemini sc tabId msg) with (handler Query sc tabId msg).
  rewrite !replies_handler, !settle_well_allocated by apply reached_well_allocated.
  rewrite Hc, Hnet, Hst.
  cbn [negb reply_of map success_reply].
  unfold summary_panel_shows, prompt_box_shows, js_or.
  cbn [truthy js_get lookup_field String.eqb Ascii.eqb Bool.eqb negb].
  rewrite Hok, Hdata, Htext.
  cbn [truthy js_get lookup_field negb].
  destruct (String.eqb_spec text "") as [E|E]; [contradiction|].
  split; reflexivity.
Qed.

Lemma body_without_ok_as_shown_witness :
  map (summary_panel_shows
         {| string_of_other := fun _ => ""; JSON_stringify := fun _ => JUndefined |})
    (replies (calls (summarize_page
                       (with_network
                          (Responds 200 (Ok "") (Ok (JObj [("text", JStr "hi")])))
                          quiet)
                       None (JObj []) (reached []))))
  = [JStr "Error: unknown"]
  /\ map (prompt_box_shows
            {| string_of_other := fun _ => ""; JSON_stringify := fun _ => JUndefined |})
       (replies (calls (query_gemini
                          (with_network
                             (Responds 200 (Ok "") (Ok (JObj [("text", JStr "hi")])))
                             quiet)
                          None (JObj []) (reached []))))
     = [JStr "hi"].
Proof.
  apply (body_without_ok_as_shown
           {| string_of_other := fun _ => ""; JSON_stringify := fun _ => JUndefined |}
           [] (with_network
                 (Responds 200 (Ok "") (Ok (JObj [("text", JStr "hi")]))) quiet)
           None (JObj []) 200 (Ok "") (JObj [("text", JStr "hi")]) "hi");
    try (vm_compute; reflexivity).
  discriminate.
Defined.

(** * The text utilities of the content script *)

Section EscapeLemmas.

Lemma append_cons (x : ascii) (a b : string) : String x a +:+ b = String x (a +:+ b).
Proof. reflexivity. Qed.

Lemma append_assoc3 (a b c : string) : (a +:+ b) +:+ c = a +:+ (b +:+ c).
Proof.
  induction a as [|x a IH]; [reflexivity|].
  rewrite !append_cons. f_equal. exact IH.
Qed.

Lemma chars_app (a b : string) : chars (a +:+ b) = chars a ++ chars b.
Proof.
  induction a as [|x a IH]; [reflexivity|].
  rewrite append_cons. simpl. f_equal. exact IH.
Qed.

Lemma substring_all (s : string) : substring 0 (String.length s) s = s.
Proof. induction s as [|c s IH]; simpl; [reflexivity | f_equal; exact IH]. Qed.

Lemma escape_all_app (a b : string) :
  escape_all (a +:+ b) = escape_all a +:+ escape_all b.
Proof.
  induction a as [|c a IH]; [reflexivity|].
  rewrite append_cons. cbn [escape_all]. rewrite IH, append_assoc3. reflexivity.
Qed.

Lemma escape_char_cases (c : Ascii.ascii) :
  (c = "&"%char /\ escape_char c = "&amp;")
  \/ (c = "<"%char /\ escape_char c = "&lt;")
  \/ (c = ">"%char /\ escape_char c = "&gt;")
  \/ (c = Ascii.ascii_of_nat 34 /\ escape_char c = "&quot;")
  \/ (c = "'"%char /\ escape_char c = "&#39;")
  \/ (c ≠ "&"%char /\ c ≠ "<"%char /\ c ≠ ">"%char /\ c ≠ Ascii.ascii_of_nat 34
      /\ c ≠ "'"%char /\ escape_char c = String c EmptyString).
Proof.
  unfold escape_char.
  destruct (Ascii.eqb_spec c "&"%char); [auto|].
  destruct (Ascii.eqb_spec c "<"%char); [auto|].
  destruct (Ascii.eqb_spec c ">"%char); [auto 6|].
  destruct (Ascii.eqb_spec c (Ascii.ascii_of_nat 34)); [auto 6|].
  destruct (Ascii.eqb_spec c "'"%char); [auto 8|].
  right. right. right. right. right. repeat split; assumption.
Qed.

Lemma length_append (a b : string) :
  String.length (a +:+ b) = String.length a + String.length b.
Proof.
  induction a as [|x a IH]; [reflexivity|].
  rewrite append_cons. simpl. rewrite IH. reflexivity.
Qed.

Lemma escape_all_length (s : string) : String.length s <= String.length (escape_all s).
Proof.
  induction s as [|c s IH]; [simpl; lia|].
  cbn [escape_all]. rewrite length_append.
  destruct (escape_char_cases c) as [[_ ->]|[[_ ->]|[[_ ->]|[[_ ->]|[[_ ->]|(_&_&_&_&_& ->)]]]]];
    simpl; lia.
Qed.

Lemma unescape_escape (fuel : nat) (s : string) :
  String.length s <= fuel -> unescape_all fuel (escape_all s) = s.
Proof.
  revert s. induction fuel as [|fuel IH]; intros s Hlen.
  - destruct s; [reflexivity | simpl in Hlen; lia].
  - destruct s as [|c s]; [reflexivity|]. simpl in Hlen.
    assert (Hs : String.length s <= fuel) by lia.
    cbn [escape_all].
    destruct (escape_char_cases c)
      as [[-> ->]|[[-> ->]|[[-> ->]|[[-> ->]|[[-> ->]|(H1&H2&H3&H4&H5& ->)]]]]].
    1-5: rewrite !append_cons;
      change (EmptyString +:+ escape_all s) with (escape_all s);
      cbn [unescape_all strip_prefix Ascii.eqb Bool.eqb];
      rewrite IH by exact Hs; reflexivity.
    rewrite append_cons. change (EmptyString +:+ escape_all s) with (escape_all s).
    cbn [unescape_all strip_prefix].
    destruct (Ascii.eqb_spec "&"%char c) as [E|E]; [congruence|].
    rewrite IH by exact Hs. reflexivity.
Qed.
End EscapeLemmas.

(** X19.  [escapeHtml] leaves no markup character behind: its result
    contains no [<], no [>], no double quote and no single quote, for
    every argument; a missing argument gives the empty string. *)
Theorem escapeHtml_leaves_no_markup (s : option string) (c : Ascii.ascii) :
  In c (chars (escapeHtml s)) ->
  c ≠ "<"%char /\ c ≠ ">"%char /\ c ≠ Ascii.ascii_of_nat 34 /\ c ≠ "'"%char.
Proof.
  destruct s as [text|]; simpl; [|intros []].
  induction text as [|x text IH]; simpl; [intros []|].
  rewrite chars_app, in_app_iff. intros [H|H]; [|exact (IH H)].
  destruct (escape_char_cases x)
    as [[_ E]|[[_ E]|[[_ E]|[[_ E]|[[_ E]|(H1&H2&H3&H4&H5&E)]]]]];
    rewrite E in H; simpl in H;
    repeat (destruct H as [<-|H]; [repeat split; (discriminate || assumption)|]);
    destruct H.
Qed.

Lemma escapeHtml_leaves_no_markup_witness :
  In "l"%char (chars (escapeHtml (Some "<b>")))
  /\ "l"%char ≠ "<"%char.
Proof.
  assert (H : In "l"%char (chars (escapeHtml (Some "<b>"))))
    by (vm_compute; auto).
  split; [exact H|].
  apply (escapeHtml_leaves_no_markup (Some "<b>") "l"%char H).
Defined.

(** X20.  [escapeHtml] loses nothing and works piecewise: two different
    texts never escape to the same string, the escape of a concatenation
    is the concatenation of the escapes, and the result is at least as
    long as the text. *)
Theorem escapeHtml_is_injective_and_piecewise (a b : string) :
  (escapeHtml (Some a) = escapeHtml (Some b) -> a = b)
  /\ escapeHtml (Some (a +:+ b)) = escapeHtml (Some a) +:+ escapeHtml (Some b)
  /\ String.length a <= String.length (escapeHtml (Some a)).
Proof.
  split; [|split; [apply escape_all_app | apply escape_all_length]].
  simpl. intros H.
  pose proof (unescape_escape (String.length a + String.length b) a) as Ha.
  pose proof (unescape_escape (String.length a + String.length b) b) as Hb.
  rewrite H in Ha. transitivity
    (unescape_all (String.length a + String.length b) (escape_all b));
    [symmetry; apply Ha; lia | apply Hb; lia].
Qed.
Section TrimLemmas.
Implicit Types (l a x r : list ascii) (s : string) (b : bool).

Lemma drop_ws_eq b l :
  drop_ws b l = match ws_head b l with Some r => drop_ws b r | None => l end.
Proof.
  destruct l as [|c1 r1]; [reflexivity|]. cbn [drop_ws ws_head].
  destruct (is_ws1 c1); [reflexivity|].
  destruct r1 as [|c2 r2]; [reflexivity|].
  destruct (if b then is_ws2 c2 c1 else is_ws2 c1 c2); [reflexivity|].
  destruct r2 as [|c3 r3]; [reflexivity|].
  destruct (if b then is_ws3 c3 c2 c1 else is_ws3 c1 c2 c3); reflexivity.
Qed.

Lemma ws_head_suffix b l r :
  ws_head b l = Some r -> exists p, l = p ++ r /\ p <> [].
Proof.
  destruct l as [|c1 r1]; [discriminate|]. cbn [ws_head].
  destruct (is_ws1 c1); [intros [= <-]; now exists [c1]|].
  destruct r1 as [|c2 r2]; [discriminate|].
  destruct (if b then is_ws2 c2 c1 else is_ws2 c1 c2);
    [intros [= <-]; now exists [c1; c2]|].
  destruct r2 as [|c3 r3]; [discriminate|].
  destruct (if b then is_ws3 c3 c2 c1 else is_ws3 c1 c2 c3);
    [intros [= <-]; now exists [c1; c2; c3] | discriminate].
Qed.

Lemma ws_head_prefix b a x : ws_head b (a ++ x) = None -> ws_head b a = None.
Proof.
  destruct a as [|c1 r1]; [reflexivity|]. cbn [ws_head app].
  destruct (is_ws1 c1); [discriminate|].
  destruct r1 as [|c2 r2]; [reflexivity|]. cbn [app].
  destruct (if b then is_ws2 c2 c1 else is_ws2 c1 c2); [discriminate|].
  destruct r2 as [|c3 r3]; [reflexivity|]. cbn [app].
  destruct (if b then is_ws3 c3 c2 c1 else is_ws3 c1 c2 c3);
    [discriminate | reflexivity].
Qed.

Lemma drop_ws_fixed b l : ws_head b l = None -> drop_ws b l = l.
Proof. intros H. rewrite drop_ws_eq, H. reflexivity. Qed.

Lemma drop_ws_spec b l :
  ws_head b (drop_ws b l) = None /\ exists p, l = p ++ drop_ws b l.
Proof.
  remember (length l) as n eqn:Hn. revert l Hn.
  induction n as [n IH] using lt_wf_ind. intros l ->.
  rewrite drop_ws_eq. destruct (ws_head b l) as [r|] eqn:E.
  - destruct (ws_head_suffix _ _ _ E) as (p & -> & Hp).
    destruct (IH (length r)) with (l := r) as [H1 [q H2]]; [|reflexivity|].
    + rewrite length_app. destruct p; [congruence | simpl; lia].
    + split; [exact H1|]. exists (p ++ q). rewrite <- app_assoc, <- H2. reflexivity.
  - split; [exact E | now exists []].
Qed.

(** The trimmed text is a piece of the text with white space at neither
    end. *)
Lemma trim_chars_spec l :
  ws_head false (trim_chars l) = None
  /\ ws_head true (rev (trim_chars l)) = None
  /\ exists p q, l = p ++ trim_chars l ++ q.
Proof.
  unfold trim_chars.
  destruct (drop_ws_spec true (rev l)) as [HA [p1 H1]].
  set (A := drop_ws true (rev l)) in *.
  destruct (drop_ws_spec false (rev A)) as [HC [p2 H2]].
  set (C := drop_ws false (rev A)) in *.
  assert (EA : A = rev C ++ rev p2).
  { rewrite <- (rev_involutive A), H2, rev_app_distr. reflexivity. }
  split; [exact HC|]. split.
  - apply ws_head_prefix with (x := rev p2). rewrite <- EA. exact HA.
  - exists p2, (rev p1).
    rewrite <- (rev_involutive l), H1, rev_app_distr, H2, <- app_assoc. reflexivity.
Qed.

Lemma trim_chars_fixed l :
  ws_head false l = None -> ws_head true (rev l) = None -> trim_chars l = l.
Proof.
  intros H1 H2. unfold trim_chars.
  rewrite (drop_ws_fixed true _ H2), rev_involutive. apply drop_ws_fixed, H1.
Qed.

Lemma chars_of_list l : chars (string_of_list_ascii l) = l.
Proof. induction l as [|c l IH]; simpl; [reflexivity | f_equal; exact IH]. Qed.

Lemma of_list_chars s : string_of_list_ascii (chars s) = s.
Proof. induction s as [|c s IH]; simpl; [reflexivity | f_equal; exact IH]. Qed.

Lemma chars_js_trim s : chars (js_trim s) = trim_chars (chars s).
Proof. unfold js_trim. apply chars_of_list. Qed.

Lemma js_trim_fixed s :
  ws_head false (chars s) = None -> ws_head true (rev (chars s)) = None ->
  js_trim s = s.
Proof.
  intros H1 H2. unfold js_trim. rewrite trim_chars_fixed by assumption.
  apply of_list_chars.
Qed.

Lemma js_trim_idem s : js_trim (js_trim s) = js_trim s.
Proof.
  destruct (trim_chars_spec (chars s)) as (H1 & H2 & _).
  apply js_trim_fixed; rewrite chars_js_trim; assumption.
Qed.

Lemma line_terminator_tail c l :
  has_line_terminator (c :: l) = false -> has_line_terminator l = false.
Proof.
  cbn [has_line_terminator]. intros H.
  apply orb_false_iff in H. apply H.
Qed.

Lemma line_terminator_app a x :
  has_line_terminator (a ++ x) = false ->
  has_line_terminator a = false /\ has_line_terminator x = false.
Proof.
  induction a as [|c a IH]; intros H; [split; [reflexivity | exact H]|].
  destruct (IH (line_terminator_tail _ _ H)) as [Ha Hx].
  split; [|exact Hx].
  cbn [app has_line_terminator] in H |- *. rewrite Ha.
  apply orb_false_iff in H. destruct H as [H _].
  apply orb_false_iff in H. destruct H as [H1 H2]. rewrite H1.
  destruct a as [|c2 [|c3 t]]; try reflexivity.
  cbn [app] in H2. rewrite H2. reflexivity.
Qed.

Lemma js_trim_single_line s :
  has_line_terminator (chars s) = false ->
  has_line_terminator (chars (js_trim s)) = false.
Proof.
  intros H. rewrite chars_js_trim.
  destruct (trim_chars_spec (chars s)) as (_ & _ & p & q & E).
  rewrite E in H. apply line_terminator_app in H. destruct H as [_ H].
  apply line_terminator_app in H. apply H.
Qed.


(** [trim] leaves no white space at either end, is idempotent, and cuts
    its result out of the text. *)
Lemma js_trim_is_trimmed s :
  ws_head false (chars (js_trim s)) = None
  /\ ws_head true (rev (chars (js_trim s))) = None
  /\ exists before after, s = before +:+ js_trim s +:+ after.
Proof.
  destruct (trim_chars_spec (chars s)) as (H1 & H2 & p & q & E).
  rewrite chars_js_trim. repeat split; try assumption.
  exists (string_of_list_ascii p), (string_of_list_ascii q).
  rewrite <- (of_list_chars s) at 1.
  rewrite <- (of_list_chars (_ +:+ _)).
  rewrite !chars_app, !chars_of_list, chars_js_trim, <- E. reflexivity.
Qed.

End TrimLemmas.
Section ParseLemmas.
Implicit Types (s p kw rest : string) (same : ascii -> ascii -> bool).

Lemma strip_prefix_app same p kw rest :
  strip_prefix same p kw = Some EmptyString ->
  strip_prefix same p (kw +:+ rest) = Some rest.
Proof.
  revert kw. induction p as [|a p IH]; intros kw; cbn [strip_prefix].
  - intros [= ->]. reflexivity.
  - destruct kw as [|c kw]; [discriminate|]. rewrite append_cons.
    destruct (same a c); [apply IH | discriminate].
Qed.

Lemma strip_prefix_split same p s rest :
  strip_prefix same p s = Some rest ->
  exists kw, s = kw +:+ rest /\ strip_prefix same p kw = Some EmptyString.
Proof.
  revert s. induction p as [|a p IH]; intros s; cbn [strip_prefix].
  - intros [= ->]. now exists EmptyString.
  - destruct s as [|c s]; [discriminate|].
    destruct (same a c) eqn:E; [|discriminate]. intros H.
    destruct (IH _ H) as (kw & -> & Hkw).
    exists (String c kw). split; [reflexivity|].
    cbn [strip_prefix]. rewrite E. exact Hkw.
Qed.

Lemma first_capture_eq s :
  first_capture s =
  match capture_here s with
  | Some g => Some g
  | None => match s with String _ rest => first_capture rest | EmptyString => None end
  end.
Proof. destruct s; reflexivity. Qed.

Lemma capture_here_inv s g :
  capture_here s = Some g ->
  exists kw rest,
    s = kw +:+ rest /\ strip_prefix same_ci "translate " kw = Some EmptyString
    /\ matches_to_end g = true
    /\ (g = rest
        \/ exists to, rest = to +:+ g
                      /\ strip_prefix same_ci "to " to = Some EmptyString).
Proof.
  unfold capture_here.
  destruct (strip_prefix same_ci "translate " s) as [rest|] eqn:E; [|discriminate].
  destruct (strip_prefix_split _ _ _ _ E) as (kw & -> & Hkw).
  intros H. exists kw, rest. split; [reflexivity|]. split; [exact Hkw|].
  destruct (strip_prefix same_ci "to " rest) as [rest'|] eqn:E'.
  - destruct (matches_to_end rest') eqn:M'.
    + injection H as <-. split; [exact M'|]. right.
      destruct (strip_prefix_split _ _ _ _ E') as (to & -> & Hto). now exists to.
    + destruct (matches_to_end rest) eqn:M; [|discriminate].
      injection H as <-. split; [exact M | now left].
  - destruct (matches_to_end rest) eqn:M; [|discriminate].
    injection H as <-. split; [exact M | now left].
Qed.

Lemma first_capture_inv s g :
  first_capture s = Some g ->
  exists before kw rest,
    s = before +:+ kw +:+ rest
    /\ strip_prefix same_ci "translate " kw = Some EmptyString
    /\ matches_to_end g = true
    /\ (g = rest
        \/ exists to, rest = to +:+ g
                      /\ strip_prefix same_ci "to " to = Some EmptyString).
Proof.
  induction s as [|c s IH]; rewrite first_capture_eq.
  - destruct (capture_here EmptyString) eqn:E; [|discriminate].
    intros [= ->]. destruct (capture_here_inv _ _ E) as (kw & rest & H).
    now exists EmptyString, kw, rest.
  - destruct (capture_here (String c s)) eqn:E.
    + intros [= ->]. destruct (capture_here_inv _ _ E) as (kw & rest & H).
      now exists EmptyString, kw, rest.
    + intros H. destruct (IH H) as (before & kw & rest & -> & H').
      now exists (String c before), kw, rest.
Qed.

Lemma append_nonempty s rest : s <> EmptyString -> s +:+ rest <> EmptyString.
Proof. destruct s; [congruence | discriminate]. Qed.

Lemma eqb_empty s : String.eqb s EmptyString = false <-> s <> EmptyString.
Proof. destruct s; simpl; split; congruence. Qed.

End ParseLemmas.

(** X21. [parseTargetLanguage] on a text that begins with the keyword in
    any letter case: when what follows is one non-empty line, the
    language is that line trimmed, without a leading [to ] if something
    is left after it. *)
Theorem parseTargetLanguage_reads_the_language (kw rest : string) :
  strip_prefix same_ci "translate " kw = Some EmptyString ->
  matches_to_end rest = true ->
  parseTargetLanguage (kw +:+ rest)
  = Some (js_trim
            match strip_prefix same_ci "to " rest with
            | Some rest' => if matches_to_end rest' then rest' else rest
            | None => rest
            end).
Proof.
  intros Hkw Hrest. unfold parseTargetLanguage.
  assert (Hne : String.eqb (kw +:+ rest) EmptyString = false).
  { apply eqb_empty, append_nonempty. intros ->. discriminate Hkw. }
  rewrite Hne, first_capture_eq. unfold capture_here.
  rewrite (strip_prefix_app _ _ _ _ Hkw), Hrest.
  destruct (strip_prefix same_ci "to " rest) as [rest'|]; [|reflexivity].
  destruct (matches_to_end rest'); reflexivity.
Qed.

Lemma parseTargetLanguage_reads_the_language_witness :
  parseTargetLanguage ("Translate " +:+ "TO  French ") = Some "French"
  /\ parseTargetLanguage ("TRANSLATE " +:+ "to ") = Some "to"
  /\ parseTargetLanguage ("translate " +:+ "German") = Some "German".
Proof.
  split; [|split].
  - exact (parseTargetLanguage_reads_the_language "Translate " "TO  French "
             eq_refl eq_refl).
  - exact (parseTargetLanguage_reads_the_language "TRANSLATE " "to "
             eq_refl eq_refl).
  - exact (parseTargetLanguage_reads_the_language "translate " "German"
             eq_refl eq_refl).
Defined.

(** X22. Whatever [parseTargetLanguage] returns is trimmed and fits on
    one line, and comes from a place in the text where the keyword
    stands: the text after the keyword, or after the [to ] that follows
    it, up to the end.  For the empty text it returns [null]. *)
Theorem parseTargetLanguage_result (s tl : string) :
  parseTargetLanguage s = Some tl ->
  s <> EmptyString
  /\ js_trim tl = tl
  /\ has_line_terminator (chars tl) = false
  /\ exists before kw rest,
       s = before +:+ kw +:+ rest
       /\ strip_prefix same_ci "translate " kw = Some EmptyString
       /\ (tl = js_trim rest
           \/ exists to g, rest = to +:+ g
                /\ strip_prefix same_ci "to " to = Some EmptyString
                /\ tl = js_trim g).
Proof.
  unfold parseTargetLanguage.
  destruct (String.eqb s EmptyString) eqn:Es; [discriminate|].
  destruct (first_capture s) as [g|] eqn:E; [|discriminate].
  intros [= <-].
  destruct (first_capture_inv _ _ E) as (before & kw & rest & Hs & Hkw & Hg & Hor).
  split; [apply eqb_empty, Es|]. split; [apply js_trim_idem|]. split.
  - apply js_trim_single_line. unfold matches_to_end in Hg.
    apply andb_true_iff in Hg. destruct Hg as [_ Hg].
    apply negb_true_iff in Hg. exact Hg.
  - exists before, kw, rest. split; [exact Hs|]. split; [exact Hkw|].
    destruct Hor as [->|(to & -> & Hto)]; [now left|].
    right. now exists to, g.
Qed.

Lemma parseTargetLanguage_result_witness :
  "please translate to Urdu  " <> EmptyString
  /\ js_trim "Urdu" = "Urdu"
  /\ has_line_terminator (chars "Urdu") = false
  /\ exists before kw rest,
       "please translate to Urdu  " = before +:+ kw +:+ rest
       /\ strip_prefix same_ci "translate " kw = Some EmptyString
       /\ ("Urdu" = js_trim rest
           \/ exists to g, rest = to +:+ g
                /\ strip_prefix same_ci "to " to = Some EmptyString
                /\ "Urdu" = js_trim g).
Proof.
  exact (parseTargetLanguage_result "please translate to Urdu  " "Urdu" eq_refl).
Defined.
Section PromptLemmas.

Lemma getHeadings_from (limit : nat) (texts : list (option string)) (heads : list string) :
  length heads <= limit ->
  fold_left
    (fun heads h =>
       if (length heads <? limit)%nat then
         let t := js_trim (match h with Some text => text | None => EmptyString end) in
         if negb (String.eqb t "") then heads ++ [t] else heads
       else heads)
    texts heads
  = heads ++ firstn (limit - length heads)
               (List.filter (fun t => negb (String.eqb t ""))
                  (map (fun h => js_trim (match h with
                                          | Some text => text
                                          | None => EmptyString
                                          end)) texts)).
Proof.
  revert heads. induction texts as [|h texts IH]; intros heads Hlen.
  - cbn. rewrite firstn_nil, app_nil_r. reflexivity.
  - cbn [fold_left map List.filter].
    destruct (Nat.ltb_spec (length heads) limit) as [Hlt|Hge].
    + cbv zeta.
      destruct (negb (String.eqb (js_trim match h with
                                          | Some text => text
                                          | None => EmptyString
                                          end) "")) eqn:E.
      * rewrite IH by (rewrite length_app; simpl; lia).
        rewrite length_app. cbn [length].
        replace (limit - length heads) with (S (limit - (length heads + 1))) by lia.
        cbn [firstn]. rewrite <- app_assoc. reflexivity.
      * apply IH. lia.
    + rewrite IH by lia.
      replace (limit - length heads) with 0 by lia. reflexivity.
Qed.

Lemma in_firstn {A} (n : nat) (l : list A) (x : A) : In x (firstn n l) -> In x l.
Proof.
  revert l. induction n as [|n IH]; intros [|y l]; cbn; try tauto.
  intros [H|H]; [now left | right; apply IH, H].
Qed.

Lemma top_links_from_spec slice60 limit anchors seen links :
  seen = map link_href links ->
  NoDup seen ->
  (forall l, In l links -> link_href l <> EmptyString) ->
  (length links < limit \/ links = []) ->
  let result := top_links_from slice60 limit anchors seen links in
  NoDup (map link_href result)
  /\ (forall l, In l result ->
        link_href l <> EmptyString
        /\ (In l links \/ In (link_href l) (map a_href anchors)))
  /\ length result <= Nat.max 1 limit
  /\ exists more, result = links ++ more.
Proof.
  revert seen links. induction anchors as [|a rest IH]; intros seen links Hseen Hnd Hne Hlen.
  - cbn. rewrite <- Hseen. split; [exact Hnd|]. split; [|split].
    + intros l Hl. split; [apply Hne, Hl | now left].
    + destruct Hlen as [H| ->]; [lia | simpl; lia].
    + exists []. rewrite app_nil_r. reflexivity.
  - cbn [top_links_from]. cbv zeta.
    destruct (String.eqb (a_href a) "") eqn:Eempty; cbn [orb].
    { destruct (IH seen links Hseen Hnd Hne Hlen) as (H1 & H2 & H3 & H4).
      split; [exact H1|]. split; [|split; assumption].
      intros l Hl. destruct (H2 l Hl) as [Ha [Hb|Hb]];
        (split; [exact Ha|]); [now left | right; cbn; now right]. }
    destruct (bool_decide (a_href a ∈ seen)) eqn:Eseen.
    { destruct (IH seen links Hseen Hnd Hne Hlen) as (H1 & H2 & H3 & H4).
      split; [exact H1|]. split; [|split; assumption].
      intros l Hl. destruct (H2 l Hl) as [Ha [Hb|Hb]];
        (split; [exact Ha|]); [now left | right; cbn; now right]. }
    apply bool_decide_eq_false in Eseen.
    set (new := Link _ (a_href a)).
    assert (Hseen' : seen ++ [a_href a] = map link_href (links ++ [new])).
    { rewrite map_app, <- Hseen. reflexivity. }
    assert (Hnd' : NoDup (seen ++ [a_href a])).
    { apply NoDup_app. split; [exact Hnd|]. split.
      - intros x Hx Hx'. apply list_elem_of_singleton in Hx'. subst x. contradiction.
      - apply NoDup_singleton. }
    assert (Hne' : forall l, In l (links ++ [new]) -> link_href l <> EmptyString).
    { intros l Hl. apply in_app_or in Hl. destruct Hl as [Hl|[<-|[]]]; [apply Hne, Hl|].
      cbn. apply String.eqb_neq. exact Eempty. }
    destruct (Nat.leb_spec limit (length (links ++ [new]))) as [Hstop|Hgo].
    + rewrite <- Hseen'. split; [exact Hnd'|]. split; [|split].
      * intros l Hl. split; [apply Hne', Hl|].
        apply in_app_or in Hl. destruct Hl as [Hl|[<-|[]]]; [now left|].
        right. cbn. now left.
      * rewrite length_app in *. cbn [length] in *.
        destruct Hlen as [H| ->]; [lia | simpl; lia].
      * now exists [new].
    + destruct (IH _ _ Hseen' Hnd' Hne' (or_introl Hgo)) as (H1 & H2 & H3 & more & H4).
      split; [exact H1|]. split; [|split].
      * intros l Hl. destruct (H2 l Hl) as [Ha Hb]. split; [exact Ha|].
        destruct Hb as [Hb|Hb].
        -- apply in_app_or in Hb. destruct Hb as [Hb|[<-|[]]]; [now left|].
           right. cbn. now left.
        -- right. cbn. now right.
      * exact H3.
      * exists (new :: more). rewrite H4, <- app_assoc. reflexivity.
Qed.

End PromptLemmas.

(** X23. Neither surface sends an empty prompt: the prompt box always
    composes a non-empty one, and the side chat sends nothing exactly
    when the input is blank and a non-empty prompt otherwise. *)
Theorem prompts_are_never_empty (input selected : string) :
  prompt_box_prompt input selected <> EmptyString
  /\ (chat_prompt input selected = None <-> js_trim input = EmptyString)
  /\ (forall p, chat_prompt input selected = Some p -> p <> EmptyString).
Proof.
  unfold prompt_box_prompt, chat_prompt. cbv zeta.
  destruct (String.eqb (js_trim input) "") eqn:E.
  - apply String.eqb_eq in E. repeat split; try congruence.
    destruct (negb (String.eqb selected "")); [apply append_nonempty|]; discriminate.
  - apply eqb_empty in E.
    destruct (language_given (parseTargetLanguage (js_trim input)));
      destruct (String.eqb selected ""); cbn [negb andb];
      (split; [|split]);
      try (intros p [= <-]);
      try (split; [discriminate | congruence]);
      try (apply append_nonempty; first [exact E | discriminate]);
      exact E.
Qed.



(** X25. A query message of the content script, whatever its prompt, is
    routed by the background listener to the generate endpoint: the
    listener answers [true], and the fetch carries the prompt and the
    selection unchanged with mode [general], no task and no target
    language. *)
Theorem query_message_is_forwarded (sc : scenario) (tabId : option Z)
    (prompt selected : string) (pageContext : jsval) (w : world) :
  outcome (onMessage sc (query_message prompt selected pageContext) tabId w)
  = Ok (JBool true)
  /\ In (FetchStart "http://localhost:3000/api/generate"
           (JObj [("prompt", JStr prompt); ("selectedText", JStr selected);
                  ("mode", JStr "general"); ("task", JNull);
                  ("targetLanguage", JNull);
                  ("pageContext", js_or pageContext JNull)])
           (allocated w))
        (calls (onMessage sc (query_message prompt selected pageContext) tabId w)).
Proof.
  unfold onMessage, query_message.
  change (query_gemini sc tabId) with (handler Query sc tabId).
  cbn [nullish js_get lookup_field is_str String.eqb Ascii.eqb Bool.eqb].
  rewrite bind_eq, handler_eq. cbn [outcome calls final ret].
  split; [reflexivity|].
  rewrite app_nil_r. apply in_or_app. left. unfold opening.
  right. apply in_or_app. right. right. left. reflexivity.
Qed.

(** X26. [getHeadings] returns the first [limit] non-blank headings of
    the page, trimmed and in document order: never more than [limit],
    and none of them empty or with white space around it. *)
Theorem getHeadings_first_nonblank (limit : nat) (innerTexts : list (option string)) :
  getHeadings limit innerTexts
  = firstn limit
      (List.filter (fun t => negb (String.eqb t ""))
         (map (fun h => js_trim (match h with
                                 | Some text => text
                                 | None => EmptyString
                                 end)) innerTexts))
  /\ length (getHeadings limit innerTexts) <= limit
  /\ forall t, In t (getHeadings limit innerTexts) ->
       t <> EmptyString /\ js_trim t = t.
Proof.
  assert (E : getHeadings limit innerTexts
              = firstn limit
                  (List.filter (fun t => negb (String.eqb t ""))
                     (map (fun h => js_trim (match h with
                                             | Some text => text
                                             | None => EmptyString
                                             end)) innerTexts))).
  { unfold getHeadings. rewrite getHeadings_from by (simpl; lia).
    cbn [app length]. rewrite Nat.sub_0_r. reflexivity. }
  rewrite E. split; [reflexivity|]. split; [apply firstn_le_length|].
  intros t Ht. apply in_firstn in Ht. apply filter_In in Ht.
  destruct Ht as [Hin Hne]. split.
  - apply eqb_empty. apply negb_true_iff in Hne. exact Hne.
  - apply in_map_iff in Hin. destruct Hin as (h & <- & _). apply js_trim_idem.
Qed.

(** X27. [getTopLinks] returns links with pairwise distinct, non-empty
    addresses, each the address of an anchor of the page.  It stops as
    soon as it holds [limit] links, after pushing: there are at most
    [limit] of them, but one for a [limit] of zero. *)
Theorem getTopLinks_distinct_and_bounded (slice60 : string -> string)
    (limit : nat) (anchors : list anchor) :
  NoDup (map link_href (getTopLinks slice60 limit anchors))
  /\ (forall l, In l (getTopLinks slice60 limit anchors) ->
        link_href l <> EmptyString /\ In (link_href l) (map a_href anchors))
  /\ length (getTopLinks slice60 limit anchors) <= Nat.max 1 limit.
Proof.
  unfold getTopLinks.
  destruct (top_links_from_spec slice60 limit anchors [] [] eq_refl
              NoDup_nil_2 (fun l H => match H with end) (or_intror eq_refl))
    as (H1 & H2 & H3 & _).
  split; [exact H1|]. split; [|exact H3].
  intros l Hl. destruct (H2 l Hl) as [Ha [[]|Hb]]. split; assumption.
Qed.
(** * The proxy server *)

Section ProxyLemmas.

Lemma configured_some (GEMINI_API_KEY : option string) (key : string) :
  configured GEMINI_API_KEY = Some key ->
  GEMINI_API_KEY = Some key /\ key <> EmptyString.
Proof.
  unfold configured. destruct GEMINI_API_KEY as [k|]; [|discriminate].
  destruct (String.eqb k "") eqn:E; [discriminate|].
  intros [= <-]. split; [reflexivity | apply String.eqb_neq, E].
Qed.

End ProxyLemmas.

(** X28. The replies of the proxy's two routes.  The status is 200, 500
    or 502 and the body's [ok] says whether it is 200; a failure carries
    an [error] string.  Without an API key nothing is sent upstream, and
    with one the request carries that key.  The status is 502 exactly
    when the upstream API was reached and answered outside 2xx. *)
Theorem proxy_reply_discipline (ops : text_ops) (cv : conversions)
    (GEMINI_API_KEY : option string) (upstream : network_outcome)
    (greq : generate_request) (sreq : summarize_request) (r : route_result) :
  r = api_generate ops cv GEMINI_API_KEY upstream greq
  \/ r = api_summarize ops cv GEMINI_API_KEY upstream sreq ->
  js_get (reply_body r) "ok" = JBool (reply_status r =? 200)%Z
  /\ (reply_status r = 200%Z
      \/ (reply_status r = 500%Z \/ reply_status r = 502%Z)
         /\ exists e, js_get (reply_body r) "error" = JStr e)
  /\ (upstream_request r = None <-> configured GEMINI_API_KEY = None)
  /\ (forall key prompt, upstream_request r = Some (key, prompt) ->
        GEMINI_API_KEY = Some key /\ key <> EmptyString)
  /\ (reply_status r = 502%Z <->
        configured GEMINI_API_KEY <> None
        /\ exists st t j, upstream = Responds st t j /\ is_2xx st = false).
Proof.
  intros [-> | ->]; unfold api_generate, api_summarize;
    (destruct (configured GEMINI_API_KEY) as [key|] eqn:Hk;
     [destruct (configured_some _ _ Hk) as [HK Hne]|]);
    try (destruct upstream as [st t j|err];
         [destruct (is_2xx st) eqn:Hst; cbn [negb]; [try destruct j as [data|e]|] | ]);
    cbn [reply_status reply_body upstream_request js_get lookup_field String.eqb
         Ascii.eqb Bool.eqb Z.eqb Pos.eqb].
  all: split; [reflexivity|].
  all: split; [eauto 6|].
  all: split; [split; congruence|].
  all: split; [intros k p Hsent; try discriminate Hsent; injection Hsent as <- _;
               split; assumption|].
  all: split; [first [discriminate | intros _; split; [congruence | eauto 6]]
              | intros [H1 (st' & t' & j' & H2 & H3)]; congruence].
Qed.

Lemma proxy_reply_discipline_witness :
  let r := api_generate ascii_ops (Conversions (fun _ => EmptyString) (fun _ => JUndefined))
             (Some "k") (Responds 503 (Ok "busy") (Throw (JsError "SyntaxError" "bad")))
             (GenerateRequest (Some "why?") None None) in
  js_get (reply_body r) "ok" = JBool (reply_status r =? 200)%Z
  /\ (reply_status r = 200%Z
      \/ (reply_status r = 500%Z \/ reply_status r = 502%Z)
         /\ exists e, js_get (reply_body r) "error" = JStr e)
  /\ (upstream_request r = None <-> configured (Some "k") = None)
  /\ (forall key prompt, upstream_request r = Some (key, prompt) ->
        Some "k" = Some key /\ key <> EmptyString)
  /\ (reply_status r = 502%Z <->
        configured (Some "k") <> None
        /\ exists st t j,
             Responds 503 (Ok "busy") (Throw (JsError "SyntaxError" "bad"))
             = Responds st t j /\ is_2xx st = false).
Proof.
  exact (proxy_reply_discipline ascii_ops
           (Conversions (fun _ => EmptyString) (fun _ => JUndefined))
           (Some "k") (Responds 503 (Ok "busy") (Throw (JsError "SyntaxError" "bad")))
           (GenerateRequest (Some "why?") None None)
           (SummarizeRequest None Medium) _ (or_introl eq_refl)).
Defined.

(** X29. An upstream answer in 2xx whose body is not JSON.  The generate
    route treats the body as [null] and still answers 200 with [ok: true]
    and an empty text; the summarize route fails with 500 and the parse
    error's message. *)
Theorem unparseable_upstream_body_differs (ops : text_ops) (cv : conversions)
    (GEMINI_API_KEY : option string) (st : Z) (t : result string) (e : js_error)
    (greq : generate_request) (sreq : summarize_request) :
  configured GEMINI_API_KEY <> None ->
  is_2xx st = true ->
  let upstream := Responds st t (Throw e) in
  let g := api_generate ops cv GEMINI_API_KEY upstream greq in
  let s := api_summarize ops cv GEMINI_API_KEY upstream sreq in
  reply_status g = 200%Z
  /\ reply_body g
     = JObj [("ok", JBool true); ("text", JStr EmptyString); ("raw", JNull)]
  /\ reply_status s = 500%Z
  /\ reply_body s
     = JObj [("ok", JBool false); ("error", JStr (message_or_string e))].
Proof.
  intros Hk Hst. cbv zeta. unfold api_generate, api_summarize.
  destruct (configured GEMINI_API_KEY) as [key|]; [|congruence].
  rewrite Hst. repeat split; reflexivity.
Qed.

Lemma unparseable_upstream_body_differs_witness :
  reply_status
    (api_generate ascii_ops (Conversions (fun _ => EmptyString) (fun _ => JUndefined))
       (Some "k") (Responds 200 (Ok "<html>") (Throw (JsError "SyntaxError" "bad")))
       (GenerateRequest (Some "why?") None None)) = 200%Z
  /\ reply_status
       (api_summarize ascii_ops (Conversions (fun _ => EmptyString) (fun _ => JUndefined))
          (Some "k") (Responds 200 (Ok "<html>") (Throw (JsError "SyntaxError" "bad")))
          (SummarizeRequest None Short)) = 500%Z.
Proof.
  destruct (unparseable_upstream_body_differs ascii_ops
              (Conversions (fun _ => EmptyString) (fun _ => JUndefined))
              (Some "k") 200 (Ok "<html>") (JsError "SyntaxError" "bad")
              (GenerateRequest (Some "why?") None None) (SummarizeRequest None Short)
              ltac:(vm_compute; discriminate) eq_refl)
    as (Hg & _ & Hs & _).
  split; [exact Hg | exact Hs].
Defined.

(** X30. From the upstream API to the page.  When the server has a key
    and the upstream API answers in 2xx with a candidate whose text is a
    non-empty string, that text is what the prompt box and the side chat
    show for a query and what the summary panel shows for a summary,
    provided the request is not cancelled on the way. *)
Theorem upstream_answer_reaches_the_page
    (ops : text_ops) (cv : conversions) (serialize : jsval -> string)
    (GEMINI_API_KEY : option string) (st : Z) (t : result string) (data : jsval)
    (answer : string) (greq : generate_request) (sreq : summarize_request)
    (before : list other_step) (scq scs : scenario) (tabId : option Z)
    (msg : jsval) :
  configured GEMINI_API_KEY <> None ->
  is_2xx st = true ->
  first_part_text data "candidates" = JStr answer ->
  answer <> EmptyString ->
  network scq
  = proxy_answer serialize
      (api_generate ops cv GEMINI_API_KEY (Responds st t (Ok data)) greq) ->
  network scs
  = proxy_answer serialize
      (api_summarize ops cv GEMINI_API_KEY (Responds st t (Ok data)) sreq) ->
  cancelled scq tabId (reached before) = false ->
  cancelled scs tabId (reached before) = false ->
  map (prompt_box_shows cv)
    (replies (calls (query_gemini scq tabId msg (reached before))))
  = [JStr answer]
  /\ map (chat_shows cv)
       (replies (calls (query_gemini scq tabId msg (reached before))))
     = [JStr answer]
  /\ map (summary_panel_shows cv)
       (replies (calls (summarize_page scs tabId msg (reached before))))
     = [JStr answer].
Proof.
  intros Hk Hst Hans Hne Hq Hs Hcq Hcs.
  change (summarize_page scs tabId msg) with (handler Summary scs tabId msg).
  change (query_gemini scq tabId msg) with (handler Query scq tabId msg).
  rewrite !replies_handler, !settle_well_allocated by apply reached_well_allocated.
  rewrite Hcq, Hcs, Hq, Hs. unfold proxy_answer, api_generate, api_summarize.
  destruct (configured GEMINI_API_KEY) as [key|]; [|congruence].
  rewrite Hst. cbn [negb reply_status reply_body]. rewrite Hans.
  apply eqb_empty in Hne.
  change (is_2xx 200) with true.
  cbn [negb reply_of map success_reply].
  unfold summary_panel_shows, prompt_box_shows, chat_shows, js_or.
  cbn [truthy js_get lookup_field String.eqb Ascii.eqb Bool.eqb negb].
  rewrite Hne. cbn [negb truthy js_get lookup_field String.eqb Ascii.eqb Bool.eqb].
  rewrite ?Hne. repeat split; reflexivity.
Qed.

Lemma upstream_answer_reaches_the_page_witness :
  let cv := Conversions (fun _ => EmptyString) (fun _ => JUndefined) in
  let up := Responds 200 (Ok EmptyString) (Ok (candidate_answer (JStr "Hi"))) in
  let scq :=
    with_network
      (proxy_answer (fun _ => EmptyString)
         (api_generate ascii_ops cv (Some "k") up
            (GenerateRequest (Some "why?") None None))) quiet in
  map (prompt_box_shows cv)
    (replies (calls (query_gemini scq (Some 7%Z) (JObj []) (reached []))))
  = [JStr "Hi"].
Proof.
  cbv zeta.
  refine (proj1 (upstream_answer_reaches_the_page ascii_ops
           (Conversions (fun _ => EmptyString) (fun _ => JUndefined))
           (fun _ => EmptyString) (Some "k") 200 (Ok EmptyString)
           (candidate_answer (JStr "Hi")) "Hi"
           (GenerateRequest (Some "why?") None None) (SummarizeRequest None Medium)
           []
           (with_network
              (proxy_answer (fun _ => EmptyString)
                 (api_generate ascii_ops
                    (Conversions (fun _ => EmptyString) (fun _ => JUndefined))
                    (Some "k")
                    (Responds 200 (Ok EmptyString) (Ok (candidate_answer (JStr "Hi"))))
                    (GenerateRequest (Some "why?") None None))) quiet)
           (with_network
              (proxy_answer (fun _ => EmptyString)
                 (api_summarize ascii_ops
                    (Conversions (fun _ => EmptyString) (fun _ => JUndefined))
                    (Some "k")
                    (Responds 200 (Ok EmptyString) (Ok (candidate_answer (JStr "Hi"))))
                    (SummarizeRequest None Medium))) quiet)
           (Some 7%Z) (JObj []) _ eq_refl eq_refl _ eq_refl eq_refl _ _));
    first [ discriminate | vm_compute; discriminate | vm_compute; reflexivity ].
Defined.
